(** * Dose extraction and aggregation (tools_2.0/erowid/extract_doses_2.0.py)

    A shallow embedding of the pure core of the scraper: the progress
    ledger, the dose extractor, the quantile aggregator and the output
    sorter, together with the parts of the Python runtime they rest on
    (text as Unicode code points, the [re] patterns of the source,
    binary64 floats with their shortest [repr], insertion-ordered
    dictionaries). *)

From Stdlib Require Import String Ascii DecimalString.
From Stdlib Require Import ZArith NArith QArith Qpower Qround Qabs List Bool Lia Lqa.
From Stdlib Require Import Sorted Permutation.
Import ListNotations.

Set Implicit Arguments.
Open Scope Z_scope.

(* ================================================================== *)
(** ** Text *)

(** A Python [str] is a sequence of Unicode code points. *)
Definition str := list N.

Fixpoint py (s : string) : str :=
  match s with
  | EmptyString => []
  | String a t => N_of_ascii a :: py t
  end.

Definition str_eqb (a b : str) : bool :=
  if list_eq_dec N.eq_dec a b then true else false.

(** [str.isspace] per character, which is also what [\s] matches in a
    [str] pattern. *)
Definition isspace (c : N) : bool :=
  ((9 <=? c) && (c <=? 13) || (28 <=? c) && (c <=? 32)
   || (c =? 133) || (c =? 160) || (c =? 5760)
   || (8192 <=? c) && (c <=? 8202)
   || (c =? 8232) || (c =? 8233) || (c =? 8239) || (c =? 8287)
   || (c =? 12288))%N.

(** Code points of the digit zero of every decimal-digit block (general
    category Nd, Unicode 14); each block holds the ten digits in order.
    [\d] matches exactly these characters and [float] reads them with
    their digit value. *)
Definition nd_zeros : list N :=
  [48; 1632; 1776; 1984; 2406; 2534; 2662; 2790; 2918; 3046; 3174; 3302;
   3430; 3558; 3664; 3792; 3872; 4160; 4240; 6112; 6160; 6470; 6608; 6784;
   6800; 6992; 7088; 7232; 7248; 42528; 43216; 43264; 43472; 43504; 43600;
   44016; 65296; 66720; 68912; 69734; 69872; 69942; 70096; 70384; 70736;
   70864; 71248; 71360; 71472; 71904; 72016; 72784; 73040; 73120; 92768;
   92864; 93008; 120782; 120792; 120802; 120812; 120822; 123200; 123632;
   125264; 130032]%N.

Definition decimal_value (c : N) : option N :=
  match find (fun z => (z <=? c) && (c <? z + 10))%N nd_zeros with
  | Some z => Some (c - z)%N
  | None => None
  end.

Definition isdecimal (c : N) : bool :=
  match decimal_value c with Some _ => true | None => false end.

Definition is_ascii_upper (c : N) : bool := ((65 <=? c) && (c <=? 90))%N.
Definition is_ascii_lower (c : N) : bool := ((97 <=? c) && (c <=? 122))%N.
Definition is_ascii_digit (c : N) : bool := ((48 <=? c) && (c <=? 57))%N.

(** Upper-case letters of Latin-1 other than A-Z: U+00C0..U+00DE without
    the multiplication sign U+00D7. *)
Definition is_latin1_upper (c : N) : bool :=
  ((192 <=? c) && (c <=? 222) && negb (c =? 215))%N.

(** Simple (one to one) lower-case mapping, the one the [re] engine uses
    under [re.IGNORECASE].  It is exact on U+0000..U+00FF and on the few
    letters beyond Latin-1 that the patterns of the source can match:
    U+0130 (capital I with dot), U+039C (Greek capital mu) and U+212A
    (Kelvin sign); other code points are left as they are. *)
Definition simple_lower (c : N) : N :=
  if is_ascii_upper c || is_latin1_upper c then (c + 32)%N
  else if (c =? 304)%N then 105%N
  else if (c =? 924)%N then 956%N
  else if (c =? 8490)%N then 107%N
  else c.

(** Full lower-case mapping of [str.lower]: as [simple_lower], except
    that U+0130 becomes the two code points U+0069 U+0307.  Like
    [simple_lower] it is exact on U+0000..U+00FF, U+0130, U+039C and
    U+212A only: [str.lower] also maps the other cased letters
    (Cyrillic, the rest of Greek, where the capital sigma depends on
    the letters around it), which are left as they are here.  Where
    a property would rest on the values of [lower] on those letters, it
    is stated for the texts of [latin1]. *)
Definition lower_char (c : N) : str :=
  if (c =? 304)%N then [105; 775]%N else [simple_lower c].

Definition lower (s : str) : str := flat_map lower_char s.

(** [str.strip()] without argument. *)
Fixpoint lstrip (s : str) : str :=
  match s with
  | c :: t => if isspace c then lstrip t else s
  | [] => []
  end.

Definition rstrip (s : str) : str := rev (lstrip (rev s)).
Definition strip (s : str) : str := rstrip (lstrip s).

(** [s.replace(c, "")] for a one-character [c]. *)
Definition remove_char (c : N) (s : str) : str :=
  filter (fun x => negb (x =? c)%N) s.

(** Word characters of [\w]: alphanumerics and the underscore.  Exact on
    U+0000..U+00FF and on the four letters U+0130, U+0131, U+017F and
    U+212A; [\w] is only ever consulted by the source on characters that
    the substance class of the dose pattern has already accepted. *)
Definition isword (c : N) : bool :=
  (is_ascii_upper c || is_ascii_lower c || is_ascii_digit c || (c =? 95)
   || (c =? 170) || (c =? 178) || (c =? 179) || (c =? 181) || (c =? 185)
   || (c =? 186) || (188 <=? c) && (c <=? 190)
   || (192 <=? c) && (c <=? 255) && negb (c =? 215) && negb (c =? 247)
   || (c =? 304) || (c =? 305) || (c =? 383) || (c =? 8490)
   || isdecimal c)%N.

(** Decimal rendering of a natural number, as [str(n)]. *)
Definition str_of_N (n : N) : str := py (NilZero.string_of_uint (N.to_uint n)).
Definition str_of_nat (n : nat) : str := str_of_N (N.of_nat n).

(* ================================================================== *)
(** ** Insertion-ordered dictionaries *)

Section Dict.
Variables (K V : Type).
Variable eqb : K -> K -> bool.

Definition dict := list (K * V).

Fixpoint dict_get (k : K) (d : dict) : option V :=
  match d with
  | [] => None
  | (k', v) :: t => if eqb k k' then Some v else dict_get k t
  end.

Definition dict_mem (k : K) (d : dict) : bool :=
  match dict_get k d with Some _ => true | None => false end.

(** [d[k] = v]: an existing key keeps its position, a new key goes last. *)
Fixpoint dict_set (k : K) (v : V) (d : dict) : dict :=
  match d with
  | [] => [(k, v)]
  | (k', v') :: t =>
      if eqb k k' then (k', v) :: t else (k', v') :: dict_set k v t
  end.

Definition dict_keys (d : dict) : list K := map fst d.

(** [d[k]] on a [defaultdict] whose factory yields [dflt]. *)
Definition dict_get_default (dflt : V) (k : K) (d : dict) : V :=
  match dict_get k d with Some v => v | None => dflt end.
End Dict.

Arguments dict_get {K V} eqb k d.
Arguments dict_mem {K V} eqb k d.
Arguments dict_set {K V} eqb k v d.
Arguments dict_keys {K V} d.
Arguments dict_get_default {K V} eqb dflt k d.

(* ================================================================== *)
(** ** Binary64 floats *)

(** The floats of the source are never negative and never NaN: they are
    read from unsigned decimal numerals or are products of such.  A
    finite float is kept as the rational it denotes, in lowest terms. *)
Inductive pyfloat := Finite (q : Q) | Inf.

(** Exceptions that the modelled code lets escape. *)
Inductive exn := OverflowError | UnicodeDecodeError.

Inductive result (A : Type) :=
| Return (a : A)
| Raise (e : exn).
Arguments Return {A} a.
Arguments Raise {A} e.

Definition bind {A B} (m : result A) (f : A -> result B) : result B :=
  match m with
  | Return a => f a
  | Raise e => Raise e
  end.

Notation "x <- m ;; k" := (bind m (fun x => k))
  (at level 61, m at next level, right associativity).

(** floor (log2 q) for [q > 0]. *)
Definition Qlog2 (q : Q) : Z :=
  let k := Z.log2 (Qnum q) - Z.log2 (Zpos (Qden q)) in
  if Qle_bool (Qpower 2 k) q then k else k - 1.

(** Nearest integer, ties to even. *)
Definition rne (q : Q) : Z :=
  let f := Qfloor q in
  match Qcompare (q - inject_Z f)%Q (1 # 2)%Q with
  | Lt => f
  | Gt => f + 1
  | Eq => if Z.even f then f else f + 1
  end.

(** Round to nearest, ties to even, in binary64: 53 bits of precision,
    least exponent -1074 (subnormals), overflow to infinity from 2^1024. *)
Definition round64 (q : Q) : pyfloat :=
  if Qle_bool q 0 then Finite 0
  else
    let e := Z.max (Qlog2 q - 52) (-1074) in
    let m := rne (q / Qpower 2 e)%Q in
    let r := Qred (inject_Z m * Qpower 2 e)%Q in
    if Qle_bool (Qpower 2 1024) r then Inf else Finite r.

Definition fltb (a b : pyfloat) : bool :=
  match a, b with
  | Finite x, Finite y => negb (Qle_bool y x)
  | Finite _, Inf => true
  | Inf, _ => false
  end.

Definition fleb (a b : pyfloat) : bool :=
  match a, b with
  | Finite x, Finite y => Qle_bool x y
  | _, Inf => true
  | Inf, Finite _ => false
  end.

Definition feqb (a b : pyfloat) : bool :=
  match a, b with
  | Finite x, Finite y => Qeq_bool x y
  | Inf, Inf => true
  | _, _ => false
  end.

(** [float(n)] for a non-negative [int]: correctly rounded, and an
    [OverflowError] when the integer is too large. *)
Definition float_of_int (n : Z) : result Q :=
  match round64 (inject_Z n) with
  | Finite r => Return r
  | Inf => Raise OverflowError
  end.

(** [int(x)] for a non-negative float. *)
Definition int_of_float (x : pyfloat) : result Z :=
  match x with
  | Finite q => Return (Qfloor q)
  | Inf => Raise OverflowError
  end.

(** Value of a run of decimal digits. *)
Fixpoint digits_value (acc : N) (s : str) : N :=
  match s with
  | [] => acc
  | c :: t =>
      match decimal_value c with
      | Some d => digits_value (10 * acc + d) t
      | None => digits_value acc t
      end
  end.

Fixpoint split_dot (s : str) : str * str :=
  match s with
  | [] => ([], [])
  | c :: t =>
      if (c =? 46)%N then ([], t)
      else let (a, b) := split_dot t in (c :: a, b)
  end.

(** [float(s)] for a numeral [s] of the shape digits[.digits]: the
    correctly rounded value of the decimal fraction. *)
Definition float_of_decimal (s : str) : pyfloat :=
  let (i, f) := split_dot s in
  round64 (Z.of_N (digits_value 0 (i ++ f)) # Z.to_pos (10 ^ Z.of_nat (length f))).

(** *** Shortest [repr] *)

Definition ndigits (n : Z) : Z :=
  Z.of_nat (Decimal.nb_digits (N.to_uint (Z.to_N n))).

(** Position of the decimal point of [q > 0]: the [d] with
    [10^(d-1) <= q < 10^d]. *)
Definition decpt_of (q : Q) : Z :=
  let d := ndigits (Qnum q) - ndigits (Zpos (Qden q)) in
  if Qle_bool (Qpower 10 d) q then d + 1 else d.

(** Does the decimal [c * 10^(-sc)] read back as [q]? *)
Definition reads_back (q : Q) (c sc : Z) : bool :=
  feqb (round64 (inject_Z c * Qpower 10 (- sc))%Q) (Finite q).

(** The [n]-digit decimals next to [q] that read back as [q]; of two,
    the nearer one, and on a tie the even one. *)
Definition candidate (q : Q) (dp : Z) (n : Z) : option (Z * Z) :=
  let sc := n - dp in
  let x := (q * Qpower 10 sc)%Q in
  let lo := Qfloor x in
  let hi := lo + 1 in
  match reads_back q lo sc, reads_back q hi sc with
  | true, true =>
      match Qcompare (x + x)%Q (inject_Z (lo + hi)) with
      | Lt => Some (lo, sc)
      | Gt => Some (hi, sc)
      | Eq => Some (if Z.even lo then lo else hi, sc)
      end
  | true, false => Some (lo, sc)
  | false, true => Some (hi, sc)
  | false, false => None
  end.

Fixpoint first_candidate (q : Q) (dp : Z) (ns : list Z) : option (Z * Z) :=
  match ns with
  | [] => None
  | n :: t =>
      match candidate q dp n with
      | Some r => Some r
      | None => first_candidate q dp t
      end
  end.

Fixpoint strip_zeros_rev (s : str) : str :=
  match s with
  | c :: t => if (c =? 48)%N then strip_zeros_rev t else s
  | [] => []
  end.

Definition zeros (n : Z) : str := repeat 48%N (Z.to_nat n).

(** Layout of [repr]: exponent notation when the decimal point lies
    outside [-4 < decpt <= 16], plain notation with at least one
    fractional digit otherwise. *)
Definition layout (digits : str) (decpt : Z) : str :=
  let n := Z.of_nat (length digits) in
  if (decpt <=? -4) || (16 <? decpt) then
    let e := decpt - 1 in
    let mant :=
      match digits with
      | d :: nil => [d]
      | d :: t => d :: 46%N :: t
      | nil => nil
      end in
    let ed := str_of_N (Z.to_N (Z.abs e)) in
    mant ++ [101%N; if e <? 0 then 45%N else 43%N]
         ++ (if Z.abs e <? 10 then 48%N :: ed else ed)
  else if decpt <=? 0 then
    [48%N; 46%N] ++ zeros (- decpt) ++ digits
  else if n <=? decpt then
    digits ++ zeros (decpt - n) ++ [46%N; 48%N]
  else
    firstn (Z.to_nat decpt) digits ++ [46%N] ++ skipn (Z.to_nat decpt) digits.

(** [repr(x)], which is also [str(x)] and what an f-string writes. *)
Definition float_repr (x : pyfloat) : str :=
  match x with
  | Inf => py "inf"
  | Finite q =>
      if Qle_bool q 0 then py "0.0"
      else
        match first_candidate q (decpt_of q)
                [1;2;3;4;5;6;7;8;9;10;11;12;13;14;15;16;17] with
        | Some (c, sc) =>
            let ds := str_of_N (Z.to_N c) in
            layout (rev (strip_zeros_rev (rev ds))) (ndigits c - sc)
        | None => py "?"
        end
  end.

(* ================================================================== *)
(** ** Regular expressions

    A backtracking matcher for the fragment of [re] that the source
    uses: character classes, concatenation, ordered alternation, the
    greedy [?], greedy and lazy repetition of a class, capturing groups
    and [$].  Alternatives are tried left to right, a greedy repetition
    tries the longest run first and a lazy one the shortest. *)

Inductive regex :=
| Eps
| Chr (p : N -> bool)
| Cat (r1 r2 : regex)
| Alt (r1 r2 : regex)
| Opt (r : regex)
| Star (lazy : bool) (p : N -> bool)
| Group (i : nat) (r : regex)
| EndS.

(** [p+] and [p+?]. *)
Definition Plus (lazy : bool) (p : N -> bool) : regex := Cat (Chr p) (Star lazy p).

Definition groups := list (nat * str).

Definition set_group (i : nat) (w : str) (g : groups) : groups :=
  dict_set Nat.eqb i w g.

(** [m.group(i)], with the empty string for a group that took no part
    (as [findall] reports it). *)
Definition group (i : nat) (g : groups) : str :=
  dict_get_default Nat.eqb [] i g.

Section Matcher.
Variable A : Type.

Fixpoint star_greedy (p : N -> bool) (s : str) (k : str -> option A) : option A :=
  match s with
  | c :: t =>
      if p c then
        match star_greedy p t k with
        | Some x => Some x
        | None => k s
        end
      else k s
  | [] => k s
  end.

Fixpoint star_lazy (p : N -> bool) (s : str) (k : str -> option A) : option A :=
  match k s with
  | Some x => Some x
  | None =>
      match s with
      | c :: t => if p c then star_lazy p t k else None
      | [] => None
      end
  end.

(** [rmatch r s g k]: match [r] at the head of [s] with the groups [g]
    captured so far, and hand the rest of the text to [k]; when [k]
    fails the matcher backtracks. *)
Fixpoint rmatch (r : regex) (s : str) (g : groups)
         (k : str -> groups -> option A) : option A :=
  match r with
  | Eps => k s g
  | Chr p =>
      match s with
      | c :: t => if p c then k t g else None
      | [] => None
      end
  | Cat r1 r2 => rmatch r1 s g (fun s' g' => rmatch r2 s' g' k)
  | Alt r1 r2 =>
      match rmatch r1 s g k with
      | Some x => Some x
      | None => rmatch r2 s g k
      end
  | Opt r1 =>
      match rmatch r1 s g k with
      | Some x => Some x
      | None => k s g
      end
  | Star false p => star_greedy p s (fun s' => k s' g)
  | Star true p => star_lazy p s (fun s' => k s' g)
  | Group i r1 =>
      rmatch r1 s g
        (fun s' g' => k s' (set_group i (firstn (length s - length s') s) g'))
  | EndS =>
      (* without re.MULTILINE: at the end, or before a final newline *)
      match s with
      | [] => k s g
      | [c] => if (c =? 10)%N then k s g else None
      | _ => None
      end
  end.
End Matcher.

(** [re.match(r, s)]: the groups of a match at the start of [s], and the
    text after the match. *)
Definition re_match (r : regex) (s : str) : option (groups * str) :=
  rmatch r s [] (fun s' g => Some (g, s')).

(** [r.findall(s)]: scan left to right; after a match, resume where it
    ended.  [skip] counts the characters of the last match still to be
    passed over. *)
Fixpoint findall_from (r : regex) (s : str) (skip : nat) : list groups :=
  match skip, s with
  | S n, _ :: t => findall_from r t n
  | S _, [] => []
  | O, _ =>
      match re_match r s with
      | Some (g, s') =>
          g :: match s with
               | [] => []
               | _ :: t => findall_from r t (length s - length s' - 1)
               end
      | None =>
          match s with
          | [] => []
          | _ :: t => findall_from r t 0
          end
      end
  end.

Definition findall (r : regex) (s : str) : list groups := findall_from r s 0.

(** [re.search(r, s)]: the first position with a match. *)
Fixpoint re_search (r : regex) (s : str) : option groups :=
  match re_match r s with
  | Some (g, _) => Some g
  | None =>
      match s with
      | [] => None
      | _ :: t => re_search r t
      end
  end.

(** *** Character classes *)

Definition lit (c : N) : N -> bool := N.eqb c.

(** Lower-case letters that share an upper-case letter with another one
    ([re]'s table of equivalences), for the letters of the patterns. *)
Definition fixes (l : N) : list N :=
  if (l =? 105)%N then [305%N]            (* i, dotless i *)
  else if (l =? 305)%N then [105%N]
  else if (l =? 115)%N then [383%N]       (* s, long s *)
  else if (l =? 383)%N then [115%N]
  else if (l =? 181)%N then [956%N]       (* micro sign, Greek mu *)
  else if (l =? 956)%N then [181%N]
  else [].

(** A literal under [re.IGNORECASE]. *)
Definition ci_lit (p c : N) : bool :=
  let lo := simple_lower p in
  let l := simple_lower c in
  (l =? lo)%N || existsb (N.eqb l) (fixes lo).

Definition nrange (a b : N) : list N :=
  map N.of_nat (seq (N.to_nat a) (N.to_nat b + 1 - N.to_nat a)).

(** A range [a-b], plain and under [re.IGNORECASE]. *)
Definition in_range (a b c : N) : bool := ((a <=? c) && (c <=? b))%N.
Definition ci_range (a b c : N) : bool := existsb (fun p => ci_lit p c) (nrange a b).

Definition word_ci (w : str) : regex :=
  fold_right (fun c r => Cat (Chr (ci_lit c)) r) Eps w.

Fixpoint alts (l : list regex) : regex :=
  match l with
  | [] => Chr (fun _ => false)
  | [r] => r
  | r :: t => Alt r (alts t)
  end.

(* ================================================================== *)
(** ** Utilities of the source *)

(** [normalize]: [re.sub(r"[- ,]", "", name.lower())]. *)
Definition normalize (name : str) : str :=
  filter (fun c => negb ((c =? 45) || (c =? 32) || (c =? 44))%N) (lower name).

(** *** Progress ledger *)

(** Strict UTF-8 decoding, as [open(..., encoding='utf-8')] reads a
    file; [None] stands for [UnicodeDecodeError]. *)
Definition cont (b : N) : bool := ((128 <=? b) && (b <=? 191))%N.

Fixpoint utf8_decode (bs : list N) : option str :=
  match bs with
  | [] => Some []
  | b0 :: t0 =>
      if (b0 <? 128)%N then option_map (cons b0) (utf8_decode t0)
      else if ((194 <=? b0) && (b0 <=? 223))%N then
        match t0 with
        | b1 :: t1 =>
            if cont b1
            then option_map (cons ((b0 - 192) * 64 + (b1 - 128))%N) (utf8_decode t1)
            else None
        | _ => None
        end
      else if ((224 <=? b0) && (b0 <=? 239))%N then
        match t0 with
        | b1 :: b2 :: t2 =>
            if cont b1 && cont b2
               && negb ((b0 =? 224) && (b1 <? 160))%N
               && negb ((b0 =? 237) && (160 <=? b1))%N
            then option_map
                   (cons ((b0 - 224) * 4096 + (b1 - 128) * 64 + (b2 - 128))%N)
                   (utf8_decode t2)
            else None
        | _ => None
        end
      else if ((240 <=? b0) && (b0 <=? 244))%N then
        match t0 with
        | b1 :: b2 :: b3 :: t3 =>
            if cont b1 && cont b2 && cont b3
               && negb ((b0 =? 240) && (b1 <? 144))%N
               && negb ((b0 =? 244) && (144 <=? b1))%N
            then option_map
                   (cons ((b0 - 240) * 262144 + (b1 - 128) * 4096
                          + (b2 - 128) * 64 + (b3 - 128))%N)
                   (utf8_decode t3)
            else None
        | _ => None
        end
      else None
  end.

(** A file system maps a path to the bytes of the file, if it exists. *)
Definition filesystem := str -> option (list N).

Section Ledger.
(** Decoded JSON values and [json.loads], which is library code:
    [None] stands for [json.JSONDecodeError]. *)
Variable json : Type.
Variable json_loads : str -> option json.
Variable empty_object : json.
Variable PROGRESS_FILE : str.

(** [load_progress]: only [json.JSONDecodeError] is caught. *)
Definition load_progress (fs : filesystem) : result json :=
  match fs PROGRESS_FILE with
  | None => Return empty_object
  | Some bytes =>
      match utf8_decode bytes with
      | None => Raise UnicodeDecodeError
      | Some text =>
          match json_loads text with
          | Some v => Return v
          | None => Return empty_object
          end
      end
  end.
End Ledger.

(** The ledger as [main] uses it: report URL to status. *)
Definition ledger := dict str str.

Definition DONE : str := py "done".
Definition FAILED : str := py "failed".
Definition FAILED_BLOCKED : str := py "failed_blocked".

(** [update_progress], on the mapping. *)
Definition update_progress (url status : str) (l : ledger) : ledger :=
  dict_set str_eqb url status l.

(** [urls_to_scrape = [u for u in all_report_urls if progress.get(u) != "done"]]. *)
Definition urls_to_scrape (all_report_urls : list str) (progress : ledger) : list str :=
  filter (fun u => match dict_get str_eqb u progress with
                   | Some st => negb (str_eqb st DONE)
                   | None => true
                   end) all_report_urls.

(** *** Report store *)

Record dose_record := { substance : str; dose : str; method : str }.

(** A file of the report store, named after the report identifier:
    what [save_temp_report] wrote (the timestamp is left out), or a file
    that cannot be read back. *)
Inductive temp_file :=
| Report (url : str) (doses : list dose_record)
| Corrupt.

Definition store := dict str temp_file.

Definition id_pattern : regex :=
  Cat (Chr (lit 73)) (Cat (Chr (lit 68)) (Cat (Chr (lit 61))
    (Group 1 (Plus false isdecimal)))).

Section ReportId.
(** [hashlib.md5(url.encode()).hexdigest()]. *)
Variable md5_hex : str -> str.

Definition get_report_id (url : str) : str :=
  match re_search id_pattern url with
  | Some g => group 1 g
  | None => md5_hex url
  end.

Definition save_temp_report (url : str) (doses : list dose_record) (st : store) : store :=
  dict_set str_eqb (get_report_id url) (Report url doses) st.
End ReportId.

(* ================================================================== *)
(** ** Dose extractor *)

(** [\d+(?:\.\d+)?], with the class that the dot compiles to. *)
Definition number_re (dot : N -> bool) : regex :=
  Cat (Plus false isdecimal) (Opt (Cat (Chr dot) (Plus false isdecimal))).

(** [mg|g|ug|µg|ml|drops?|capsules?] *)
Definition UNITS : list regex :=
  [ word_ci (py "mg"); word_ci (py "g"); word_ci (py "ug");
    word_ci (181%N :: py "g"); word_ci (py "ml");
    Cat (word_ci (py "drop")) (Opt (Chr (ci_lit 115)));
    Cat (word_ci (py "capsule")) (Opt (Chr (ci_lit 115))) ].

(** The route alternatives, in the order of the pattern. *)
Definition ROUTES : list str :=
  map py [ "oral"; "IM"; "IV"; "SC"; "intranasal"; "smoked"; "insufflated";
           "rectal"; "subcutaneous"; "intravenous"; "buccal"; "sublingual";
           "intramuscular"; "intravenous"; "subcutaneous" ]%string.

(** [[A-Za-z0-9,\-\s]] under [re.IGNORECASE]. *)
Definition substance_class (c : N) : bool :=
  ci_range 65 90 c || ci_range 97 122 c || ci_range 48 57 c
  || ci_lit 44 c || ci_lit 45 c || isspace (simple_lower c).

Definition dose_pattern : regex :=
  Cat (Group 1 (number_re (ci_lit 46)))
 (Cat (Star false isspace)
 (Cat (Group 2 (alts UNITS))
 (Cat (Star false isspace)
 (Cat (Group 3 (alts (map word_ci ROUTES)))
 (Cat (Star false isspace)
 (Cat (Group 4 (Plus true substance_class))
      (Alt (Cat (Star false isspace) (Chr (ci_lit 40))) EndS))))))).

(** [re.sub(r'\s+', ' ', s)]; [inrun] tells that the previous character
    was white space. *)
Fixpoint sub_ws (inrun : bool) (s : str) : str :=
  match s with
  | [] => []
  | c :: t =>
      if isspace c then (if inrun then sub_ws true t else 32%N :: sub_ws true t)
      else c :: sub_ws false t
  end.

(** The class [[\w\s,-]] whose complement [re.sub(r'[^\w\s,-]', '', s)] deletes. *)
Definition kept_class (c : N) : bool :=
  isword c || isspace c || (c =? 44)%N || (c =? 45)%N.

Definition clean_substance (sub_name : str) : str :=
  filter kept_class (sub_ws false (strip sub_name)).

Definition record_of_match (g : groups) : dose_record :=
  let dose_amount := group 1 g in
  let unit := group 2 g in
  let method := group 3 g in
  let sub_name := group 4 g in
  {| substance := clean_substance sub_name;
     dose := dose_amount ++ [32%N] ++ unit;
     method := lower method |}.

Definition extract_doses_from_text (text : str) : list dose_record :=
  map record_of_match (findall dose_pattern text).

(* ================================================================== *)
(** ** Aggregator *)

Record stats := {
  total_reports : nat;
  distribution : dict str nat
}.

Record ranges := {
  Threshold : str;
  Light : str;
  Common : str;
  Strong : str;
  Heavy : str;
  Dangerous : str;
  Fatal : str;
  _stats : stats
}.

(** [(\d+(?:\.\d+)?)\s*([a-zµ]+)] *)
Definition unit_class (c : N) : bool := in_range 97 122 c || (c =? 181)%N.

Definition parse_pattern : regex :=
  Cat (Group 1 (number_re (lit 46)))
 (Cat (Star false isspace)
      (Group 2 (Plus false unit_class))).

(** One turn of the parsing loop: [None] when the string is discarded. *)
Definition parse_dose (d : str) : option (pyfloat * str) :=
  let d_str := lower (strip d) in
  let d_str := remove_char 44 d_str in
  match re_match parse_pattern d_str with
  | Some (g, _) => Some (float_of_decimal (group 1 g), group 2 g)
  | None => None
  end.

Fixpoint parse_doses (doses : list str) : list (pyfloat * str) :=
  match doses with
  | [] => []
  | d :: t =>
      match parse_dose d with
      | Some p => p :: parse_doses t
      | None => parse_doses t
      end
  end.

(** [d[k] += 1] on a [defaultdict(int)]. *)
Definition incr {K} (eqb : K -> K -> bool) (k : K) (d : dict K nat) : dict K nat :=
  dict_set eqb k (dict_get_default eqb 0%nat k d + 1)%nat d.

Definition unit_counts (parsed : list (pyfloat * str)) : dict str nat :=
  fold_left (fun d p => incr str_eqb (snd p) d) parsed [].

(** [max(d, key=d.get)] on a non-empty dictionary: the first key, in
    iteration order, whose count no later key exceeds. *)
Definition max_key (k0 : str) (v0 : nat) (rest : dict str nat) : str :=
  fst (fold_left (fun best kv => if (snd best <? snd kv)%nat then kv else best)
                 rest (k0, v0)).

(** [list.sort()] of floats: stable, by [<]. *)
Fixpoint insert_sorted {X} (lt : X -> X -> bool) (x : X) (l : list X) : list X :=
  match l with
  | [] => [x]
  | y :: t => if lt x y then x :: l else y :: insert_sorted lt x t
  end.

Definition py_sort {X} (lt : X -> X -> bool) (l : list X) : list X :=
  fold_left (fun acc x => insert_sorted lt x acc) l [].

(** Order of the [(value, count)] pairs that [sorted(distribution.items())] uses. *)
Definition item_ltb (a b : pyfloat * nat) : bool :=
  fltb (fst a) (fst b) || feqb (fst a) (fst b) && (snd a <? snd b)%nat.

Definition value_counts (valid_doses : list pyfloat) : dict pyfloat nat :=
  fold_left (fun d v => incr feqb v d) valid_doses [].

Definition format_distribution (unit : str) (items : list (pyfloat * nat)) : dict str nat :=
  fold_left (fun d kv => dict_set str_eqb (float_repr (fst kv) ++ [32%N] ++ unit) (snd kv) d)
            items [].

(** [fmt(start, end)] *)
Definition fmt (unit : str) (start end_ : pyfloat) : str :=
  if feqb start end_ then float_repr start ++ [32%N] ++ unit
  else float_repr start ++ [45%N] ++ float_repr end_ ++ [32%N] ++ unit.

(** The float literals 0.10, 0.30, 0.70 and 0.90. *)
Definition pct10 : Q := 3602879701896397 # 36028797018963968.
Definition pct30 : Q := 5404319552844595 # 18014398509481984.
Definition pct70 : Q := 3152519739159347 # 4503599627370496.
Definition pct90 : Q := 8106479329266893 # 9007199254740992.

(** [get_p(pct)]: [valid_doses[min(int(count * pct), count-1)]].  The
    index lies within the list, so the default of [nth] is never used. *)
Definition get_p (valid_doses : list pyfloat) (pct : Q) : result pyfloat :=
  let count := Z.of_nat (length valid_doses) in
  c <- float_of_int count ;;
  i <- int_of_float (round64 (c * pct)%Q) ;;
  Return (nth (Z.to_nat (Z.min i (count - 1))) valid_doses (Finite 0)).

Definition most_common_unit (parsed : list (pyfloat * str)) : option str :=
  match unit_counts parsed with
  | [] => None
  | (k0, v0) :: rest => Some (max_key k0 v0 rest)
  end.

Definition valid_doses_of (unit : str) (parsed : list (pyfloat * str)) : list pyfloat :=
  py_sort fltb (map fst (filter (fun p => str_eqb (snd p) unit) parsed)).

Definition stats_of (unit : str) (valid_doses : list pyfloat) : stats :=
  {| total_reports := length valid_doses;
     distribution := format_distribution unit (py_sort item_ltb (value_counts valid_doses)) |}.

Definition empty_ranges (st : stats) : ranges :=
  {| Threshold := []; Light := []; Common := []; Strong := []; Heavy := [];
     Dangerous := []; Fatal := py "Unknown"; _stats := st |}.

Definition set_Threshold (v : str) (r : ranges) : ranges :=
  {| Threshold := v; Light := Light r; Common := Common r; Strong := Strong r;
     Heavy := Heavy r; Dangerous := Dangerous r; Fatal := Fatal r; _stats := _stats r |}.
Definition set_Light (v : str) (r : ranges) : ranges :=
  {| Threshold := Threshold r; Light := v; Common := Common r; Strong := Strong r;
     Heavy := Heavy r; Dangerous := Dangerous r; Fatal := Fatal r; _stats := _stats r |}.
Definition set_Common (v : str) (r : ranges) : ranges :=
  {| Threshold := Threshold r; Light := Light r; Common := v; Strong := Strong r;
     Heavy := Heavy r; Dangerous := Dangerous r; Fatal := Fatal r; _stats := _stats r |}.
Definition set_Strong (v : str) (r : ranges) : ranges :=
  {| Threshold := Threshold r; Light := Light r; Common := Common r; Strong := v;
     Heavy := Heavy r; Dangerous := Dangerous r; Fatal := Fatal r; _stats := _stats r |}.
Definition set_Heavy (v : str) (r : ranges) : ranges :=
  {| Threshold := Threshold r; Light := Light r; Common := Common r; Strong := Strong r;
     Heavy := v; Dangerous := Dangerous r; Fatal := Fatal r; _stats := _stats r |}.

(** The bands of a sorted sample of one unit: the body of
    [analyze_doses] from [count = len(valid_doses)] on. *)
Definition bands (unit : str) (valid_doses : list pyfloat) : result (option ranges) :=
  let count := length valid_doses in
  let ranges0 := empty_ranges (stats_of unit valid_doses) in
  match valid_doses with
  | [] => Return None
  | [v] => Return (Some (set_Common (float_repr v ++ [32%N] ++ unit) ranges0))
  | min_v :: _ =>
      if (count <? 5)%nat then
        let max_v := last valid_doses (Finite 0) in
        Return (Some (set_Common (fmt unit min_v max_v) ranges0))
      else
        p10 <- get_p valid_doses pct10 ;;
        p30 <- get_p valid_doses pct30 ;;
        p70 <- get_p valid_doses pct70 ;;
        p90 <- get_p valid_doses pct90 ;;
        let r := ranges0 in
        let r := if fleb min_v p10 then set_Threshold (fmt unit min_v p10) r else r in
        let r := if fltb p10 p30 then set_Light (fmt unit p10 p30) r else r in
        let r := if fleb p30 p70 then set_Common (fmt unit p30 p70) r else r in
        let r := if fltb p70 p90 then set_Strong (fmt unit p70 p90) r else r in
        let r := set_Heavy (float_repr p90 ++ py "+ " ++ unit) r in
        Return (Some r)
  end.

Definition analyze_doses (doses : list str) : result (option ranges) :=
  let parsed := parse_doses doses in
  match parsed with
  | [] => Return None
  | _ :: _ =>
      match most_common_unit parsed with
      | None => Return None    (* max() of an empty dict: not reached, parsed is not empty *)
      | Some unit => bands unit (valid_doses_of unit parsed)
      end
  end.

(* ================================================================== *)
(** ** The phases of [main] *)

(** What fetching a report URL yields in [process_report]: a block page
    (status 403 or the block marker), the text of the report, or an
    exception on the way. *)
Inductive response :=
| Blocked
| Page (text : str)
| Failure.

(** What writing the result file yields in [save_temp_report], which
    [process_report] calls inside its [try]: the file is written; [open]
    raises and the store is left as it was; or the write raises after
    [open] has truncated the file, which leaves a file that cannot be
    read back. *)
Inductive write :=
| Written
| Refused
| Torn.

Record run_state := { progress_of : ledger; files_of : store }.

(** All of a monadic fold, for loops whose body may raise. *)
Fixpoint foldM {A B} (f : B -> A -> result B) (l : list A) (b : B) : result B :=
  match l with
  | [] => Return b
  | x :: t => b' <- f b x ;; foldM f t b'
  end.

(** [all_doses = defaultdict(lambda: defaultdict(list))] *)
Definition corpus := dict str (dict str (list str)).

(** [all_doses[item['substance']][item['method']].append(item['dose'])] *)
Definition append_dose (a : corpus) (item : dose_record) : corpus :=
  let methods := dict_get_default str_eqb [] (substance item) a in
  let l := dict_get_default str_eqb [] (method item) methods in
  dict_set str_eqb (substance item)
           (dict_set str_eqb (method item) (l ++ [dose item]) methods) a.

(** Step 6: replay every file of the report store; a file that cannot
    be read is passed over. *)
Definition merge_file (a : corpus) (f : temp_file) : corpus :=
  match f with
  | Report _ doses_list => fold_left append_dose doses_list a
  | Corrupt => a
  end.

Definition merge (temp_files : list temp_file) : corpus :=
  fold_left merge_file temp_files [].

Record substance_entry := { formatted_dose : dict str ranges }.

(** Step 7: one band record per (substance, method) group. *)
Definition analyze_method (formatted_dose : dict str ranges) (md : str * list str)
  : result (dict str ranges) :=
  let (method, doses) := md in
  rng <- analyze_doses doses ;;
  Return (match rng with
          | Some r => dict_set str_eqb method r formatted_dose
          | None => formatted_dose
          end).

Definition analyze_methods (methods : dict str (list str)) : result (dict str ranges) :=
  foldM analyze_method methods [].

Definition analyze_substance (formatted_data : dict str substance_entry)
           (sm : str * dict str (list str)) : result (dict str substance_entry) :=
  let (sub, methods) := sm in
  fd <- analyze_methods methods ;;
  Return (match fd with
          | [] => formatted_data
          | _ :: _ => dict_set str_eqb sub {| formatted_dose := fd |} formatted_data
          end).

Definition analyze_all (all_doses : corpus) : result (dict str substance_entry) :=
  foldM analyze_substance all_doses [].

Section Run.
Variable md5_hex : str -> str.
Variable web : str -> response.
Variable disk : str -> write.

(** [process_report], on the ledger and the report store, for a call
    whose ledger update no other worker overlaps.  A report is marked
    done only after its result file has been written; when the write
    raises, the [except] clause marks it failed. *)
Definition process_report (s : run_state) (report_url : str) : run_state :=
  match web report_url with
  | Blocked =>
      {| progress_of := update_progress report_url FAILED_BLOCKED (progress_of s);
         files_of := files_of s |}
  | Page text =>
      let results := extract_doses_from_text text in
      match disk report_url with
      | Written =>
          {| progress_of := update_progress report_url DONE (progress_of s);
             files_of := save_temp_report md5_hex report_url results (files_of s) |}
      | Refused =>
          {| progress_of := update_progress report_url FAILED (progress_of s);
             files_of := files_of s |}
      | Torn =>
          {| progress_of := update_progress report_url FAILED (progress_of s);
             files_of := dict_set str_eqb (get_report_id md5_hex report_url) Corrupt
                                  (files_of s) |}
      end
  | Failure =>
      {| progress_of := update_progress report_url FAILED (progress_of s);
         files_of := files_of s |}
  end.

(** Step 5 with the workers one after the other: every queued URL is
    submitted to the pool, and leaving the [with] block waits for all
    of them; [schedule] is the order in which the calls run.  The four
    threads in any interleaving are [pool_run] below, of which this is
    one run. *)
Definition scrape (schedule : list str) (s : run_state) : run_state :=
  fold_left process_report schedule s.

(** Step 6 after step 5: the corpus that the run rebuilds from the
    report store. *)
Definition run_corpus (schedule : list str) (s : run_state) : corpus :=
  merge (map snd (files_of (scrape schedule s))).
End Run.

(** *** Output sorter (step 8) *)

Section Sorter.
(** The entry of a substance; the sorter never looks inside. *)
Variable D : Type.

(** [load_drugs_json] builds the lookup from the order. *)
Definition drugs_lookup_of (order : list str) : dict str str :=
  fold_left (fun lookup pname => dict_set str_eqb (normalize pname) pname lookup) order [].

Definition normalized_data_of (formatted_data : dict str D) : dict str D :=
  fold_left (fun nd sd => dict_set str_eqb (normalize (fst sd)) (snd sd) nd)
            formatted_data [].

Definition add_canonical (normalized_data : dict str D)
           (final_output : dict str D) (pretty_name : str) : dict str D :=
  let norm := normalize pretty_name in
  match dict_get str_eqb norm normalized_data with
  | Some data => dict_set str_eqb pretty_name data final_output
  | None => final_output
  end.

Definition add_unknown (drugs_order : list str) (drugs_lookup : dict str str)
           (final_output : dict str D) (sd : str * D) : dict str D :=
  let (sub, data) := sd in
  let norm_sub := normalize sub in
  let found_in_order := existsb (str_eqb norm_sub) (map normalize drugs_order) in
  if found_in_order then final_output
  else
    match dict_get str_eqb norm_sub drugs_lookup with
    | Some pname =>
        if dict_mem str_eqb pname final_output then final_output
        else dict_set str_eqb pname data final_output
    | None => dict_set str_eqb sub data final_output
    end.

Definition final_output_of (drugs_order : list str) (drugs_lookup : dict str str)
           (formatted_data : dict str D) : dict str D :=
  let normalized_data := normalized_data_of formatted_data in
  let final_output := fold_left (add_canonical normalized_data) drugs_order [] in
  fold_left (add_unknown drugs_order drugs_lookup) formatted_data final_output.
End Sorter.

(** *** Orders of keys, as the specification words them *)

(** The elements of a list in the order of their first occurrence. *)
Definition add_key (seen : list str) (k : str) : list str :=
  if existsb (str_eqb k) seen then seen else seen ++ [k].

Definition first_occurrences (l : list str) : list str := fold_left add_key l [].

(** A canonical name matches when its normal form is that of some raw label. *)
Definition matches_label (labels : list str) (pretty_name : str) : bool :=
  existsb (str_eqb (normalize pretty_name)) (map normalize labels).

(** A raw label is known when its normal form is that of some canonical name. *)
Definition known_label (drugs_order : list str) (sub : str) : bool :=
  existsb (str_eqb (normalize sub)) (map normalize drugs_order).

(** The unit that [analyze_doses] selects and the sorted sample of that
    unit, as functions of the input: the variables [most_common_unit]
    and [valid_doses] of the source. *)
Definition majority_unit (doses : list str) : option str :=
  most_common_unit (parse_doses doses).

Definition majority_sample (doses : list str) : list pyfloat :=
  match majority_unit doses with
  | Some unit => valid_doses_of unit (parse_doses doses)
  | None => []
  end.

(** The dose strings of the end-to-end scenario. *)
Definition scenario_doses : list str :=
  map py ["80 mg"; "100 mg"; "120 mg"; "150 mg"; "200 mg"; "300 mg"]%string.

(** [a <= b] on floats, as a proposition. *)
Definition fle (a b : pyfloat) : Prop := fleb a b = true.

(** Half an ulp, relative: 2^-53. *)
Definition u53 : Q := 1 # 9007199254740992.

(** Number of parsed samples that carry a given unit. *)
Definition count_unit (unit : str) (parsed : list (pyfloat * str)) : nat :=
  length (filter (fun p => str_eqb (snd p) unit) parsed).

(** Does a dose string parse with the given unit? *)
Definition has_unit (unit : str) (d : str) : bool :=
  match parse_dose d with
  | Some p => str_eqb (snd p) unit
  | None => false
  end.

(** The dose strings of the mixed-unit scenario: four in mg, two in g. *)
Definition mixed_doses : list str :=
  map py ["10 mg"; "1 g"; "20 mg"; "30 mg"; "2 g"; "40 mg"]%string.

(** The corpus holds the dose of a record under its substance and method. *)
Definition corpus_has (a : corpus) (item : dose_record) : Prop :=
  In (dose item)
     (dict_get_default str_eqb []
        (method item) (dict_get_default str_eqb [] (substance item) a)).

(** A file system that holds one file. *)
Definition single_file (path : str) (bytes : list N) : filesystem :=
  fun p => if str_eqb p path then Some bytes else None.

(** Two URLs of the report with identifier 1, and a record stored for it. *)
Definition url_a : str := py "https://www.erowid.org/experiences/exp.php?ID=1".
Definition url_b : str := py "http://www.erowid.org/experiences/exp.php?ID=1".
Definition stored_item : dose_record :=
  {| substance := py "LSD"; dose := py "100 ug"; method := py "oral" |}.
Definition resumed_state : run_state :=
  {| progress_of := [(url_a, DONE)];
     files_of := [(py "1", Report url_a [stored_item])] |}.

(** *** What a match is

    [Matches r w s g g']: the pattern [r] matches the text [w] when [s]
    follows it, and takes the captured groups from [g] to [g']. *)
Inductive Matches : regex -> str -> str -> groups -> groups -> Prop :=
| M_Eps s g : Matches Eps [] s g g
| M_Chr p c s g : p c = true -> Matches (Chr p) [c] s g g
| M_Cat r1 r2 w1 w2 s g g' g'' :
    Matches r1 w1 (w2 ++ s) g g' -> Matches r2 w2 s g' g'' ->
    Matches (Cat r1 r2) (w1 ++ w2) s g g''
| M_AltL r1 r2 w s g g' : Matches r1 w s g g' -> Matches (Alt r1 r2) w s g g'
| M_AltR r1 r2 w s g g' : Matches r2 w s g g' -> Matches (Alt r1 r2) w s g g'
| M_OptSome r w s g g' : Matches r w s g g' -> Matches (Opt r) w s g g'
| M_OptNone r s g : Matches (Opt r) [] s g g
| M_Star lazy p w s g : forallb p w = true -> Matches (Star lazy p) w s g g
| M_Group i r w s g g' :
    Matches r w s g g' -> Matches (Group i r) w s g (set_group i w g')
| M_EndS s g : s = [] \/ s = [10%N] -> Matches EndS [] s g g.

(** A token spells a word of a pattern, letter by letter, under
    [re.IGNORECASE]. *)
Definition ci_word (w tok : str) : Prop :=
  Forall2 (fun p c => ci_lit p c = true) w tok.

(** The unit words of the dose pattern, with both forms of the
    optional plural. *)
Definition UNIT_WORDS : list str :=
  [ py "mg"; py "g"; py "ug"; 181%N :: py "g"; py "ml";
    py "drop"; py "drops"; py "capsule"; py "capsules" ].

(** digits[.digits] *)
Definition numeral (w : str) : Prop :=
  exists i f,
    i <> [] /\ forallb isdecimal i = true /\ forallb isdecimal f = true /\
    (w = i \/ (f <> [] /\ w = i ++ [46%N] ++ f)).

(** No two white-space characters in a row. *)
Fixpoint collapsed (s : str) : bool :=
  match s with
  | c :: t =>
      match t with
      | d :: _ => negb (isspace c && isspace d) && collapsed t
      | [] => true
      end
  | [] => true
  end.

(** The letters beyond ASCII that lower-case to themselves, or to more
    than one character, and still match an ASCII letter of a pattern:
    U+0130, U+0131 and U+017F. *)
Definition odd_letter (c : N) : bool := ((c =? 304) || (c =? 305) || (c =? 383))%N.

(** A dose line that spells "sc" with the long s, U+017F. *)
Definition long_s_text : str := py "5 mg " ++ [383%N] ++ py "c DMT".

(** A dose line that writes micrograms with the Greek letter mu, U+03BC. *)
Definition greek_mu_text : str := py "5 " ++ [956%N] ++ py "g oral LSD".
Definition greek_mu_dose : str := py "5 " ++ [956%N] ++ py "g".

(** The letters of the unit words: a-z and the micro sign. *)
Definition letterish (p : N) : bool := in_range 97 122 p || (p =? 181)%N.

(* ================================================================== *)
(** ** Category pages and the canonical list *)

(** [s.startswith(prefix)] and [needle in hay]. *)
Definition startswith (prefix s : str) : bool :=
  str_eqb (firstn (length prefix) s) prefix.

Fixpoint contains (needle hay : str) : bool :=
  startswith needle hay
  || match hay with
     | [] => false
     | _ :: t => contains needle t
     end.

(** Literal characters, outside [re.IGNORECASE]. *)
Definition lits (w : str) : regex :=
  fold_right (fun c r => Cat (Chr (lit c)) r) Eps w.

(** [exp\.php\?ID=\d+] *)
Definition href_pattern : regex :=
  Cat (lits (py "exp.php?ID=")) (Plus false isdecimal).

Definition searches (r : regex) (s : str) : bool :=
  match re_search r s with Some _ => true | None => false end.

(** What [session.get] yields in [get_report_urls]: an exception, or a
    response with its status code and text. *)
Inductive http_response :=
| Raised
| Response (status_code : Z) (text : str).

(** What [get_report_urls] returns: the string 'BLOCKED' or a list. *)
Inductive page_result :=
| BLOCKED
| Urls (urls : list str).

Definition EROWID : str := py "https://www.erowid.org".
Definition EXPERIENCES : str := py "https://www.erowid.org/experiences/".

Definition absolute_url (href : str) : str :=
  if startswith (py "http") href then href
  else if startswith (py "/") href then EROWID ++ href
  else EXPERIENCES ++ href.

Definition MAX_REPORTS_PER_CATEGORY : nat := 500.

Section CategoryPage.
(** The HTML parser, which is library code: the [href] values of the
    [a] elements of a page that have one, in document order. *)
Variable anchor_hrefs : str -> list str.

Definition get_report_urls (r : http_response) : page_result :=
  match r with
  | Raised => Urls []
  | Response status_code text =>
      if (status_code =? 403) || contains (py "Blocked") (firstn 500 text)
      then BLOCKED
      else Urls (fold_left (fun urls href => add_key urls (absolute_url href))
                           (filter (searches href_pattern) (anchor_hrefs text)) [])
  end.
End CategoryPage.

(** Step 4 of [main]: the report URLs of the category pages, in the
    order in which the fetches complete, up to the first block; each
    page gives its first [MAX_REPORTS_PER_CATEGORY] URLs.  The set
    [all_report_urls] is kept as the list of its elements. *)
Fixpoint collect_report_urls (results : list page_result) (all_report_urls : list str)
  : list str * bool :=
  match results with
  | [] => (all_report_urls, false)
  | BLOCKED :: _ => (all_report_urls, true)
  | Urls res :: t =>
      collect_report_urls t
        (fold_left add_key (firstn MAX_REPORTS_PER_CATEGORY res) all_report_urls)
  end.

(** An entry of drugs.json, for what [load_drugs_json] reads of it: the
    pretty name, when the entry has one. *)
Record drug_entry := { pretty_name : option str }.

(** [load_drugs_json], on the decoded content of the file ([None] when
    the file does not exist). *)
Definition load_drugs_json (file : option (dict str drug_entry))
  : list str * dict str str :=
  match file with
  | None => ([], [])
  | Some data =>
      fold_left (fun ol kv =>
                   match pretty_name (snd kv) with
                   | Some pname =>
                       (fst ol ++ [pname],
                        dict_set str_eqb (normalize pname) pname (snd ol))
                   | None => ol
                   end)
                data ([], [])
  end.

(** A float in the form in which [round64] yields it. *)
Definition canonical (x : pyfloat) : Prop :=
  match x with
  | Finite q => Qred q = q
  | Inf => True
  end.

(* ================================================================== *)
(** ** The workers of step 5

    [process_report] runs on four threads that share the ledger file
    and the report store.  A worker is followed through the places
    where it touches them: the fetch, the write of the result file, and
    in [update_progress] the load of the ledger and its rewrite, which
    [open(..., 'w')] begins by truncating the file. *)
Inductive task :=
| Fetching (report_url : str)
| Saving (report_url : str) (results : list dose_record)
| Loading (url status : str)
| Opening (url status : str) (data : ledger)
| Dumping (url status : str) (data : ledger)
| Finished.

(** The shared files and the workers.  The ledger file holds a mapping
    (a missing file reads as the empty one), or content that does not
    parse: a file that is being rewritten, or that a cut or an
    overlapping write has left.  This is the grain of the model: a
    ledger file reads as the mapping of one whole [json.dump], or does
    not parse; bytes of two rewrites that happen to spell a third
    mapping are not followed. *)
Record pool := {
  ledger_file : option ledger;
  report_store : store;
  tasks : list task
}.

(** One step of one worker.  Every worker may take its next step at
    any time, so the runs of four threads are among those of the model,
    and so are the runs that an exception or a kill ends early. *)
Inductive task_step (md5_hex : str -> str)
  : option ledger -> store -> task -> option ledger -> store -> task -> Prop :=
(* the response is a block page *)
| fetch_blocked l st url :
    task_step md5_hex l st (Fetching url) l st (Loading url FAILED_BLOCKED)
(* the request or the parser raises *)
| fetch_raises l st url :
    task_step md5_hex l st (Fetching url) l st (Loading url FAILED)
| fetch_page l st url text :
    task_step md5_hex l st (Fetching url) l st (Saving url (extract_doses_from_text text))
(* save_temp_report returns *)
| save_written l st url results :
    task_step md5_hex l st (Saving url results)
              l (save_temp_report md5_hex url results st) (Loading url DONE)
(* save_temp_report returns while another worker writes the same file
   (two URLs with one identifier): the file holds what the two leave *)
| save_overlapped l st url results f :
    task_step md5_hex l st (Saving url results)
              l (dict_set str_eqb (get_report_id md5_hex url) f st) (Loading url DONE)
(* open raises *)
| save_refused l st url results :
    task_step md5_hex l st (Saving url results) l st (Loading url FAILED)
(* the write raises after open has created or truncated the file: the
   file holds a part of the report, or what another worker leaves *)
| save_torn l st url results f :
    task_step md5_hex l st (Saving url results)
              l (dict_set str_eqb (get_report_id md5_hex url) f st)
              (Loading url FAILED)
(* load_progress returns the mapping, and data[url] = status *)
| load_ledger l st url status :
    task_step md5_hex (Some l) st (Loading url status)
              (Some l) st (Opening url status (dict_set str_eqb url status l))
(* JSONDecodeError: load_progress returns {} *)
| load_unparsable st url status :
    task_step md5_hex None st (Loading url status)
              None st (Opening url status (dict_set str_eqb url status []))
(* any other exception: update_progress gives up with a warning *)
| load_raises l st url status :
    task_step md5_hex l st (Loading url status) l st Finished
(* open(PROGRESS_FILE, 'w') empties the file *)
| open_truncates l st url status data :
    task_step md5_hex l st (Opening url status data) None st (Dumping url status data)
| open_raises l st url status data :
    task_step md5_hex l st (Opening url status data) l st Finished
(* json.dump and the close of the file *)
| dump_written l st url status data :
    task_step md5_hex l st (Dumping url status data) (Some data) st Finished
(* the write raises, or overlaps the write of another worker *)
| dump_cut l st url status data :
    task_step md5_hex l st (Dumping url status data) None st Finished.

(** A step of the pool is a step of one of its workers. *)
Inductive pool_step (md5_hex : str -> str) : pool -> pool -> Prop :=
| worker_step l st t l' st' t' before after :
    task_step md5_hex l st t l' st' t' ->
    pool_step md5_hex
              {| ledger_file := l; report_store := st; tasks := before ++ t :: after |}
              {| ledger_file := l'; report_store := st'; tasks := before ++ t' :: after |}.

Inductive pool_run (md5_hex : str -> str) : pool -> pool -> Prop :=
| run_stop p : pool_run md5_hex p p
| run_next p p' p'' :
    pool_step md5_hex p p' -> pool_run md5_hex p' p'' -> pool_run md5_hex p p''.

(** Every URL that a ledger marks as done has a file in the store. *)
Definition backed (md5_hex : str -> str) (st : store) (l : ledger) : Prop :=
  forall u, dict_get str_eqb u l = Some DONE ->
            dict_mem str_eqb (get_report_id md5_hex u) st = true.

Definition done_have_files (md5_hex : str -> str) (p : pool) : Prop :=
  forall l, ledger_file p = Some l -> backed md5_hex (report_store p) l.

(** What a worker holds of the ledger is backed as well, and a worker
    about to mark its report done has written the file. *)
Definition task_backed (md5_hex : str -> str) (st : store) (t : task) : Prop :=
  match t with
  | Loading url status =>
      status = DONE -> dict_mem str_eqb (get_report_id md5_hex url) st = true
  | Opening _ _ data | Dumping _ _ data => backed md5_hex st data
  | _ => True
  end.

(** The ledger file and every worker hold backed mappings only. *)
Definition pool_backed (md5_hex : str -> str) (p : pool) : Prop :=
  done_have_files md5_hex p
  /\ Forall (task_backed md5_hex (report_store p)) (tasks p).

(** The report that a worker is processing. *)
Definition url_of (t : task) : option str :=
  match t with
  | Fetching url | Saving url _ | Loading url _ | Opening url _ _ | Dumping url _ _ =>
      Some url
  | Finished => None
  end.

(** Two workers on the reports 2 and 3, the first of which is fetched
    and saved while the request of the second raises; the ledger
    updates overlap, and the rewrite of the second worker, which had
    loaded the ledger before the first worker rewrote it, comes last. *)
Definition url_2 : str := py "exp.php?ID=2".

(** One worker that fetches and saves the report 2. *)
Definition one_worker : pool :=
  {| ledger_file := Some [(url_a, DONE)];
     report_store := [(py "1", Report url_a [stored_item])];
     tasks := map Fetching [url_2] |}.
Definition one_saved : pool :=
  {| ledger_file := Some [(url_a, DONE); (url_2, DONE)];
     report_store := [(py "1", Report url_a [stored_item]); (py "2", Report url_2 [])];
     tasks := [Finished] |}.

(** The text [s] does not begin with a character of the class [p]. *)
Definition not_at_head (p : N -> bool) (s : str) : Prop :=
  match s with
  | [] => True
  | c :: _ => p c = false
  end.

(** The records that step 6 reads from a file of the report store. *)
Definition doses_of_file (f : temp_file) : list dose_record :=
  match f with
  | Report _ doses_list => doses_list
  | Corrupt => []
  end.

(** [all_doses[sub][method]], without creating the entry. *)
Definition group_doses (a : corpus) (sub method : str) : list str :=
  dict_get_default str_eqb [] method (dict_get_default str_eqb [] sub a).

(** A corpus as the appends of step 6 build it: distinct substances,
    distinct methods under each, and no substance or method left
    without a dose. *)
Definition well_formed (a : corpus) : Prop :=
  NoDup (dict_keys a)
  /\ forall sub methods,
      In (sub, methods) a ->
      NoDup (dict_keys methods) /\ methods <> []
      /\ forall method doses, In (method, doses) methods -> doses <> [].

(** Text within Latin-1 (U+0000..U+00FF), where the model of
    [str.lower] is exact. *)
Definition latin1 (s : str) : bool := forallb (fun c => (c <? 256)%N) s.

(** [sys.maxsize]: no Python list is longer. *)
Definition sys_maxsize : Z := 2 ^ 63 - 1.

(* ================================================================== *)
(** * Properties *)

Unset Implicit Arguments.

(** ** The runtime model on known values *)

(** [repr(float(s))] as CPython prints it. *)
Example float_repr_samples :
  map (fun s => float_repr (float_of_decimal (py s)))
      ["80"; "0.1"; "2.50"; "10000000000000000"; "0.00001"; "123.456";
       "9007199254740993"; "0.30000000000000004"]%string
  = map py ["80.0"; "0.1"; "2.5"; "1e+16"; "1e-05"; "123.456";
            "9007199254740992.0"; "0.30000000000000004"]%string.
Proof. vm_compute. reflexivity. Qed.

(** [int(6 * 0.3)] is 1 and [int(10 * 0.3)] is 3: the product is rounded
    before it is truncated. *)
Example index_samples :
  int_of_float (round64 (6 * pct30)%Q) = Return 1
  /\ int_of_float (round64 (10 * pct30)%Q) = Return 3.
Proof. split; vm_compute; reflexivity. Qed.

(** UTF-8: the two bytes CE BC are the Greek letter mu, and FF starts
    no character. *)
Example utf8_samples :
  utf8_decode [206; 188]%N = Some [956%N] /\ utf8_decode [255%N] = None.
Proof. split; reflexivity. Qed.

(** A dose chart line with two doses and a line of prose. *)
Example extraction_sample :
  extract_doses_from_text
    (py "T+ 0:00 1.5 g oral Mushrooms   (dried)  T+ 1:00 100MG Insufflated 2C-B, HCl")
  = [ {| substance := py "Mushrooms"; dose := py "1.5 g"; method := py "oral" |};
      {| substance := py "2C-B, HCl"; dose := py "100 MG"; method := py "insufflated" |} ].
Proof. vm_compute. reflexivity. Qed.

(** ** Text and dictionaries *)

Lemma str_eqb_eq (a b : str) : str_eqb a b = true <-> a = b.
Proof.
  unfold str_eqb. destruct (list_eq_dec N.eq_dec a b); split; congruence.
Qed.

Lemma str_eqb_refl (a : str) : str_eqb a a = true.
Proof. now apply str_eqb_eq. Qed.

Lemma str_eqb_neq (a b : str) : str_eqb a b = false <-> a <> b.
Proof.
  unfold str_eqb. destruct (list_eq_dec N.eq_dec a b); split; congruence.
Qed.

Lemma existsb_str_eqb_In (k : str) (l : list str) :
  existsb (str_eqb k) l = true <-> In k l.
Proof.
  rewrite existsb_exists. split.
  - intros (x & Hin & E). apply str_eqb_eq in E. now subst.
  - intros H. exists k. split; [assumption | apply str_eqb_refl].
Qed.

Section DictFacts.
Variable V : Type.
Implicit Types (d : dict str V) (k : str) (v : V).

Lemma dict_get_In k d v : dict_get str_eqb k d = Some v -> In (k, v) d.
Proof.
  induction d as [|[k' v'] t IH]; simpl; [discriminate|].
  destruct (str_eqb k k') eqn:E.
  - apply str_eqb_eq in E. intros [= ->]. subst. now left.
  - intros H. right. now apply IH.
Qed.

Lemma dict_get_None_iff k d :
  dict_get str_eqb k d = None <-> ~ In k (dict_keys d).
Proof.
  induction d as [|[k' v'] t IH]; simpl; [tauto|].
  destruct (str_eqb k k') eqn:E.
  - apply str_eqb_eq in E. subst. split; [discriminate | tauto].
  - apply str_eqb_neq in E. rewrite IH. split; intros H; [intros [?|?]|]; intuition congruence.
Qed.

Lemma dict_mem_iff k d : dict_mem str_eqb k d = true <-> In k (dict_keys d).
Proof.
  unfold dict_mem. destruct (dict_get str_eqb k d) eqn:E.
  - split; [intros _|reflexivity].
    apply dict_get_In in E. apply (in_map fst) in E. exact E.
  - apply dict_get_None_iff in E. split; [discriminate | tauto].
Qed.

Lemma dict_keys_set k v d :
  dict_keys (dict_set str_eqb k v d) = add_key (dict_keys d) k.
Proof.
  unfold add_key. induction d as [|[k' v'] t IH]; simpl; [reflexivity|].
  destruct (str_eqb k k') eqn:E; simpl; [reflexivity|].
  rewrite IH. now destruct (existsb (str_eqb k) (dict_keys t)).
Qed.

Lemma dict_get_set_same k v d : dict_get str_eqb k (dict_set str_eqb k v d) = Some v.
Proof.
  induction d as [|[k' v'] t IH]; simpl.
  - now rewrite str_eqb_refl.
  - destruct (str_eqb k k') eqn:E; simpl; rewrite E; [reflexivity | exact IH].
Qed.

Lemma dict_get_set_other k k' v d :
  k <> k' -> dict_get str_eqb k (dict_set str_eqb k' v d) = dict_get str_eqb k d.
Proof.
  intros N. apply str_eqb_neq in N.
  induction d as [|[k0 v0] t IH]; simpl.
  - now rewrite N.
  - destruct (str_eqb k' k0) eqn:E; simpl.
    + apply str_eqb_eq in E. subst. now rewrite N.
    + destruct (str_eqb k k0); [reflexivity | exact IH].
Qed.
End DictFacts.

(** ** Order of floats and sorting *)

Lemma fle_refl a : fle a a.
Proof.
  destruct a; unfold fle; simpl; [|reflexivity].
  apply Qle_bool_iff. apply Qle_refl.
Qed.

Lemma fle_trans a b c : fle a b -> fle b c -> fle a c.
Proof.
  unfold fle. destruct a, b, c; simpl; try congruence.
  rewrite !Qle_bool_iff. apply Qle_trans.
Qed.

Lemma fltb_false_fle a b : fltb a b = false -> fle b a.
Proof.
  unfold fle. destruct a, b; simpl; try congruence.
  now rewrite negb_false_iff.
Qed.

Lemma fltb_true_fle a b : fltb a b = true -> fle a b.
Proof.
  unfold fle. destruct a, b; simpl; try congruence.
  rewrite negb_true_iff. intros H. apply Qle_bool_iff.
  apply Qlt_le_weak. apply Qnot_le_lt. intros C.
  apply Qle_bool_iff in C. congruence.
Qed.

Lemma feqb_fle a b : feqb a b = true -> fle a b.
Proof.
  unfold fle. destruct a, b; simpl; try congruence.
  intros H. apply Qeq_bool_iff in H. apply Qle_bool_iff. rewrite H. apply Qle_refl.
Qed.

Section SortFacts.
Variable X : Type.
Variable lt : X -> X -> bool.
Variable le : X -> X -> Prop.
Hypothesis lt_false_le : forall x y, lt x y = false -> le y x.
Hypothesis lt_true_le : forall x y, lt x y = true -> le x y.
Hypothesis le_trans : forall x y z, le x y -> le y z -> le x z.

Lemma insert_sorted_perm x l : Permutation (x :: l) (insert_sorted lt x l).
Proof.
  induction l as [|y t IH]; simpl; [reflexivity|].
  destruct (lt x y); [reflexivity|].
  rewrite perm_swap. now apply perm_skip.
Qed.

Lemma insert_sorted_sorted x l :
  StronglySorted le l -> StronglySorted le (insert_sorted lt x l).
Proof.
  induction 1 as [|y t Hs IH Hall]; simpl.
  - constructor; constructor.
  - destruct (lt x y) eqn:E.
    + constructor; [now constructor|].
      constructor; [now apply lt_true_le|].
      eapply Forall_impl; [|exact Hall].
      intros z Hz. eapply le_trans; [apply lt_true_le; exact E | exact Hz].
    + constructor; [exact IH|].
      eapply Permutation_Forall; [apply insert_sorted_perm|].
      constructor; [now apply lt_false_le | exact Hall].
Qed.

Lemma fold_insert_perm l acc :
  Permutation (fold_left (fun a x => insert_sorted lt x a) l acc) (acc ++ l).
Proof.
  revert acc. induction l as [|x t IH]; intros acc; simpl.
  - now rewrite app_nil_r.
  - rewrite IH. rewrite <- insert_sorted_perm.
    change (x :: acc) with ([x] ++ acc).
    rewrite (Permutation_app_comm [x] acc), <- app_assoc. reflexivity.
Qed.

Lemma fold_insert_sorted l acc :
  StronglySorted le acc ->
  StronglySorted le (fold_left (fun a x => insert_sorted lt x a) l acc).
Proof.
  revert acc. induction l as [|x t IH]; intros acc H; simpl; [exact H|].
  apply IH. now apply insert_sorted_sorted.
Qed.

Lemma py_sort_perm l : Permutation (py_sort lt l) l.
Proof. unfold py_sort. now rewrite fold_insert_perm. Qed.

Lemma py_sort_sorted l : StronglySorted le (py_sort lt l).
Proof. apply fold_insert_sorted. constructor. Qed.

Lemma py_sort_length l : length (py_sort lt l) = length l.
Proof. apply Permutation_length, py_sort_perm. Qed.
End SortFacts.

Lemma sorted_nth_le (X : Type) (le : X -> X -> Prop) (d : X) (l : list X) :
  (forall x, le x x) -> StronglySorted le l ->
  forall i j, (i <= j)%nat -> (j < length l)%nat -> le (nth i l d) (nth j l d).
Proof.
  intros Hrefl. induction 1 as [|y t Hs IH Hall]; intros i j Hij Hj; simpl in Hj; [lia|].
  destruct i as [|i], j as [|j]; simpl; try lia.
  - apply Hrefl.
  - rewrite Forall_forall in Hall. apply Hall. apply nth_In. lia.
  - apply IH; lia.
Qed.

Lemma valid_doses_sorted unit parsed : StronglySorted fle (valid_doses_of unit parsed).
Proof.
  unfold valid_doses_of.
  apply py_sort_sorted; [exact fltb_false_fle | exact fltb_true_fle | exact fle_trans].
Qed.

Lemma valid_doses_length unit parsed :
  length (valid_doses_of unit parsed)
  = length (filter (fun p => str_eqb (snd p) unit) parsed).
Proof. unfold valid_doses_of. now rewrite py_sort_length, length_map. Qed.

Lemma last_nth (X : Type) (d : X) (l : list X) : last l d = nth (length l - 1) l d.
Proof.
  induction l as [|x [|y t] IH]; try reflexivity.
  change (last (x :: y :: t) d) with (last (y :: t) d). rewrite IH.
  simpl. now rewrite Nat.sub_0_r.
Qed.

(** ** The aggregator, case by case *)

Lemma incr_not_nil (k : str) (d : dict str nat) : incr str_eqb k d <> [].
Proof.
  unfold incr. destruct d as [|[k' v'] t]; simpl; [discriminate|].
  destruct (str_eqb k k'); discriminate.
Qed.

Lemma unit_counts_not_nil p parsed : unit_counts (p :: parsed) <> [].
Proof.
  unfold unit_counts. simpl.
  assert (G : forall (l : list (pyfloat * str)) d, d <> [] ->
            fold_left (fun d p => incr str_eqb (snd p) d) l d <> []).
  { induction l as [|x t IH]; intros d Hd; simpl; [exact Hd|].
    apply IH, incr_not_nil. }
  apply G, incr_not_nil.
Qed.

Lemma majority_unit_None doses : majority_unit doses = None <-> parse_doses doses = [].
Proof.
  unfold majority_unit, most_common_unit. split.
  - destruct (parse_doses doses) as [|p t] eqn:E; [reflexivity|].
    destruct (unit_counts (p :: t)) as [|[k0 v0] rest] eqn:U; [|discriminate].
    now apply unit_counts_not_nil in U.
  - intros ->. reflexivity.
Qed.

Lemma analyze_doses_bands doses :
  analyze_doses doses =
  match majority_unit doses with
  | Some unit => bands unit (majority_sample doses)
  | None => Return None
  end.
Proof.
  unfold analyze_doses, majority_sample.
  destruct (majority_unit doses) as [u|] eqn:E.
  - unfold majority_unit in E. rewrite E.
    destruct (parse_doses doses); [discriminate | reflexivity].
  - apply majority_unit_None in E. now rewrite E.
Qed.

Lemma bands_one unit v :
  bands unit [v]
  = Return (Some (set_Common (float_repr v ++ [32%N] ++ unit)
                             (empty_ranges (stats_of unit [v])))).
Proof. reflexivity. Qed.

Lemma bands_small unit vd :
  (2 <= length vd < 5)%nat ->
  exists min_v,
    hd_error vd = Some min_v /\
    bands unit vd
    = Return (Some (set_Common (fmt unit min_v (last vd (Finite 0)))
                               (empty_ranges (stats_of unit vd)))).
Proof.
  intros H. destruct vd as [|a [|b t]]; simpl in H; try lia.
  exists a. split; [reflexivity|].
  assert (E : (length (a :: b :: t) <? 5)%nat = true) by (apply Nat.ltb_lt; simpl; lia).
  unfold bands. rewrite E. reflexivity.
Qed.

Ltac case_ifs :=
  repeat match goal with
         | |- context [if ?c then _ else _] => destruct c
         end.

Lemma bands_fixed_fields unit vd r :
  bands unit vd = Return (Some r) -> Fatal r = py "Unknown" /\ Dangerous r = [].
Proof.
  unfold bands. destruct vd as [|a [|b t]]; try discriminate.
  - intros [= <-]. split; reflexivity.
  - destruct (length (a :: b :: t) <? 5)%nat.
    + intros [= <-]. split; reflexivity.
    + destruct (get_p (a :: b :: t) pct10) as [p10|]; cbn [bind]; [|discriminate].
      destruct (get_p (a :: b :: t) pct30) as [p30|]; cbn [bind]; [|discriminate].
      destruct (get_p (a :: b :: t) pct70) as [p70|]; cbn [bind]; [|discriminate].
      destruct (get_p (a :: b :: t) pct90) as [p90|]; cbn [bind]; [|discriminate].
      case_ifs; intros [= <-]; split; reflexivity.
Qed.

(** C7. Every band record that [analyze_doses] returns, for whatever
    input and sample count, has [Fatal] equal to the literal "Unknown"
    and [Dangerous] equal to the empty string. *)
Theorem fatal_unknown_dangerous_empty (doses : list str) (r : ranges) :
  analyze_doses doses = Return (Some r) ->
  Fatal r = py "Unknown" /\ Dangerous r = [].
Proof.
  rewrite analyze_doses_bands.
  destruct (majority_unit doses) as [u|]; [|discriminate].
  apply bands_fixed_fields.
Qed.

Lemma fatal_unknown_dangerous_empty_witness :
  exists r, analyze_doses [py "120 mg"; py "80 mg"] = Return (Some r)
            /\ Fatal r = py "Unknown" /\ Dangerous r = [].
Proof.
  eexists. split; [vm_compute; reflexivity|].
  apply (fatal_unknown_dangerous_empty [py "120 mg"; py "80 mg"]).
  vm_compute. reflexivity.
Defined.

Lemma sample_bounds unit parsed min_v :
  let vd := valid_doses_of unit parsed in
  hd_error vd = Some min_v ->
  Forall (fun x => fle min_v x /\ fle x (last vd (Finite 0))) vd.
Proof.
  intros vd Hhd. pose proof (valid_doses_sorted unit parsed) as Hs.
  fold vd in Hs. apply Forall_forall. intros x Hx.
  destruct (In_nth _ _ (Finite 0) Hx) as (i & Hi & <-).
  assert (E : min_v = nth 0 vd (Finite 0)).
  { destruct vd; simpl in *; congruence. }
  rewrite E, last_nth. split; apply sorted_nth_le; auto using fle_refl; lia.
Qed.

Lemma analyze_doses_unparsable doses :
  parse_doses doses = [] -> analyze_doses doses = Return None.
Proof. unfold analyze_doses. now intros ->. Qed.

Lemma no_entry_fold (method : str) (methods : dict str (list str)) :
  (forall doses, In (method, doses) methods -> analyze_doses doses = Return None) ->
  forall acc fd,
    dict_get str_eqb method acc = None ->
    foldM analyze_method methods acc = Return fd ->
    dict_get str_eqb method fd = None.
Proof.
  induction methods as [|[m ds] t IH]; intros H acc fd Hacc; simpl.
  - now intros [= <-].
  - destruct (analyze_doses ds) as [[r|]|e] eqn:E; cbn [bind]; try discriminate.
    + destruct (list_eq_dec N.eq_dec method m) as [->|Hne].
      * rewrite H in E; [discriminate | now left].
      * apply IH; [intros ds' Hin; apply H; now right|].
        rewrite dict_get_set_other; auto.
    + apply IH; [intros ds' Hin; apply H; now right | exact Hacc].
Qed.

(** C3. When the sample of the majority unit has 2, 3 or 4 values, only
    [Common] is filled, with "{min}-{max} {unit}", or with the single
    value when min == max, and [Threshold], [Light], [Strong] and
    [Heavy] stay empty; with one value, [Common] is that value; with
    none (no string could be parsed) [analyze_doses] returns [None], and
    the group gets no entry in the result of step 7. *)
Theorem small_sample_fallback (doses : list str) :
  (forall unit,
      majority_unit doses = Some unit ->
      (2 <= length (majority_sample doses) <= 4)%nat ->
      exists min_v max_v r,
        hd_error (majority_sample doses) = Some min_v /\
        max_v = last (majority_sample doses) (Finite 0) /\
        Forall (fun x => fle min_v x /\ fle x max_v) (majority_sample doses) /\
        analyze_doses doses = Return (Some r) /\
        (feqb min_v max_v = false ->
         Common r = float_repr min_v ++ py "-" ++ float_repr max_v ++ py " " ++ unit) /\
        (feqb min_v max_v = true -> Common r = float_repr min_v ++ py " " ++ unit) /\
        Threshold r = [] /\ Light r = [] /\ Strong r = [] /\ Heavy r = [])
  /\
  (forall unit,
      majority_unit doses = Some unit ->
      length (majority_sample doses) = 1%nat ->
      exists v r,
        majority_sample doses = [v] /\
        analyze_doses doses = Return (Some r) /\
        Common r = float_repr v ++ py " " ++ unit /\
        Threshold r = [] /\ Light r = [] /\ Strong r = [] /\ Heavy r = [])
  /\
  (parse_doses doses = [] -> majority_sample doses = [])
  /\
  (length (majority_sample doses) = 0%nat ->
   analyze_doses doses = Return None /\
   forall method methods fd,
     (forall ds, In (method, ds) methods -> ds = doses) ->
     analyze_methods methods = Return fd ->
     dict_get str_eqb method fd = None).
Proof.
  assert (Hnone : length (majority_sample doses) = 0%nat ->
                  analyze_doses doses = Return None).
  { intros H0. rewrite analyze_doses_bands.
    destruct (majority_unit doses); [|reflexivity].
    destruct (majority_sample doses); [reflexivity | discriminate]. }
  split; [|split; [|split]].
  - intros unit Hu Hlen.
    destruct (bands_small unit (majority_sample doses)) as (min_v & Hhd & Hb); [lia|].
    exists min_v, (last (majority_sample doses) (Finite 0)).
    eexists. split; [exact Hhd|]. split; [reflexivity|].
    split.
    { revert Hhd. unfold majority_sample. rewrite Hu. apply sample_bounds. }
    rewrite analyze_doses_bands, Hu. split; [exact Hb|].
    unfold fmt. cbn. repeat split; intros ->; reflexivity.
  - intros unit Hu Hlen.
    destruct (majority_sample doses) as [|v [|w t]] eqn:E; simpl in Hlen; try lia.
    exists v. eexists. split; [reflexivity|].
    rewrite analyze_doses_bands, Hu, E, bands_one.
    split; [reflexivity|]. cbn. repeat split.
  - intros H. apply majority_unit_None in H. unfold majority_sample. now rewrite H.
  - intros H0. split; [now apply Hnone|].
    intros method methods fd Hall Hfd.
    apply (no_entry_fold method methods) with (acc := []); [|reflexivity|exact Hfd].
    intros ds Hin. rewrite (Hall ds Hin). now apply Hnone.
Qed.

Lemma small_sample_fallback_witness :
  (majority_unit [py "80 mg"; py "120 mg"; py "1 g"; py "100 mg"] = Some (py "mg")
   /\ (2 <= 3 <= 4)%nat
   /\ exists r,
       analyze_doses [py "80 mg"; py "120 mg"; py "1 g"; py "100 mg"] = Return (Some r)
       /\ Common r = py "80.0-120.0 mg" /\ Threshold r = [] /\ Heavy r = [])
  /\ (exists r, analyze_doses [py "5 mg"] = Return (Some r) /\ Common r = py "5.0 mg")
  /\ analyze_doses [py "n/a"] = Return None.
Proof.
  split; [|split].
  - split; [vm_compute; reflexivity|]. split; [lia|].
    destruct (proj1 (small_sample_fallback
                       [py "80 mg"; py "120 mg"; py "1 g"; py "100 mg"]) (py "mg"))
      as (min_v & max_v & r & Hmin & Hmax & _ & Hr & Hne & _ & HT & _ & _ & HH).
    + vm_compute. reflexivity.
    + vm_compute. split; lia.
    + exists r. split; [exact Hr|]. split; [|split; assumption].
      vm_compute in Hmin. injection Hmin as <-.
      vm_compute in Hmax. subst max_v.
      rewrite Hne; vm_compute; reflexivity.
  - destruct (proj1 (proj2 (small_sample_fallback [py "5 mg"])) (py "mg"))
      as (v & r & Hv & Hr & HC & _).
    + vm_compute. reflexivity.
    + vm_compute. reflexivity.
    + exists r. split; [exact Hr|].
      vm_compute in Hv. injection Hv as <-. rewrite HC. vm_compute. reflexivity.
  - apply (proj2 (proj2 (proj2 (small_sample_fallback [py "n/a"])))).
    vm_compute. reflexivity.
Defined.

(** ** The end-to-end scenario *)

(** C1, as stated, fails: the values are floats, so the bands read
    "80.0 mg" and so on, and [Light] is the range from p10 to p30. *)
Lemma scenario_not_as_stated :
  ~ (exists r,
        analyze_doses scenario_doses = Return (Some r)
        /\ Threshold r = py "80 mg" /\ Light r = py "100 mg"
        /\ Common r = py "100-200 mg" /\ Strong r = py "200-300 mg"
        /\ Heavy r = py "300+ mg").
Proof.
  intros (r & H & HT & _).
  vm_compute in H. injection H as <-. vm_compute in HT. discriminate.
Qed.

(** C1, amended. For the dose strings "80 mg", "100 mg", "120 mg",
    "150 mg", "200 mg", "300 mg", the sorted sample is 80, 100, 120, 150,
    200, 300, the percentiles are p10 = 80, p30 = 100, p70 = 200 and
    p90 = 300, and [analyze_doses] returns Threshold = "80.0 mg",
    Light = "80.0-100.0 mg", Common = "100.0-200.0 mg",
    Strong = "200.0-300.0 mg" and Heavy = "300.0+ mg". *)
Theorem end_to_end_scenario :
  majority_unit scenario_doses = Some (py "mg")
  /\ majority_sample scenario_doses
     = map (fun z => Finite (inject_Z z)) [80; 100; 120; 150; 200; 300]
  /\ get_p (majority_sample scenario_doses) pct10 = Return (Finite (inject_Z 80))
  /\ get_p (majority_sample scenario_doses) pct30 = Return (Finite (inject_Z 100))
  /\ get_p (majority_sample scenario_doses) pct70 = Return (Finite (inject_Z 200))
  /\ get_p (majority_sample scenario_doses) pct90 = Return (Finite (inject_Z 300))
  /\ exists r,
      analyze_doses scenario_doses = Return (Some r)
      /\ Threshold r = py "80.0 mg"
      /\ Light r = py "80.0-100.0 mg"
      /\ Common r = py "100.0-200.0 mg"
      /\ Strong r = py "200.0-300.0 mg"
      /\ Heavy r = py "300.0+ mg"
      /\ total_reports (_stats r) = 6%nat.
Proof.
  repeat (split; [vm_compute; reflexivity|]).
  eexists. split; [vm_compute; reflexivity|].
  repeat split.
Qed.

(** The float literals of [get_p] are the binary64 values nearest to the
    decimals written in the source. *)
Lemma pct_literals :
  float_of_decimal (py "0.10") = Finite pct10
  /\ float_of_decimal (py "0.30") = Finite pct30
  /\ float_of_decimal (py "0.70") = Finite pct70
  /\ float_of_decimal (py "0.90") = Finite pct90.
Proof. repeat split; vm_compute; reflexivity. Qed.

(** ** Rounding and the percentile indices *)

Lemma Qlog2_le (q : Q) : (0 < q)%Q -> (Qpower 2 (Qlog2 q) <= q)%Q.
Proof.
  intros Hq. unfold Qlog2.
  set (k := Z.log2 (Qnum q) - Z.log2 (Z.pos (Qden q))).
  destruct (Qle_bool (Qpower 2 k) q) eqn:E; [now apply Qle_bool_iff in E|].
  clear E. destruct q as [n d]. cbn [Qnum Qden] in k.
  assert (Hn : 0 < n) by (unfold Qlt in Hq; simpl in Hq; lia).
  destruct (Z.log2_spec n Hn) as [Hlo _].
  destruct (Z.log2_spec (Z.pos d) eq_refl) as [_ Hhi].
  pose proof (Z.log2_nonneg n) as Ha.
  pose proof (Z.log2_nonneg (Z.pos d)) as Hb.
  replace (k - 1) with (Z.log2 n - Z.succ (Z.log2 (Z.pos d))) by (unfold k; lia).
  rewrite Qpower_minus by discriminate.
  change 2%Q with (inject_Z 2).
  rewrite <- !Zpower_Qpower by lia.
  apply Qle_shift_div_r.
  - change 0%Q with (inject_Z 0). rewrite <- Zlt_Qlt. apply Z.pow_pos_nonneg; lia.
  - unfold Qle, Qmult, inject_Z. cbn [Qnum Qden].
    set (A := 2 ^ Z.log2 n) in *. set (B := 2 ^ Z.succ (Z.log2 (Z.pos d))) in *.
    rewrite Pos.mul_1_r, !Z.mul_1_r.
    assert (0 <= A) by (apply Z.pow_nonneg; lia). nia.
Qed.

Lemma rne_bounds (x : Q) :
  (x - (1 # 2) <= inject_Z (rne x) <= x + (1 # 2))%Q.
Proof.
  unfold rne. pose proof (Qfloor_le x) as Hlo. pose proof (Qlt_floor x) as Hhi.
  rewrite inject_Z_plus in Hhi. change (inject_Z 1) with 1%Q in Hhi.
  destruct (Qcompare_spec (x - inject_Z (Qfloor x)) (1 # 2)) as [E|E|E];
    [destruct (Z.even (Qfloor x))| |];
    rewrite ?inject_Z_plus; change (inject_Z 1) with 1%Q; lra.
Qed.

Lemma round64_bounds (q : Q) :
  (Qpower 2 (-1022) <= q)%Q -> (q <= Qpower 2 1023)%Q ->
  exists r, round64 q = Finite r /\ (q * (1 - u53) <= r <= q * (1 + u53))%Q.
Proof.
  intros Hlo Hhi.
  assert (Hpos : (0 < q)%Q).
  { eapply Qlt_le_trans; [|exact Hlo]. apply Qpower_0_lt. reflexivity. }
  unfold round64.
  destruct (Qle_bool q 0) eqn:E0; [apply Qle_bool_iff in E0; lra|]. clear E0.
  set (e := Z.max (Qlog2 q - 52) (-1074)).
  assert (He : (Qpower 2 (e + 52) <= q)%Q).
  { destruct (Z.max_spec (Qlog2 q - 52) (-1074)) as [[_ E]|[_ E]]; fold e in E; rewrite E.
    - exact Hlo.
    - replace (Qlog2 q - 52 + 52) with (Qlog2 q) by lia. now apply Qlog2_le. }
  rewrite Qpower_plus in He by discriminate.
  assert (Hp : (0 < Qpower 2 e)%Q) by (apply Qpower_0_lt; reflexivity).
  set (p := Qpower 2 e) in *.
  change (Qpower 2 52) with 4503599627370496%Q in He.
  pose proof (rne_bounds (q / p)) as [Hm1 Hm2].
  set (m := inject_Z (rne (q / p))) in *.
  assert (Eq : (q == q / p * p)%Q) by (field; lra).
  set (y := (q / p)%Q) in *.
  assert (Hr : (q * (1 - u53) <= m * p <= q * (1 + u53))%Q).
  { unfold u53. split; nra. }
  assert (H24 : (Qpower 2 1024 == 2 * Qpower 2 1023)%Q).
  { change 1024 with (1 + 1023). rewrite Qpower_plus by discriminate. reflexivity. }
  set (T := Qpower 2 1023) in *.
  destruct (Qle_bool (Qpower 2 1024) (Qred (m * p))) eqn:Ov.
  - apply Qle_bool_iff in Ov. rewrite Qred_correct, H24 in Ov.
    unfold u53 in Hr. nra.
  - eexists. split; [reflexivity|]. rewrite Qred_correct. exact Hr.
Qed.

Lemma tiny_le : (Qpower 2 (-1022) <= 1 # 4)%Q.
Proof. apply Qle_bool_iff. vm_compute. reflexivity. Qed.

Lemma huge_ge : (inject_Z (2 ^ 66) <= Qpower 2 1023)%Q.
Proof. apply Qle_bool_iff. vm_compute. reflexivity. Qed.

Lemma get_p_mono (vd : list pyfloat) (pa pb : Q) :
  (5 <= length vd)%nat -> Z.of_nat (length vd) <= sys_maxsize ->
  (1 # 10 <= pa)%Q -> (pa * (1 + u53) <= pb * (1 - u53))%Q -> (pb <= 1)%Q ->
  exists ia ib,
    get_p vd pa = Return (nth ia vd (Finite 0)) /\
    get_p vd pb = Return (nth ib vd (Finite 0)) /\
    (ia <= ib < length vd)%nat.
Proof.
  intros H5 Hmax Hpa Hab Hpb.
  pose proof tiny_le as HL. pose proof huge_ge as HT.
  set (L := Qpower 2 (-1022)) in *. set (T := Qpower 2 1023) in *.
  set (n := Z.of_nat (length vd)) in *.
  assert (Hn5 : (5 <= inject_Z n)%Q).
  { change 5%Q with (inject_Z 5). rewrite <- Zle_Qle. lia. }
  assert (HnT : (inject_Z n <= inject_Z (2 ^ 64))%Q).
  { rewrite <- Zle_Qle. unfold sys_maxsize in Hmax. lia. }
  change (inject_Z (2 ^ 64)) with 18446744073709551616%Q in *.
  change (inject_Z (2 ^ 66)) with 73786976294838206464%Q in *.
  assert (Hu : u53 == 1 # 9007199254740992) by reflexivity.
  destruct (round64_bounds (inject_Z n)) as (c & Ec & Hc1 & Hc2);
    [fold L; lra | fold T; lra |].
  unfold u53 in Hab, Hc1, Hc2.
  assert (Hpa1 : (pa <= 1)%Q) by lra.
  assert (Hpb0 : (1 # 10 <= pb)%Q) by lra.
  assert (Hc4 : (4 <= c)%Q) by lra.
  assert (HcT : (c <= 36893488147419103232)%Q) by lra.
  assert (Ha1 : (1 # 4 <= c * pa)%Q) by nra.
  assert (Ha2 : (c * pa <= 36893488147419103232)%Q) by nra.
  assert (Hb1 : (1 # 4 <= c * pb)%Q) by nra.
  assert (Hb2 : (c * pb <= 36893488147419103232)%Q) by nra.
  destruct (round64_bounds (c * pa)) as (ra & Era & Hra1 & Hra2);
    [fold L; lra | fold T; lra |].
  destruct (round64_bounds (c * pb)) as (rb & Erb & Hrb1 & Hrb2);
    [fold L; lra | fold T; lra |].
  unfold get_p, float_of_int. fold n. rewrite Ec. cbn [bind].
  rewrite Era, Erb. cbn [bind int_of_float].
  unfold u53 in Hra1, Hra2, Hrb1, Hrb2.
  assert (Hfl : Qfloor ra <= Qfloor rb).
  { apply Qfloor_resp_le. nra. }
  assert (H0 : 0 <= Qfloor ra).
  { change 0 with (Qfloor 0). apply Qfloor_resp_le. nra. }
  do 2 eexists. split; [reflexivity|]. split; [reflexivity|]. lia.
Qed.

Lemma pct_steps :
  (1 # 10 <= pct10)%Q /\ (pct10 * (1 + u53) <= pct30 * (1 - u53))%Q /\
  (pct30 * (1 + u53) <= pct70 * (1 - u53))%Q /\
  (pct70 * (1 + u53) <= pct90 * (1 - u53))%Q /\ (pct90 <= 1)%Q.
Proof. repeat split; apply Qle_bool_iff; vm_compute; reflexivity. Qed.

Lemma parse_doses_length doses : (length (parse_doses doses) <= length doses)%nat.
Proof.
  induction doses as [|d t IH]; simpl; [lia|].
  destruct (parse_dose d); simpl; lia.
Qed.

Lemma majority_sample_length doses :
  (length (majority_sample doses) <= length doses)%nat.
Proof.
  unfold majority_sample. destruct (majority_unit doses); simpl; [|lia].
  rewrite valid_doses_length.
  etransitivity; [apply filter_length_le | apply parse_doses_length].
Qed.

Lemma majority_sample_sorted doses : StronglySorted fle (majority_sample doses).
Proof.
  unfold majority_sample. destruct (majority_unit doses).
  - apply valid_doses_sorted.
  - constructor.
Qed.

Lemma bands_large unit vd p10 p30 p70 p90 :
  (5 <= length vd)%nat ->
  get_p vd pct10 = Return p10 -> get_p vd pct30 = Return p30 ->
  get_p vd pct70 = Return p70 -> get_p vd pct90 = Return p90 ->
  exists r, bands unit vd = Return (Some r)
            /\ Heavy r = float_repr p90 ++ py "+ " ++ unit.
Proof.
  intros H5 E10 E30 E70 E90.
  assert (E : (length vd <? 5)%nat = false) by (apply Nat.ltb_ge; lia).
  destruct vd as [|a [|b t]]; simpl in H5; try lia.
  unfold bands. rewrite E, E10, E30, E70, E90. cbn [bind].
  eexists. split; [reflexivity|]. case_ifs; reflexivity.
Qed.

(** C2. When the sample of the majority unit has at least five values,
    the percentiles that [analyze_doses] reads off the ascending sample
    at the indices min(int(count * pct), count - 1) satisfy
    min <= p10 <= p30 <= p70 <= p90 <= max, and the [Heavy] band is set
    to "{p90}+ {unit}". *)
Theorem quantile_monotonicity (doses : list str) (unit : str) :
  majority_unit doses = Some unit ->
  (5 <= length (majority_sample doses))%nat ->
  Z.of_nat (length doses) <= sys_maxsize ->
  exists min_v max_v p10 p30 p70 p90 r,
    hd_error (majority_sample doses) = Some min_v /\
    max_v = last (majority_sample doses) (Finite 0) /\
    get_p (majority_sample doses) pct10 = Return p10 /\
    get_p (majority_sample doses) pct30 = Return p30 /\
    get_p (majority_sample doses) pct70 = Return p70 /\
    get_p (majority_sample doses) pct90 = Return p90 /\
    fle min_v p10 /\ fle p10 p30 /\ fle p30 p70 /\ fle p70 p90 /\ fle p90 max_v /\
    analyze_doses doses = Return (Some r) /\
    Heavy r = float_repr p90 ++ py "+ " ++ unit.
Proof.
  intros Hu H5 Hmax.
  pose proof (majority_sample_length doses) as Hlen.
  pose proof (majority_sample_sorted doses) as Hs.
  set (vd := majority_sample doses) in *.
  assert (Hmax' : Z.of_nat (length vd) <= sys_maxsize) by lia.
  destruct pct_steps as (S0 & S1 & S2 & S3 & S4).
  assert (B30 : (1 # 10 <= pct30)%Q) by (apply Qle_bool_iff; vm_compute; reflexivity).
  assert (B70 : (1 # 10 <= pct70)%Q) by (apply Qle_bool_iff; vm_compute; reflexivity).
  assert (T30 : (pct30 <= 1)%Q) by (apply Qle_bool_iff; vm_compute; reflexivity).
  assert (T70 : (pct70 <= 1)%Q) by (apply Qle_bool_iff; vm_compute; reflexivity).
  destruct (get_p_mono vd pct10 pct30 H5 Hmax' S0 S1 T30) as (i10 & i30 & E10 & E30 & I1).
  destruct (get_p_mono vd pct30 pct70 H5 Hmax' B30 S2 T70) as (i30' & i70 & E30' & E70 & I2).
  destruct (get_p_mono vd pct70 pct90 H5 Hmax' B70 S3 S4) as (i70' & i90 & E70' & E90 & I3).
  destruct (bands_large unit vd _ _ _ _ H5 E10 E30 E70 E90) as (r & Hr & HH).
  assert (Hnth : forall i j, (i <= j < length vd)%nat ->
                             fle (nth i vd (Finite 0)) (nth j vd (Finite 0))).
  { intros i j Hij. apply sorted_nth_le; auto using fle_refl; lia. }
  exists (nth 0 vd (Finite 0)), (last vd (Finite 0)).
  exists (nth i10 vd (Finite 0)), (nth i30 vd (Finite 0)).
  exists (nth i70 vd (Finite 0)), (nth i90 vd (Finite 0)), r.
  split; [destruct vd; [simpl in H5; lia | reflexivity]|].
  split; [reflexivity|].
  do 4 (split; [assumption|]).
  rewrite last_nth.
  split; [apply Hnth; lia|].
  split; [apply Hnth; lia|].
  split.
  { rewrite E30' in E30. injection E30 as <-. apply Hnth; lia. }
  split.
  { rewrite E70' in E70. injection E70 as <-. apply Hnth; lia. }
  split; [apply Hnth; lia|].
  split; [|exact HH].
  rewrite analyze_doses_bands, Hu. exact Hr.
Qed.

Lemma quantile_monotonicity_witness :
  majority_unit scenario_doses = Some (py "mg")
  /\ (5 <= length (majority_sample scenario_doses))%nat
  /\ Z.of_nat (length scenario_doses) <= sys_maxsize
  /\ exists p90 r,
      get_p (majority_sample scenario_doses) pct90 = Return p90
      /\ analyze_doses scenario_doses = Return (Some r)
      /\ Heavy r = float_repr p90 ++ py "+ " ++ py "mg".
Proof.
  assert (Hu : majority_unit scenario_doses = Some (py "mg")) by (vm_compute; reflexivity).
  assert (H5 : (5 <= length (majority_sample scenario_doses))%nat) by (vm_compute; lia).
  assert (Hm : Z.of_nat (length scenario_doses) <= sys_maxsize) by (vm_compute; discriminate).
  split; [exact Hu|]. split; [exact H5|]. split; [exact Hm|].
  destruct (quantile_monotonicity scenario_doses _ Hu H5 Hm)
    as (min_v & max_v & p10 & p30 & p70 & p90 & r & _ & _ & _ & _ & _ & E90 & _ & _ & _ & _ & _ & Hr & HH).
  exists p90, r. repeat split; assumption.
Defined.

(** ** Unit reconciliation *)

Lemma incr_get (u k : str) (d : dict str nat) :
  dict_get str_eqb u (incr str_eqb k d)
  = if str_eqb u k then Some (dict_get_default str_eqb 0%nat k d + 1)%nat
    else dict_get str_eqb u d.
Proof.
  unfold incr. destruct (str_eqb u k) eqn:E.
  - apply str_eqb_eq in E. subst. apply dict_get_set_same.
  - apply str_eqb_neq in E. now apply dict_get_set_other.
Qed.

Lemma unit_counts_snoc l p :
  unit_counts (l ++ [p]) = incr str_eqb (snd p) (unit_counts l).
Proof. unfold unit_counts. now rewrite fold_left_app. Qed.

Lemma count_unit_snoc u l p :
  count_unit u (l ++ [p])
  = (count_unit u l + if str_eqb (snd p) u then 1 else 0)%nat.
Proof.
  unfold count_unit. rewrite filter_app, length_app. simpl.
  now destruct (str_eqb (snd p) u).
Qed.

Lemma unit_counts_get (parsed : list (pyfloat * str)) (u : str) :
  dict_get str_eqb u (unit_counts parsed)
  = if (count_unit u parsed =? 0)%nat then None else Some (count_unit u parsed).
Proof.
  induction parsed as [|p l IH] using rev_ind; [reflexivity|].
  rewrite unit_counts_snoc, count_unit_snoc, incr_get.
  destruct (str_eqb u (snd p)) eqn:E.
  - apply str_eqb_eq in E. subst u. rewrite str_eqb_refl.
    unfold dict_get_default. rewrite IH.
    destruct (Nat.eqb_spec (count_unit (snd p) l) 0) as [Z|NZ].
    + rewrite Z. reflexivity.
    + destruct (Nat.eqb_spec (count_unit (snd p) l + 1) 0); [lia | reflexivity].
  - apply str_eqb_neq in E.
    assert (E' : str_eqb (snd p) u = false) by (apply str_eqb_neq; congruence).
    rewrite E', Nat.add_0_r. exact IH.
Qed.

Lemma add_key_NoDup (l : list str) (k : str) : NoDup l -> NoDup (add_key l k).
Proof.
  intros H. unfold add_key. destruct (existsb (str_eqb k) l) eqn:E; [exact H|].
  apply NoDup_app; [exact H | repeat constructor; intros [] | ].
  intros x Hx [<-|[]]. apply existsb_str_eqb_In in Hx. congruence.
Qed.

Lemma unit_counts_NoDup (parsed : list (pyfloat * str)) :
  NoDup (dict_keys (unit_counts parsed)).
Proof.
  induction parsed as [|p l IH] using rev_ind; [constructor|].
  rewrite unit_counts_snoc. unfold incr. rewrite dict_keys_set.
  now apply add_key_NoDup.
Qed.

Lemma In_dict_get (V : Type) (k : str) (v : V) (d : dict str V) :
  NoDup (dict_keys d) -> In (k, v) d -> dict_get str_eqb k d = Some v.
Proof.
  induction d as [|[k' v'] t IH]; simpl; [tauto|].
  intros Hnd [E|Hin].
  - injection E as -> ->. now rewrite str_eqb_refl.
  - inversion Hnd as [|? ? Hnot Hnd']; subst.
    destruct (str_eqb k k') eqn:E.
    + apply str_eqb_eq in E. subst. exfalso. apply Hnot.
      change k' with (fst (k', v)). now apply in_map.
    + now apply IH.
Qed.

Lemma fold_max_spec (rest : dict str nat) (best : str * nat) :
  let m := fold_left (fun best kv => if (snd best <? snd kv)%nat then kv else best)
                     rest best in
  In m (best :: rest) /\ Forall (fun kv => (snd kv <= snd m)%nat) (best :: rest).
Proof.
  revert best. induction rest as [|kv t IH]; intros best; simpl.
  - split; [now left | repeat constructor].
  - destruct (IH (if (snd best <? snd kv)%nat then kv else best)) as [Hin Hall].
    simpl in Hin, Hall. inversion Hall as [|? ? Hb Ht]; subst. split.
    + destruct Hin as [E|Hin]; [|now right; right].
      destruct (snd best <? snd kv)%nat; [right; left | left]; exact E.
    + destruct (Nat.ltb_spec (snd best) (snd kv)); repeat constructor; auto; lia.
Qed.

Lemma majority_unit_max (doses : list str) (unit : str) :
  majority_unit doses = Some unit ->
  (1 <= count_unit unit (parse_doses doses))%nat /\
  forall u, (count_unit u (parse_doses doses) <= count_unit unit (parse_doses doses))%nat.
Proof.
  unfold majority_unit, most_common_unit.
  set (parsed := parse_doses doses).
  pose proof (unit_counts_NoDup parsed) as Hnd.
  pose proof (unit_counts_get parsed) as Hget.
  destruct (unit_counts parsed) as [|[k0 v0] rest] eqn:U; [discriminate|].
  intros [= <-]. unfold max_key.
  destruct (fold_max_spec rest (k0, v0)) as [Hin Hall].
  set (m := fold_left _ rest (k0, v0)) in *.
  destruct m as [k v]. simpl.
  assert (Hk : dict_get str_eqb k ((k0, v0) :: rest) = Some v)
    by (apply In_dict_get; assumption).
  rewrite Hget in Hk.
  destruct (Nat.eqb_spec (count_unit k parsed) 0) as [|NZ]; [discriminate|].
  injection Hk as Hk. split; [lia|].
  intros u. destruct (Nat.eq_dec (count_unit u parsed) 0) as [Z|NZu]; [lia|].
  specialize (Hget u).
  destruct (Nat.eqb_spec (count_unit u parsed) 0); [contradiction|].
  apply dict_get_In in Hget.
  rewrite Forall_forall in Hall. specialize (Hall _ Hget). simpl in Hall. lia.
Qed.

Lemma parse_doses_filter (unit : str) (doses : list str) :
  parse_doses (filter (has_unit unit) doses)
  = filter (fun p => str_eqb (snd p) unit) (parse_doses doses).
Proof.
  induction doses as [|d t IH]; [reflexivity|].
  simpl. unfold has_unit at 1.
  destruct (parse_dose d) as [p|] eqn:E; [|exact IH].
  simpl. destruct (str_eqb (snd p) unit); [|exact IH].
  simpl. rewrite E. now rewrite IH.
Qed.

Lemma filter_idem (X : Type) (f : X -> bool) (l : list X) :
  filter f (filter f l) = filter f l.
Proof.
  induction l as [|x t IH]; [reflexivity|].
  simpl. destruct (f x) eqn:E; [|exact IH]. simpl. now rewrite E, IH.
Qed.

Lemma unit_counts_uniform (unit : str) (l : list (pyfloat * str)) (n : nat) :
  Forall (fun p => snd p = unit) l ->
  fold_left (fun d p => incr str_eqb (snd p) d) l [(unit, n)]
  = [(unit, (n + length l)%nat)].
Proof.
  intros H. revert n. induction H as [|p t Hp Ht IH]; intros n; simpl.
  - now rewrite Nat.add_0_r.
  - rewrite Hp. unfold incr at 2, dict_get_default. simpl. rewrite str_eqb_refl.
    rewrite IH. f_equal. f_equal. lia.
Qed.

Lemma most_common_unit_uniform (unit : str) (l : list (pyfloat * str)) :
  Forall (fun p => snd p = unit) l -> l <> [] -> most_common_unit l = Some unit.
Proof.
  intros H Hne. destruct l as [|p t]; [contradiction|].
  inversion H as [|? ? Hp Ht]; subst.
  unfold most_common_unit, unit_counts. simpl.
  unfold incr at 2, dict_get_default. simpl.
  rewrite (unit_counts_uniform (snd p) t _ Ht). reflexivity.
Qed.

Lemma bands_stats (unit : str) (vd : list pyfloat) (r : ranges) :
  bands unit vd = Return (Some r) -> _stats r = stats_of unit vd.
Proof.
  unfold bands. destruct vd as [|a [|b t]]; try discriminate.
  - intros [= <-]. reflexivity.
  - destruct (length (a :: b :: t) <? 5)%nat.
    + intros [= <-]. reflexivity.
    + destruct (get_p (a :: b :: t) pct10) as [p10|]; cbn [bind]; [|discriminate].
      destruct (get_p (a :: b :: t) pct30) as [p30|]; cbn [bind]; [|discriminate].
      destruct (get_p (a :: b :: t) pct70) as [p70|]; cbn [bind]; [|discriminate].
      destruct (get_p (a :: b :: t) pct90) as [p90|]; cbn [bind]; [|discriminate].
      case_ifs; intros [= <-]; reflexivity.
Qed.

Lemma dict_set_keys_incl (K V : Type) (eqb : K -> K -> bool) (k x : K) (v : V)
      (d : dict K V) :
  In x (dict_keys (dict_set eqb k v d)) -> x = k \/ In x (dict_keys d).
Proof.
  induction d as [|[k' v'] t IH]; simpl.
  - intros [<-|[]]. now left.
  - destruct (eqb k k'); simpl; [tauto|].
    intros [<-|H]; [tauto|]. destruct (IH H); tauto.
Qed.

Lemma value_counts_keys (vd : list pyfloat) (x : pyfloat) :
  In x (dict_keys (value_counts vd)) -> In x vd.
Proof.
  unfold value_counts.
  assert (G : forall l d, In x (dict_keys (fold_left (fun d v => incr feqb v d) l d)) ->
                          In x l \/ In x (dict_keys d)).
  { induction l as [|v t IH]; intros d; simpl; [tauto|].
    intros H. destruct (IH _ H) as [?|H']; [tauto|].
    apply dict_set_keys_incl in H'. destruct H'; [subst|]; tauto. }
  intros H. destruct (G _ _ H) as [?|[]]. assumption.
Qed.

Lemma item_ltb_false a b : item_ltb a b = false -> fle (fst b) (fst a).
Proof.
  unfold item_ltb. intros H. apply orb_false_iff in H. now apply fltb_false_fle.
Qed.

Lemma item_ltb_true a b : item_ltb a b = true -> fle (fst a) (fst b).
Proof.
  unfold item_ltb. intros H. apply orb_true_iff in H. destruct H as [H|H].
  - now apply fltb_true_fle.
  - apply andb_true_iff in H. now apply feqb_fle.
Qed.

Lemma sorted_items (vd : list pyfloat) :
  let items := py_sort item_ltb (value_counts vd) in
  StronglySorted (fun a b => fle (fst a) (fst b)) items
  /\ forall kv, In kv items -> In (fst kv) vd.
Proof.
  split.
  - apply py_sort_sorted.
    + exact item_ltb_false.
    + exact item_ltb_true.
    + intros x y z. apply fle_trans.
  - intros kv H. apply value_counts_keys.
    apply (Permutation_in _ (py_sort_perm _ item_ltb (value_counts vd))) in H.
    now apply in_map.
Qed.

(** *** The histogram of the sample *)

Lemma dict_set_In (V : Type) (k k' : str) (v v' : V) (d : dict str V) :
  In (k, v) (dict_set str_eqb k' v' d) -> (k, v) = (k', v') \/ In (k, v) d.
Proof.
  induction d as [|[k0 v0] t IH]; simpl.
  - intros [E|[]]. left. now symmetry.
  - destruct (str_eqb k' k0) eqn:E; simpl.
    + apply str_eqb_eq in E. subst k0. intros [H|H]; [left; now symmetry | right; now right].
    + intros [H|H]; [right; now left|]. destruct (IH H); [now left | right; now right].
Qed.

Lemma feqb_refl (a : pyfloat) : feqb a a = true.
Proof. destruct a; simpl; [apply Qeq_bool_iff; reflexivity | reflexivity]. Qed.

Lemma feqb_congr (a b c : pyfloat) : feqb a b = true -> feqb a c = feqb b c.
Proof.
  destruct a as [x|], b as [y|], c as [z|]; simpl; try discriminate; try reflexivity.
  intros E. apply Qeq_bool_iff in E.
  destruct (Qeq_bool y z) eqn:E2.
  - apply Qeq_bool_iff. apply Qeq_bool_iff in E2. now rewrite E.
  - apply not_true_iff_false. rewrite Qeq_bool_iff. intros E3.
    apply not_true_iff_false in E2. apply E2. apply Qeq_bool_iff. now rewrite <- E.
Qed.

Lemma feqb_sym (a b : pyfloat) : feqb a b = feqb b a.
Proof.
  destruct a as [x|], b as [y|]; simpl; try reflexivity.
  destruct (Qeq_bool y x) eqn:E.
  - apply Qeq_bool_iff. apply Qeq_bool_iff in E. now symmetry.
  - apply not_true_iff_false. rewrite Qeq_bool_iff. intros E3.
    apply not_true_iff_false in E. apply E. apply Qeq_bool_iff. now symmetry.
Qed.

Lemma dict_get_feqb (V : Type) (a b : pyfloat) (d : dict pyfloat V) :
  feqb a b = true -> dict_get feqb a d = dict_get feqb b d.
Proof.
  intros E. induction d as [|[k v] t IH]; simpl; [reflexivity|].
  now rewrite (feqb_congr a b k E), IH.
Qed.

Lemma incr_get_float (u k : pyfloat) (d : dict pyfloat nat) :
  dict_get feqb u (incr feqb k d)
  = if feqb u k then Some (dict_get_default feqb 0%nat k d + 1)%nat
    else dict_get feqb u d.
Proof.
  unfold incr. generalize (dict_get_default feqb 0%nat k d + 1)%nat as n. intros n.
  induction d as [|[k' v'] t IH]; simpl.
  - reflexivity.
  - destruct (feqb k k') eqn:E; simpl.
    + destruct (feqb u k) eqn:E2.
      * rewrite (feqb_congr u k k' E2), E. reflexivity.
      * assert (E3 : feqb u k' = false).
        { rewrite feqb_sym, <- (feqb_congr k k' u E), feqb_sym. exact E2. }
        now rewrite E3.
    + destruct (feqb u k') eqn:E3.
      * destruct (feqb u k) eqn:E2; [|reflexivity].
        rewrite (feqb_congr u k k' E2) in E3. congruence.
      * exact IH.
Qed.

Lemma value_counts_get (vd : list pyfloat) (v : pyfloat) :
  dict_get feqb v (value_counts vd)
  = if (length (filter (feqb v) vd) =? 0)%nat then None
    else Some (length (filter (feqb v) vd)).
Proof.
  unfold value_counts.
  induction vd as [|x l IH] using rev_ind; [reflexivity|].
  rewrite fold_left_app. cbn [fold_left]. rewrite incr_get_float.
  rewrite filter_app, length_app. cbn [filter].
  destruct (feqb v x) eqn:E; cbn [length].
  - unfold dict_get_default.
    rewrite <- (dict_get_feqb _ v x _ E), IH.
    destruct (Nat.eqb_spec (length (filter (feqb v) l)) 0) as [Z|NZ].
    + rewrite Z. reflexivity.
    + destruct (Nat.eqb_spec (length (filter (feqb v) l) + 1) 0); [lia|]. reflexivity.
  - rewrite IH, Nat.add_0_r. reflexivity.
Qed.

Lemma canonical_round64 (q : Q) : canonical (round64 q).
Proof.
  unfold round64. destruct (Qle_bool q 0); [reflexivity|].
  cbv zeta. destruct (Qle_bool _ _); [exact I|].
  cbn [canonical]. apply Qred_complete, Qred_correct.
Qed.

Lemma parse_dose_canonical (d : str) (v : pyfloat) (u : str) :
  parse_dose d = Some (v, u) -> canonical v.
Proof.
  unfold parse_dose. destruct (re_match _ _) as [[g s]|]; [|discriminate].
  intros [= <- _]. unfold float_of_decimal. destruct (split_dot _).
  apply canonical_round64.
Qed.

Lemma parse_doses_canonical (doses : list str) :
  Forall (fun p => canonical (fst p)) (parse_doses doses).
Proof.
  induction doses as [|d t IH]; [constructor|]. cbn [parse_doses].
  destruct (parse_dose d) as [[v u]|] eqn:E; [|exact IH].
  constructor; [|exact IH]. now apply (parse_dose_canonical d v u).
Qed.

Lemma feqb_canonical (a b : pyfloat) :
  canonical a -> canonical b -> feqb a b = true -> a = b.
Proof.
  destruct a as [x|], b as [y|]; simpl; intros Ca Cb E; try discriminate; [|reflexivity].
  apply Qeq_bool_iff, Qred_complete in E. rewrite Ca, Cb in E. now subst.
Qed.

Lemma majority_sample_canonical (doses : list str) :
  Forall canonical (majority_sample doses).
Proof.
  unfold majority_sample. destruct (majority_unit doses) as [unit|]; [|constructor].
  apply Forall_forall. intros x Hx. unfold valid_doses_of in Hx.
  apply (Permutation_in x (py_sort_perm _ fltb _)) in Hx.
  apply in_map_iff in Hx. destruct Hx as (p & <- & Hp). apply filter_In in Hp.
  pose proof (parse_doses_canonical doses) as C. rewrite Forall_forall in C.
  now apply C.
Qed.

Lemma dict_set_distinct (k : pyfloat) (n : nat) (d : dict pyfloat nat) :
  StronglySorted (fun a b => feqb (fst a) (fst b) = false) d ->
  StronglySorted (fun a b => feqb (fst a) (fst b) = false) (dict_set feqb k n d).
Proof.
  induction d as [|[k0 v0] t IH]; intros S; simpl.
  - repeat constructor.
  - inversion S as [|? ? St Hh]; subst. destruct (feqb k k0) eqn:E.
    + constructor; [exact St | exact Hh].
    + constructor; [now apply IH|].
      apply Forall_forall. intros [k1 v1] H1. cbn [fst].
      assert (Hk : In k1 (dict_keys (dict_set feqb k n t))).
      { change k1 with (fst (k1, v1)). now apply in_map. }
      apply dict_set_keys_incl in Hk. destruct Hk as [->|Hk].
      * now rewrite feqb_sym.
      * apply in_map_iff in Hk. destruct Hk as ([k2 v2] & E2 & H2). cbn in E2. subst k2.
        rewrite Forall_forall in Hh. exact (Hh _ H2).
Qed.

Lemma value_counts_distinct (vd : list pyfloat) :
  StronglySorted (fun a b => feqb (fst a) (fst b) = false) (value_counts vd).
Proof.
  unfold value_counts.
  assert (G : forall l d,
             StronglySorted (fun a b => feqb (fst a) (fst b) = false) d ->
             StronglySorted (fun a b => feqb (fst a) (fst b) = false)
                            (fold_left (fun d v => incr feqb v d) l d)).
  { induction l as [|v t IH]; intros d S; simpl; [exact S|].
    apply IH. unfold incr. now apply dict_set_distinct. }
  apply G. constructor.
Qed.

Lemma distinct_In_get (d : dict pyfloat nat) (v : pyfloat) (n : nat) :
  StronglySorted (fun a b => feqb (fst a) (fst b) = false) d ->
  In (v, n) d -> dict_get feqb v d = Some n.
Proof.
  induction d as [|[k0 v0] t IH]; intros S H; [destruct H|].
  inversion S as [|? ? St Hh]; subst. simpl. destruct H as [[= -> ->]|H].
  - now rewrite feqb_refl.
  - rewrite Forall_forall in Hh. specialize (Hh _ H). cbn in Hh.
    rewrite feqb_sym, Hh. now apply IH.
Qed.

Lemma get_In_feqb (d : dict pyfloat nat) (v : pyfloat) (n : nat) :
  dict_get feqb v d = Some n -> exists k, In (k, n) d /\ feqb v k = true.
Proof.
  induction d as [|[k0 v0] t IH]; simpl; [discriminate|].
  destruct (feqb v k0) eqn:E.
  - intros [= ->]. exists k0. split; [now left | exact E].
  - intros H. destruct (IH H) as (k & Hin & Hk). exists k. split; [now right | exact Hk].
Qed.

Lemma value_counts_In (vd : list pyfloat) (v : pyfloat) (n : nat) :
  In (v, n) (value_counts vd) ->
  In v vd /\ n = length (filter (feqb v) vd).
Proof.
  intros H. split.
  - apply value_counts_keys. change v with (fst (v, n)). now apply in_map.
  - apply (distinct_In_get _ _ _ (value_counts_distinct vd)) in H.
    rewrite value_counts_get in H.
    destruct (length (filter (feqb v) vd) =? 0)%nat; [discriminate|].
    now injection H as <-.
Qed.

Lemma value_counts_covers (vd : list pyfloat) (v : pyfloat) :
  Forall canonical vd -> In v vd ->
  In (v, length (filter (feqb v) vd)) (value_counts vd).
Proof.
  intros C Hv. pose proof (value_counts_get vd v) as G.
  assert (Hpos : length (filter (feqb v) vd) <> 0%nat).
  { assert (Hin : In v (filter (feqb v) vd)) by (apply filter_In; split; [exact Hv | apply feqb_refl]).
    destruct (filter (feqb v) vd); [destruct Hin | discriminate]. }
  destruct (Nat.eqb_spec (length (filter (feqb v) vd)) 0) as [|_]; [contradiction|].
  apply get_In_feqb in G. destruct G as (k & Hin & Hk).
  assert (E : v = k).
  { rewrite Forall_forall in C. apply feqb_canonical; [now apply C | | exact Hk].
    apply C, value_counts_keys. change k with (fst (k, length (filter (feqb v) vd))).
    now apply in_map. }
  now subst k.
Qed.

Lemma format_distribution_In (unit k : str) (n : nat) (items : list (pyfloat * nat)) :
  In (k, n) (format_distribution unit items) ->
  exists kv, In kv items /\ k = float_repr (fst kv) ++ py " " ++ unit /\ n = snd kv.
Proof.
  unfold format_distribution.
  assert (G : forall l (d : dict str nat),
             In (k, n) (fold_left
                          (fun d kv => dict_set str_eqb
                                         (float_repr (fst kv) ++ [32%N] ++ unit) (snd kv) d)
                          l d) ->
             In (k, n) d
             \/ exists kv, In kv l /\ k = float_repr (fst kv) ++ py " " ++ unit
                           /\ n = snd kv).
  { induction l as [|kv t IH]; intros d; simpl; [tauto|].
    intros H. destruct (IH _ H) as [H'|(kv' & Hin & E)].
    - apply dict_set_In in H'. destruct H' as [[= -> ->]|H']; [|now left].
      right. exists kv. split; [now left | split; reflexivity].
    - right. exists kv'. split; [now right | exact E]. }
  intros H. destruct (G _ _ H) as [[]|H']. exact H'.
Qed.

Lemma dict_set_keeps_key (V : Type) (x k : str) (v : V) (d : dict str V) :
  In x (dict_keys d) -> In x (dict_keys (dict_set str_eqb k v d)).
Proof.
  induction d as [|[k0 v0] t IH]; simpl; [intros []|].
  destruct (str_eqb k k0); simpl; intros [E|H]; auto.
Qed.

Lemma format_distribution_keys (unit k : str) (items : list (pyfloat * nat)) :
  In k (dict_keys (format_distribution unit items))
  <-> exists kv, In kv items /\ k = float_repr (fst kv) ++ py " " ++ unit.
Proof.
  split.
  - intros H. apply in_map_iff in H. destruct H as ([k' n] & E & H). cbn in E. subst k'.
    apply format_distribution_In in H. destruct H as (kv & Hin & E & _). now exists kv.
  - unfold format_distribution. intros (kv & Hin & ->).
    assert (G : forall l (d : dict str nat),
               In (float_repr (fst kv) ++ py " " ++ unit) (dict_keys d) \/ In kv l ->
               In (float_repr (fst kv) ++ py " " ++ unit)
                  (dict_keys (fold_left
                                (fun d kv => dict_set str_eqb
                                               (float_repr (fst kv) ++ [32%N] ++ unit)
                                               (snd kv) d)
                                l d))).
    { induction l as [|kv' t IH]; intros d; simpl; [tauto|].
      intros [H|[->|H]]; apply IH.
      - left. now apply dict_set_keeps_key.
      - left. apply dict_mem_iff. unfold dict_mem.
        change (float_repr (fst kv) ++ py " " ++ unit)
          with (float_repr (fst kv) ++ [32%N] ++ unit).
        now rewrite dict_get_set_same.
      - now right. }
    apply G. now right.
Qed.

(** C4. Whenever [analyze_doses] returns a band record, one unit was
    selected, no unit is more frequent among the parsed samples, the
    sample behind the bands is made of the values of that unit alone,
    [_stats.total_reports] is the number of samples of that unit, and
    the record is the one obtained with every other dose string removed
    from the input.  The histogram [_stats.distribution] is written from
    the (value, count) pairs of that sample in ascending order of the
    values: the pairs are exactly the values of the sample, each with
    the number of samples equal to it; the keys of the histogram are
    exactly the values of the sample, written with the unit; and every
    entry holds the number of samples equal to a value that its key
    writes. *)
Theorem unit_isolation (doses : list str) (r : ranges) :
  analyze_doses doses = Return (Some r) ->
  exists unit,
    majority_unit doses = Some unit /\
    (forall u, (count_unit u (parse_doses doses)
                <= count_unit unit (parse_doses doses))%nat) /\
    Permutation (majority_sample doses)
                (map fst (filter (fun p => str_eqb (snd p) unit) (parse_doses doses))) /\
    StronglySorted fle (majority_sample doses) /\
    total_reports (_stats r) = count_unit unit (parse_doses doses) /\
    analyze_doses (filter (has_unit unit) doses) = Return (Some r) /\
    distribution (_stats r)
    = format_distribution unit (py_sort item_ltb (value_counts (majority_sample doses))) /\
    StronglySorted (fun a b => fle (fst a) (fst b))
                   (py_sort item_ltb (value_counts (majority_sample doses))) /\
    (forall v n,
        In (v, n) (py_sort item_ltb (value_counts (majority_sample doses)))
        <-> In v (majority_sample doses)
            /\ n = length (filter (feqb v) (majority_sample doses))) /\
    (forall k,
        In k (dict_keys (distribution (_stats r)))
        <-> exists v, In v (majority_sample doses)
                      /\ k = float_repr v ++ py " " ++ unit) /\
    (forall k n,
        In (k, n) (distribution (_stats r)) ->
        exists v, In v (majority_sample doses)
                  /\ k = float_repr v ++ py " " ++ unit
                  /\ n = length (filter (feqb v) (majority_sample doses))).
Proof.
  intros Hr. pose proof Hr as Hb. rewrite analyze_doses_bands in Hb.
  destruct (majority_unit doses) as [unit|] eqn:Hu; [|discriminate].
  exists unit. split; [reflexivity|].
  destruct (majority_unit_max doses unit Hu) as [H1 Hmaxc].
  split; [exact Hmaxc|].
  assert (Es : majority_sample doses = valid_doses_of unit (parse_doses doses)).
  { unfold majority_sample. now rewrite Hu. }
  split; [rewrite Es; apply py_sort_perm|].
  split; [apply majority_sample_sorted|].
  pose proof (bands_stats _ _ _ Hb) as Hst.
  split.
  { rewrite Hst. simpl. rewrite Es. apply valid_doses_length. }
  split.
  { unfold analyze_doses. rewrite parse_doses_filter.
    set (parsed' := filter _ (parse_doses doses)).
    assert (Hne : parsed' <> []).
    { intros E. unfold count_unit in H1. fold parsed' in H1. rewrite E in H1.
      simpl in H1. lia. }
    assert (Hall : Forall (fun p => snd p = unit) parsed').
    { apply Forall_forall. intros p Hp. apply filter_In in Hp.
      now apply str_eqb_eq. }
    rewrite (most_common_unit_uniform unit parsed' Hall Hne).
    destruct parsed' eqn:E; [contradiction|]. rewrite <- E.
    unfold valid_doses_of, parsed'. rewrite filter_idem.
    rewrite Es in Hb. exact Hb. }
  set (sample := majority_sample doses) in *.
  assert (Hd : distribution (_stats r)
               = format_distribution unit (py_sort item_ltb (value_counts sample)))
    by now rewrite Hst.
  assert (Hitems : forall v n,
             In (v, n) (py_sort item_ltb (value_counts sample))
             <-> In v sample /\ n = length (filter (feqb v) sample)).
  { intros v n. split.
    - intros H. apply (Permutation_in _ (py_sort_perm _ item_ltb _)) in H.
      now apply value_counts_In.
    - intros [Hv ->].
      apply (Permutation_in _ (Permutation_sym (py_sort_perm _ item_ltb _))).
      apply value_counts_covers; [apply majority_sample_canonical | exact Hv]. }
  split; [exact Hd|]. split; [apply sorted_items|]. split; [exact Hitems|]. split.
  - intros k. rewrite Hd, format_distribution_keys. split.
    + intros ([v n] & Hin & ->). apply Hitems in Hin. exists v. split; [apply Hin | reflexivity].
    + intros (v & Hv & ->). exists (v, length (filter (feqb v) sample)).
      split; [now apply Hitems | reflexivity].
  - intros k n H. rewrite Hd in H. apply format_distribution_In in H.
    destruct H as ([v n'] & Hin & -> & ->). apply Hitems in Hin.
    exists v. split; [apply Hin|]. split; [reflexivity | apply Hin].
Qed.

Lemma unit_isolation_witness :
  exists r,
    analyze_doses mixed_doses = Return (Some r)
    /\ majority_unit mixed_doses = Some (py "mg")
    /\ total_reports (_stats r) = 4%nat
    /\ count_unit (py "g") (parse_doses mixed_doses) = 2%nat
    /\ analyze_doses (filter (has_unit (py "mg")) mixed_doses) = Return (Some r)
    /\ distribution (_stats r)
       = [(py "10.0 mg", 1%nat); (py "20.0 mg", 1%nat);
          (py "30.0 mg", 1%nat); (py "40.0 mg", 1%nat)]
    /\ In (py "10.0 mg") (dict_keys (distribution (_stats r))).
Proof.
  eexists. split; [vm_compute; reflexivity|].
  match goal with
  | |- context [total_reports (_stats ?r)] =>
      destruct (unit_isolation mixed_doses r)
        as (u & Hu & _ & _ & _ & Ht & Hi & Hd & _ & _ & Hk & _)
  end.
  - vm_compute. reflexivity.
  - assert (E : majority_unit mixed_doses = Some (py "mg")) by (vm_compute; reflexivity).
    rewrite E in Hu. injection Hu as <-.
    split; [exact E|]. split; [rewrite Ht; vm_compute; reflexivity|].
    split; [vm_compute; reflexivity|]. split; [exact Hi|].
    split; [rewrite Hd; vm_compute; reflexivity|].
    apply Hk. exists (float_of_decimal (py "10")).
    split; [vm_compute; now left | vm_compute; reflexivity].
Defined.

(** ** Output sorter *)

Lemma In_add_key (x k : str) (l : list str) : In x (add_key l k) <-> In x l \/ x = k.
Proof.
  unfold add_key. destruct (existsb (str_eqb k) l) eqn:E.
  - apply existsb_str_eqb_In in E. split; [tauto|]. intros [?| ->]; assumption.
  - rewrite in_app_iff. simpl. intuition congruence.
Qed.

Lemma In_fold_add_key (x : str) (l acc : list str) :
  In x (fold_left add_key l acc) <-> In x acc \/ In x l.
Proof.
  revert acc. induction l as [|k t IH]; intros acc; simpl; [tauto|].
  rewrite IH, In_add_key. intuition congruence.
Qed.

Lemma In_first_occurrences (x : str) (l : list str) :
  In x (first_occurrences l) <-> In x l.
Proof. unfold first_occurrences. rewrite In_fold_add_key. simpl. tauto. Qed.

Section SorterFacts.
Variable D : Type.
Implicit Types (formatted_data : dict str D) (drugs_order : list str).

Lemma keys_normalized_data formatted_data (x : str) :
  In x (dict_keys (normalized_data_of formatted_data))
  <-> In x (map normalize (dict_keys formatted_data)).
Proof.
  unfold normalized_data_of.
  assert (G : forall (l acc : dict str D),
             In x (dict_keys (fold_left
                    (fun nd sd => dict_set str_eqb (normalize (fst sd)) (snd sd) nd) l acc))
             <-> In x (dict_keys acc) \/ In x (map normalize (dict_keys l))).
  { induction l as [|sd t IH]; intros acc; simpl; [tauto|].
    rewrite IH, dict_keys_set, In_add_key. intuition congruence. }
  rewrite G. simpl. tauto.
Qed.

Lemma keys_drugs_lookup drugs_order (x : str) :
  In x (dict_keys (drugs_lookup_of drugs_order)) <-> In x (map normalize drugs_order).
Proof.
  unfold drugs_lookup_of.
  assert (G : forall (l : list str) (acc : dict str str),
             In x (dict_keys (fold_left
                    (fun lookup pname => dict_set str_eqb (normalize pname) pname lookup) l acc))
             <-> In x (dict_keys acc) \/ In x (map normalize l)).
  { induction l as [|p t IH]; intros acc; simpl; [tauto|].
    rewrite IH, dict_keys_set, In_add_key. intuition congruence. }
  rewrite G. simpl. tauto.
Qed.

Lemma canonical_step formatted_data (pretty_name : str) (out : dict str D) :
  dict_keys (add_canonical (normalized_data_of formatted_data) out pretty_name)
  = if matches_label (dict_keys formatted_data) pretty_name
    then add_key (dict_keys out) pretty_name
    else dict_keys out.
Proof.
  unfold add_canonical, matches_label.
  destruct (dict_get str_eqb (normalize pretty_name) (normalized_data_of formatted_data))
    as [data|] eqn:E.
  - rewrite dict_keys_set.
    assert (H : In (normalize pretty_name) (map normalize (dict_keys formatted_data))).
    { apply keys_normalized_data. apply dict_mem_iff. unfold dict_mem. now rewrite E. }
    apply existsb_str_eqb_In in H. now rewrite H.
  - apply dict_get_None_iff in E. rewrite keys_normalized_data in E.
    destruct (existsb _ _) eqn:X; [|reflexivity].
    apply existsb_str_eqb_In in X. contradiction.
Qed.

Lemma canonical_keys formatted_data drugs_order (out : dict str D) :
  dict_keys (fold_left (add_canonical (normalized_data_of formatted_data)) drugs_order out)
  = fold_left add_key
      (filter (matches_label (dict_keys formatted_data)) drugs_order) (dict_keys out).
Proof.
  revert out. induction drugs_order as [|p t IH]; intros out; simpl; [reflexivity|].
  rewrite IH, canonical_step.
  now destruct (matches_label (dict_keys formatted_data) p).
Qed.

Lemma unknown_keys drugs_order (l : dict str D) (out : dict str D) :
  NoDup (dict_keys l) ->
  (forall sub, In sub (dict_keys l) -> known_label drugs_order sub = false ->
               ~ In sub (dict_keys out)) ->
  dict_keys (fold_left (add_unknown drugs_order (drugs_lookup_of drugs_order)) l out)
  = dict_keys out
    ++ filter (fun sub => negb (known_label drugs_order sub)) (dict_keys l).
Proof.
  revert out. induction l as [|[sub data] t IH]; intros out Hnd Hout;
    cbn [fold_left].
  - simpl. now rewrite app_nil_r.
  - change (dict_keys ((sub, data) :: t)) with (sub :: dict_keys t) in *.
    cbn [filter].
    inversion Hnd as [|? ? Hnot Hnd']; subst.
    unfold add_unknown at 2. fold (known_label drugs_order sub).
    destruct (known_label drugs_order sub) eqn:Hk; cbn [negb].
    + apply IH; [exact Hnd'|]. intros s Hs. apply Hout. now right.
    + assert (Hl : dict_get str_eqb (normalize sub) (drugs_lookup_of drugs_order) = None).
      { apply dict_get_None_iff. rewrite keys_drugs_lookup. intros C.
        apply existsb_str_eqb_In in C. unfold known_label in Hk. congruence. }
      rewrite Hl.
      assert (Hfresh : ~ In sub (dict_keys out)) by (apply Hout; [now left | exact Hk]).
      rewrite IH; [|exact Hnd'|].
      * rewrite dict_keys_set. unfold add_key.
        destruct (existsb (str_eqb sub) (dict_keys out)) eqn:X.
        { apply existsb_str_eqb_In in X. contradiction. }
        now rewrite <- app_assoc.
      * intros s Hs Hks. rewrite dict_keys_set, In_add_key.
        intros [C| ->]; [|contradiction].
        revert C. apply Hout; [now right | exact Hks].
Qed.

(** C6. The keys of the final output are, first, the canonical pretty
    names whose normal form is that of some aggregated raw label, in
    the order of the canonical list (a name listed twice appears once,
    at its first place), and then the raw labels whose normal form is
    that of no canonical name, in the order in which the aggregate
    holds them. *)
Theorem output_ordering formatted_data drugs_order :
  NoDup (dict_keys formatted_data) ->
  dict_keys (final_output_of drugs_order (drugs_lookup_of drugs_order) formatted_data)
  = first_occurrences (filter (matches_label (dict_keys formatted_data)) drugs_order)
    ++ filter (fun sub => negb (known_label drugs_order sub)) (dict_keys formatted_data).
Proof.
  intros Hnd. unfold final_output_of.
  rewrite unknown_keys; [|exact Hnd|].
  - now rewrite canonical_keys.
  - intros sub _ Hk. rewrite canonical_keys. simpl.
    fold (first_occurrences (filter (matches_label (dict_keys formatted_data)) drugs_order)).
    rewrite In_first_occurrences, filter_In. intros [Hin _].
    assert (C : known_label drugs_order sub = true).
    { apply existsb_str_eqb_In. now apply in_map. }
    congruence.
Qed.
End SorterFacts.

Lemma output_ordering_witness :
  NoDup (map py ["Psilocybin"; "LSD"; "Unknown-X"]%string)
  /\ dict_keys (final_output_of (map py ["LSD"; "Psilocybin"]%string)
                  (drugs_lookup_of (map py ["LSD"; "Psilocybin"]%string))
                  (map (fun s => (py s, tt)) ["Psilocybin"; "LSD"; "Unknown-X"]%string))
     = map py ["LSD"; "Psilocybin"; "Unknown-X"]%string.
Proof.
  assert (Hnd : NoDup (map py ["Psilocybin"; "LSD"; "Unknown-X"]%string)).
  { repeat constructor; simpl; intuition discriminate. }
  split; [exact Hnd|].
  rewrite (output_ordering unit
             (map (fun s => (py s, tt)) ["Psilocybin"; "LSD"; "Unknown-X"]%string)
             (map py ["LSD"; "Psilocybin"]%string) Hnd).
  vm_compute. reflexivity.
Defined.

(** ** Progress ledger *)

Section LedgerFacts.
Variable json : Type.
Variable json_loads : str -> option json.
Variable empty_object : json.
Variable PROGRESS_FILE : str.

Lemma load_progress_missing (fs : filesystem) :
  fs PROGRESS_FILE = None ->
  load_progress json_loads empty_object PROGRESS_FILE fs = Return empty_object.
Proof. unfold load_progress. now intros ->. Qed.

Lemma load_progress_valid (fs : filesystem) (bytes : list N) (text : str) (v : json) :
  fs PROGRESS_FILE = Some bytes -> utf8_decode bytes = Some text ->
  json_loads text = Some v ->
  load_progress json_loads empty_object PROGRESS_FILE fs = Return v.
Proof. unfold load_progress. now intros -> -> ->. Qed.

Lemma load_progress_json_error (fs : filesystem) (bytes : list N) (text : str) :
  fs PROGRESS_FILE = Some bytes -> utf8_decode bytes = Some text ->
  json_loads text = None ->
  load_progress json_loads empty_object PROGRESS_FILE fs = Return empty_object.
Proof. unfold load_progress. now intros -> -> ->. Qed.

(** C8 at the failing input: a ledger file that holds the single byte
    0xFF is not valid UTF-8, so reading it raises [UnicodeDecodeError],
    which [load_progress] does not catch. *)
Theorem load_progress_undecodable_raises :
  load_progress json_loads empty_object PROGRESS_FILE
                (single_file PROGRESS_FILE [255%N])
  = Raise UnicodeDecodeError.
Proof.
  unfold load_progress, single_file. rewrite str_eqb_refl. reflexivity.
Qed.
End LedgerFacts.

(** ** Resuming a run *)

Lemma queue_spec (all_report_urls : list str) (progress : ledger) (u : str) :
  In u (urls_to_scrape all_report_urls progress)
  <-> In u all_report_urls /\ dict_get str_eqb u progress <> Some DONE.
Proof.
  unfold urls_to_scrape. rewrite filter_In.
  destruct (dict_get str_eqb u progress) as [st|]; [|intuition congruence].
  destruct (str_eqb st DONE) eqn:E; simpl.
  - apply str_eqb_eq in E. subst. intuition congruence.
  - apply str_eqb_neq in E. intuition congruence.
Qed.

Lemma corpus_has_append_same (a : corpus) (item : dose_record) :
  corpus_has (append_dose a item) item.
Proof.
  unfold corpus_has, append_dose, dict_get_default.
  rewrite dict_get_set_same, dict_get_set_same. apply in_or_app. right. now left.
Qed.

Lemma corpus_has_append_other (a : corpus) (item other : dose_record) :
  corpus_has a item -> corpus_has (append_dose a other) item.
Proof.
  unfold corpus_has, append_dose, dict_get_default. intros H.
  destruct (list_eq_dec N.eq_dec (substance item) (substance other)) as [Es|Ns].
  - rewrite Es in *. rewrite dict_get_set_same.
    destruct (list_eq_dec N.eq_dec (method item) (method other)) as [Em|Nm].
    + rewrite Em in *. rewrite dict_get_set_same. apply in_or_app. now left.
    + rewrite dict_get_set_other by exact Nm. exact H.
  - rewrite dict_get_set_other by exact Ns. exact H.
Qed.

Lemma corpus_has_fold_append (l : list dose_record) (a : corpus) (item : dose_record) :
  corpus_has a item \/ In item l -> corpus_has (fold_left append_dose l a) item.
Proof.
  revert a. induction l as [|x t IH]; intros a; simpl.
  - intros [H|[]]. exact H.
  - intros [H|[->|H]]; apply IH.
    + left. now apply corpus_has_append_other.
    + left. apply corpus_has_append_same.
    + now right.
Qed.

Lemma corpus_has_fold_merge (fs : list temp_file) (a : corpus) (item : dose_record) :
  corpus_has a item
  \/ (exists url doses, In (Report url doses) fs /\ In item doses) ->
  corpus_has (fold_left merge_file fs a) item.
Proof.
  revert a. induction fs as [|f t IH]; intros a; simpl.
  - intros [H|(url & doses & [] & _)]. exact H.
  - intros [H|(url & doses & [->|Hin] & Hitem)]; apply IH.
    + left. destruct f; simpl; [|exact H]. apply corpus_has_fold_append. now left.
    + left. simpl. apply corpus_has_fold_append. now right.
    + right. now exists url, doses.
Qed.

(** The merge step replays every file of the report store, whatever the
    ledger says. *)
Lemma merge_replays_every_file (temp_files : list temp_file) (url : str)
      (doses : list dose_record) (item : dose_record) :
  In (Report url doses) temp_files -> In item doses ->
  corpus_has (merge temp_files) item.
Proof.
  intros Hf Hi. unfold merge. apply corpus_has_fold_merge. right. now exists url, doses.
Qed.

Section RunFacts.
Variable md5_hex : str -> str.
Variable web : str -> response.
Variable disk : str -> write.

Lemma process_report_other_file (s : run_state) (v : str) (id : str) :
  get_report_id md5_hex v <> id ->
  dict_get str_eqb id (files_of (process_report md5_hex web disk s v))
  = dict_get str_eqb id (files_of s).
Proof.
  intros Hne. unfold process_report.
  destruct (web v); simpl; try reflexivity.
  destruct (disk v); simpl; try reflexivity.
  - unfold save_temp_report. apply dict_get_set_other. congruence.
  - apply dict_get_set_other. congruence.
Qed.

Lemma scrape_other_file (schedule : list str) (s : run_state) (id : str) :
  (forall v, In v schedule -> get_report_id md5_hex v <> id) ->
  dict_get str_eqb id (files_of (scrape md5_hex web disk schedule s))
  = dict_get str_eqb id (files_of s).
Proof.
  unfold scrape. revert s. induction schedule as [|v t IH]; intros s H; simpl.
  - reflexivity.
  - rewrite IH by (intros w Hw; apply H; now right).
    apply process_report_other_file. apply H. now left.
Qed.

(** C5, amended. If the ledger marks [u] as done when the run starts,
    [u] is not in the scrape queue, while every found URL that is
    absent from the ledger or marked failed or failed_blocked is; and
    if no queued URL has the report identifier of [u], the file stored
    for [u] is still in the report store when the run merges, and each
    of its records is in the rebuilt corpus. *)
Theorem resume_correctness (all_report_urls : list str) (s : run_state) (u : str) :
  dict_get str_eqb u (progress_of s) = Some DONE ->
  let queue := urls_to_scrape all_report_urls (progress_of s) in
  ~ In u queue
  /\ (forall v, In v all_report_urls ->
                dict_get str_eqb v (progress_of s) = None
                \/ dict_get str_eqb v (progress_of s) = Some FAILED
                \/ dict_get str_eqb v (progress_of s) = Some FAILED_BLOCKED ->
                In v queue)
  /\ forall schedule,
      Permutation schedule queue ->
      (forall v, In v queue -> get_report_id md5_hex v <> get_report_id md5_hex u) ->
      forall url doses,
        dict_get str_eqb (get_report_id md5_hex u) (files_of s) = Some (Report url doses) ->
        dict_get str_eqb (get_report_id md5_hex u)
                 (files_of (scrape md5_hex web disk schedule s)) = Some (Report url doses)
        /\ forall item, In item doses ->
                        corpus_has (run_corpus md5_hex web disk schedule s) item.
Proof.
  intros Hdone queue. split; [|split].
  - unfold queue. rewrite queue_spec. intros [_ C]. contradiction.
  - intros v Hv Hst. unfold queue. apply queue_spec. split; [exact Hv|].
    destruct Hst as [E|[E|E]]; rewrite E; discriminate.
  - intros schedule Hperm Hids url doses Hfile.
    assert (Hkept : dict_get str_eqb (get_report_id md5_hex u)
                             (files_of (scrape md5_hex web disk schedule s))
                    = Some (Report url doses)).
    { rewrite scrape_other_file; [exact Hfile|].
      intros v Hv. apply Hids. now apply (Permutation_in _ Hperm). }
    split; [exact Hkept|].
    intros item Hitem. unfold run_corpus.
    apply merge_replays_every_file with (url := url) (doses := doses); [|exact Hitem].
    apply dict_get_In in Hkept.
    change (Report url doses) with (snd (get_report_id md5_hex u, Report url doses)).
    now apply in_map.
Qed.
End RunFacts.

(** C5, as stated, fails: a queued URL with the report identifier of a
    done URL overwrites the file stored for it, and the records of that
    file are gone from the corpus. *)
Lemma resume_loses_overwritten_file :
  dict_get str_eqb url_a (progress_of resumed_state) = Some DONE
  /\ dict_get str_eqb (get_report_id (fun url => url) url_a) (files_of resumed_state)
     = Some (Report url_a [stored_item])
  /\ urls_to_scrape [url_a; url_b] (progress_of resumed_state) = [url_b]
  /\ ~ corpus_has (run_corpus (fun url => url) (fun _ => Page []) (fun _ => Written) [url_b] resumed_state)
                  stored_item.
Proof.
  repeat split; try (vm_compute; reflexivity).
  vm_compute. intros [].
Qed.

Lemma resume_correctness_witness :
  dict_get str_eqb url_a (progress_of resumed_state) = Some DONE
  /\ ~ In url_a (urls_to_scrape [url_a] (progress_of resumed_state))
  /\ corpus_has (run_corpus (fun url => url) (fun _ => Page []) (fun _ => Written) [] resumed_state)
                stored_item.
Proof.
  assert (Hd : dict_get str_eqb url_a (progress_of resumed_state) = Some DONE)
    by (vm_compute; reflexivity).
  destruct (resume_correctness (fun url => url) (fun _ => Page []) (fun _ => Written) [url_a]
                               resumed_state url_a Hd) as (Hq & _ & Hrun).
  split; [exact Hd|]. split; [exact Hq|].
  assert (P : Permutation [] (urls_to_scrape [url_a] (progress_of resumed_state)))
    by (vm_compute; constructor).
  assert (I : forall v, In v (urls_to_scrape [url_a] (progress_of resumed_state)) ->
                        get_report_id (fun url => url) v
                        <> get_report_id (fun url => url) url_a).
  { intros v Hv. exfalso. revert Hv. vm_compute. tauto. }
  assert (F : dict_get str_eqb (get_report_id (fun url => url) url_a)
                       (files_of resumed_state)
              = Some (Report url_a [stored_item])) by (vm_compute; reflexivity).
  destruct (Hrun [] P I url_a [stored_item] F) as [_ Hitems].
  apply Hitems. now left.
Defined.

(** ** The matcher finds matches *)

Lemma star_greedy_sound (A : Type) (p : N -> bool) (s : str) (k : str -> option A) (x : A) :
  star_greedy p s k = Some x ->
  exists w s', s = w ++ s' /\ forallb p w = true /\ k s' = Some x.
Proof.
  induction s as [|c t IH]; simpl.
  - intros H. now exists [], [].
  - destruct (p c) eqn:Ep.
    + destruct (star_greedy p t k) as [y|] eqn:E.
      * intros [= ->]. destruct (IH eq_refl) as (w & s' & -> & Hw & Hk).
        exists (c :: w), s'. simpl. now rewrite Ep, Hw.
      * intros H. now exists [], (c :: t).
    + intros H. now exists [], (c :: t).
Qed.

Lemma star_lazy_sound (A : Type) (p : N -> bool) (s : str) (k : str -> option A) (x : A) :
  star_lazy p s k = Some x ->
  exists w s', s = w ++ s' /\ forallb p w = true /\ k s' = Some x.
Proof.
  induction s as [|c t IH]; simpl.
  - destruct (k []) eqn:E; [|discriminate]. intros [= ->]. now exists [], [].
  - destruct (k (c :: t)) as [y|] eqn:E.
    + intros [= ->]. now exists [], (c :: t).
    + destruct (p c) eqn:Ep; [|discriminate].
      intros H. destruct (IH H) as (w & s' & -> & Hw & Hk).
      exists (c :: w), s'. simpl. now rewrite Ep, Hw.
Qed.

Lemma firstn_prefix (w s : str) : firstn (length (w ++ s) - length s) (w ++ s) = w.
Proof.
  rewrite length_app, Nat.add_sub.
  rewrite firstn_app, Nat.sub_diag, firstn_all. simpl. apply app_nil_r.
Qed.

Lemma rmatch_sound (A : Type) (r : regex) :
  forall (s : str) (g : groups) (k : str -> groups -> option A) (x : A),
    rmatch r s g k = Some x ->
    exists w s' g', s = w ++ s' /\ Matches r w s' g g' /\ k s' g' = Some x.
Proof.
  induction r as [|p|r1 IH1 r2 IH2|r1 IH1 r2 IH2|r1 IH1|lazy p|i r1 IH1|];
    intros s g k x; simpl.
  - intros H. exists [], s, g. repeat split; [constructor | exact H].
  - destruct s as [|c t]; [discriminate|]. destruct (p c) eqn:Ep; [|discriminate].
    intros H. exists [c], t, g. repeat split; [now constructor | exact H].
  - intros H. destruct (IH1 _ _ _ _ H) as (w1 & s1 & g1 & -> & M1 & H1).
    destruct (IH2 _ _ _ _ H1) as (w2 & s2 & g2 & -> & M2 & H2).
    exists (w1 ++ w2), s2, g2. rewrite app_assoc. repeat split; [|exact H2].
    econstructor; eassumption.
  - destruct (rmatch r1 s g k) as [y|] eqn:E.
    + intros [= ->]. destruct (IH1 _ _ _ _ E) as (w & s' & g' & -> & M & H).
      exists w, s', g'. repeat split; [now apply M_AltL | exact H].
    + intros H2. destruct (IH2 _ _ _ _ H2) as (w & s' & g' & -> & M & H).
      exists w, s', g'. repeat split; [now apply M_AltR | exact H].
  - destruct (rmatch r1 s g k) as [y|] eqn:E.
    + intros [= ->]. destruct (IH1 _ _ _ _ E) as (w & s' & g' & -> & M & H).
      exists w, s', g'. repeat split; [now apply M_OptSome | exact H].
    + intros H. exists [], s, g. repeat split; [apply M_OptNone | exact H].
  - destruct lazy; intros H;
      [apply star_lazy_sound in H | apply star_greedy_sound in H];
      destruct H as (w & s' & -> & Hw & Hk);
      exists w, s', g; (repeat split; [now constructor | exact Hk]).
  - intros H. destruct (IH1 _ _ _ _ H) as (w & s' & g' & -> & M & Hk).
    rewrite firstn_prefix in Hk.
    exists w, s', (set_group i w g'). repeat split; [now constructor | exact Hk].
  - destruct s as [|c [|d t]].
    + intros H. exists [], [], g. repeat split; [constructor; now left | exact H].
    + destruct (N.eqb_spec c 10) as [->|]; [|discriminate].
      intros H. exists [], [10%N], g. repeat split; [constructor; now right | exact H].
    + discriminate.
Qed.

Lemma re_match_sound (r : regex) (s : str) (g : groups) (s' : str) :
  re_match r s = Some (g, s') -> exists w, s = w ++ s' /\ Matches r w s' [] g.
Proof.
  unfold re_match. intros H.
  destruct (rmatch_sound _ _ _ _ _ _ H) as (w & s1 & g1 & -> & M & [= -> ->]).
  now exists w.
Qed.

Lemma findall_sound (r : regex) (text : str) (g : groups) :
  In g (findall r text) -> exists w rest, Matches r w rest [] g.
Proof.
  unfold findall. generalize 0%nat as skip.
  induction text as [|c t IH]; intros skip; simpl.
  - destruct skip; [|intros []].
    destruct (re_match r []) as [[g0 s']|] eqn:E; [|intros []].
    intros [<-|[]]. apply re_match_sound in E. destruct E as (w & _ & M).
    now exists w, s'.
  - destruct skip; [|apply IH].
    destruct (re_match r (c :: t)) as [[g0 s']|] eqn:E; [|apply IH].
    intros [<-|H]; [|now apply IH in H].
    apply re_match_sound in E. destruct E as (w & _ & M). now exists w, s'.
Qed.

(** ** Characters under [re.IGNORECASE] *)

Ltac decide_cmp :=
  repeat match goal with
    | |- context [(?a <=? ?b)%N] =>
        first [ replace (a <=? b)%N with true by (symmetry; apply N.leb_le; lia)
              | replace (a <=? b)%N with false by (symmetry; apply N.leb_gt; lia) ]
    | |- context [(?a <? ?b)%N] =>
        first [ replace (a <? b)%N with true by (symmetry; apply N.ltb_lt; lia)
              | replace (a <? b)%N with false by (symmetry; apply N.ltb_ge; lia) ]
    | |- context [(?a =? ?b)%N] =>
        first [ replace (a =? b)%N with true by (symmetry; apply N.eqb_eq; lia)
              | replace (a =? b)%N with false by (symmetry; apply N.eqb_neq; lia) ]
    end.

Lemma simple_lower_spec (c : N) :
  ((65 <= c <= 90 \/ (192 <= c <= 222 /\ c <> 215)) /\ simple_lower c = c + 32)%N
  \/ (c = 304 /\ simple_lower c = 105)%N
  \/ (c = 924 /\ simple_lower c = 956)%N
  \/ (c = 8490 /\ simple_lower c = 107)%N
  \/ (simple_lower c = c /\ ~ (65 <= c <= 90)%N /\ ~ (192 <= c <= 222 /\ c <> 215)%N
      /\ c <> 304 /\ c <> 924 /\ c <> 8490)%N.
Proof.
  unfold simple_lower, is_ascii_upper, is_latin1_upper.
  destruct (N.leb_spec 65 c), (N.leb_spec c 90), (N.leb_spec 192 c),
    (N.leb_spec c 222), (N.eqb_spec c 215), (N.eqb_spec c 304),
    (N.eqb_spec c 924), (N.eqb_spec c 8490); simpl; lia.
Qed.

Lemma ci_lit_spec (p c : N) :
  ci_lit p c = true ->
  simple_lower c = simple_lower p
  \/ (simple_lower p = 105 /\ simple_lower c = 305)%N
  \/ (simple_lower p = 305 /\ simple_lower c = 105)%N
  \/ (simple_lower p = 115 /\ simple_lower c = 383)%N
  \/ (simple_lower p = 383 /\ simple_lower c = 115)%N
  \/ (simple_lower p = 181 /\ simple_lower c = 956)%N
  \/ (simple_lower p = 956 /\ simple_lower c = 181)%N.
Proof.
  unfold ci_lit, fixes.
  set (lo := simple_lower p). set (l := simple_lower c).
  destruct (N.eqb_spec l lo) as [->|Hne]; [tauto|]. simpl.
  destruct (N.eqb_spec lo 105); [simpl; rewrite orb_false_r, N.eqb_eq; lia|].
  destruct (N.eqb_spec lo 305); [simpl; rewrite orb_false_r, N.eqb_eq; lia|].
  destruct (N.eqb_spec lo 115); [simpl; rewrite orb_false_r, N.eqb_eq; lia|].
  destruct (N.eqb_spec lo 383); [simpl; rewrite orb_false_r, N.eqb_eq; lia|].
  destruct (N.eqb_spec lo 181); [simpl; rewrite orb_false_r, N.eqb_eq; lia|].
  destruct (N.eqb_spec lo 956); [simpl; rewrite orb_false_r, N.eqb_eq; lia|].
  simpl. discriminate.
Qed.

(** A character that matches an ASCII letter or sign of a pattern and is
    none of U+0130, U+0131, U+017F lower-cases as that letter does. *)
Lemma lower_char_ci (p c : N) :
  (p < 128)%N -> ci_lit p c = true -> odd_letter c = false ->
  lower_char c = lower_char p.
Proof.
  intros Hp Hci Hodd. unfold odd_letter in Hodd.
  apply orb_false_iff in Hodd. destruct Hodd as [Hodd H383].
  apply orb_false_iff in Hodd. destruct Hodd as [H304 H305].
  apply N.eqb_neq in H304, H305, H383.
  unfold lower_char.
  replace (c =? 304)%N with false by (symmetry; now apply N.eqb_neq).
  replace (p =? 304)%N with false by (symmetry; apply N.eqb_neq; lia).
  f_equal.
  apply ci_lit_spec in Hci.
  pose proof (simple_lower_spec c) as Hc. pose proof (simple_lower_spec p) as Hq.
  lia.
Qed.

Lemma In_nrange (a b p : N) : In p (nrange a b) -> (a <= p <= b)%N.
Proof.
  unfold nrange. rewrite in_map_iff. intros (n & <- & Hn).
  apply in_seq in Hn. lia.
Qed.

Lemma ci_range_spec (a b c : N) :
  ci_range a b c = true -> exists p, (a <= p <= b)%N /\ ci_lit p c = true.
Proof.
  unfold ci_range. rewrite existsb_exists. intros (p & Hin & H).
  exists p. split; [now apply In_nrange | exact H].
Qed.

Lemma isword_letter (c : N) :
  (65 <= c <= 90 \/ 97 <= c <= 122 \/ 48 <= c <= 57
   \/ c = 304 \/ c = 305 \/ c = 383 \/ c = 8490)%N ->
  isword c = true.
Proof.
  intros [H|[H|[H|[->|[->|[->| ->]]]]]]; try reflexivity;
    unfold isword, is_ascii_upper, is_ascii_lower, is_ascii_digit;
    decide_cmp; reflexivity.
Qed.

Lemma isspace_not_letter (c : N) :
  (97 <= c <= 122 \/ 224 <= c <= 254 \/ c = 105 \/ c = 956 \/ c = 107)%N ->
  isspace c = false.
Proof.
  intros [H|[H|[->|[->| ->]]]]; try reflexivity;
    unfold isspace; decide_cmp; reflexivity.
Qed.

Lemma isspace_simple_lower (c : N) : isspace (simple_lower c) = true -> isspace c = true.
Proof.
  intros H.
  destruct (simple_lower_spec c) as [[Hr E]|[[-> E]|[[-> E]|[[-> E]|[E _]]]]];
    rewrite E in H; try exact H; try discriminate H.
  rewrite isspace_not_letter in H by lia. discriminate.
Qed.

Lemma substance_class_kept (c : N) :
  substance_class c = true ->
  isspace c = true \/ (isspace c = false /\ (isword c = true \/ c = 44%N \/ c = 45%N)).
Proof.
  intros H. destruct (isspace c) eqn:Esp; [now left|]. right. split; [reflexivity|].
  unfold substance_class in H. rewrite !orb_true_iff in H.
  destruct H as [[[[[H|H]|H]|H]|H]|H].
  - apply ci_range_spec in H. destruct H as (p & Hp & H).
    apply ci_lit_spec in H. left. apply isword_letter.
    pose proof (simple_lower_spec c). pose proof (simple_lower_spec p). lia.
  - apply ci_range_spec in H. destruct H as (p & Hp & H).
    apply ci_lit_spec in H. left. apply isword_letter.
    pose proof (simple_lower_spec c). pose proof (simple_lower_spec p). lia.
  - apply ci_range_spec in H. destruct H as (p & Hp & H).
    apply ci_lit_spec in H. left. apply isword_letter.
    pose proof (simple_lower_spec c). pose proof (simple_lower_spec p). lia.
  - apply ci_lit_spec in H. right. left.
    pose proof (simple_lower_spec c). pose proof (simple_lower_spec 44%N). lia.
  - apply ci_lit_spec in H. right. right.
    pose proof (simple_lower_spec c). pose proof (simple_lower_spec 45%N). lia.
  - apply isspace_simple_lower in H. congruence.
Qed.

(** ** Shape of the matches of the dose pattern *)

Ltac inv H := inversion H; subst; clear H.

Lemma Matches_Plus (lazy : bool) (p : N -> bool) (w s : str) (g g' : groups) :
  Matches (Plus lazy p) w s g g' -> g' = g /\ w <> [] /\ forallb p w = true.
Proof.
  unfold Plus. intros H. inv H.
  match goal with H : Matches (Chr _) _ _ _ _ |- _ => inv H end.
  match goal with H : Matches (Star _ _) _ _ _ _ |- _ => inv H end.
  split; [reflexivity|]. split; [discriminate|].
  simpl. apply andb_true_iff. split; assumption.
Qed.

Lemma Matches_number (dot : N -> bool) (w s : str) (g g' : groups) :
  Matches (number_re dot) w s g g' ->
  g' = g /\
  exists i f,
    i <> [] /\ forallb isdecimal i = true /\ forallb isdecimal f = true /\
    (w = i \/ (f <> [] /\ exists d, dot d = true /\ w = i ++ [d] ++ f)).
Proof.
  unfold number_re. intros H. inv H.
  match goal with H : Matches (Plus _ _) _ _ _ _ |- _ =>
    apply Matches_Plus in H; destruct H as (-> & Hi & Hdi) end.
  match goal with H : Matches (Opt _) _ _ _ _ |- _ => inv H end.
  - match goal with H : Matches (Cat _ _) _ _ _ _ |- _ => inv H end.
    match goal with H : Matches (Chr _) _ _ _ _ |- _ => inv H end.
    match goal with H : Matches (Plus _ _) _ _ _ _ |- _ =>
      apply Matches_Plus in H; destruct H as (-> & Hf & Hdf) end.
    split; [reflexivity|]. exists w1, w3. repeat split; try assumption.
    right. split; [assumption|]. eexists. split; [eassumption | reflexivity].
  - split; [reflexivity|]. exists w1, []. repeat split; try assumption.
    left. apply app_nil_r.
Qed.

Lemma Matches_word_ci (p : str) :
  forall (w s : str) (g g' : groups),
    Matches (word_ci p) w s g g' -> g' = g /\ ci_word p w.
Proof.
  induction p as [|c t IH]; intros w s g g' H; simpl in H.
  - inv H. split; [reflexivity | constructor].
  - inv H.
    match goal with H : Matches (Chr _) _ _ _ _ |- _ => inv H end.
    match goal with H : Matches (word_ci _) _ _ _ _ |- _ =>
      apply IH in H; destruct H as [-> Hw] end.
    split; [reflexivity|]. now constructor.
Qed.

Lemma Matches_alts (l : list regex) (w s : str) (g g' : groups) :
  Matches (alts l) w s g g' -> exists r, In r l /\ Matches r w s g g'.
Proof.
  induction l as [|r t IH]; simpl.
  - intros H. inv H. discriminate.
  - destruct t as [|r' t'].
    + intros H. exists r. split; [now left | exact H].
    + intros H. inv H.
      * exists r. split; [now left | assumption].
      * match goal with H : Matches _ _ _ _ _ |- _ =>
          destruct (IH H) as (r0 & Hin & M) end.
        exists r0. split; [now right | exact M].
Qed.

Lemma ci_word_app (p1 p2 w1 w2 : str) :
  ci_word p1 w1 -> ci_word p2 w2 -> ci_word (p1 ++ p2) (w1 ++ w2).
Proof. unfold ci_word. apply Forall2_app. Qed.

Lemma Matches_plural (stem : str) (w s : str) (g g' : groups) :
  Matches (Cat (word_ci stem) (Opt (Chr (ci_lit 115)))) w s g g' ->
  g' = g /\ (ci_word stem w \/ ci_word (stem ++ [115%N]) w).
Proof.
  intros H. inv H.
  match goal with H : Matches (word_ci _) _ _ _ _ |- _ =>
    apply Matches_word_ci in H; destruct H as [-> Hw] end.
  match goal with H : Matches (Opt _) _ _ _ _ |- _ => inv H end.
  - match goal with H : Matches (Chr _) _ _ _ _ |- _ => inv H end.
    split; [reflexivity|]. right. apply ci_word_app; [assumption|].
    repeat constructor. assumption.
  - split; [reflexivity|]. left. now rewrite app_nil_r.
Qed.

Lemma Matches_units (w s : str) (g g' : groups) :
  Matches (alts UNITS) w s g g' ->
  g' = g /\ exists u, In u UNIT_WORDS /\ ci_word u w.
Proof.
  intros H. apply Matches_alts in H. destruct H as (r & Hin & M).
  unfold UNITS in Hin. cbn [In] in Hin.
  destruct Hin as [<-|[<-|[<-|[<-|[<-|[<-|[<-|[]]]]]]]];
    try (apply Matches_word_ci in M; destruct M as [-> Hw];
         split; [reflexivity|]; eexists; split; [|exact Hw]; simpl; tauto).
  - apply Matches_plural in M. destruct M as [-> [Hw|Hw]];
      (split; [reflexivity|]; eexists; split; [|exact Hw]; simpl; tauto).
  - apply Matches_plural in M. destruct M as [-> [Hw|Hw]];
      (split; [reflexivity|]; eexists; split; [|exact Hw]; simpl; tauto).
Qed.

Lemma Matches_routes (w s : str) (g g' : groups) :
  Matches (alts (map word_ci ROUTES)) w s g g' ->
  g' = g /\ exists r, In r ROUTES /\ ci_word r w.
Proof.
  intros H. apply Matches_alts in H. destruct H as (r & Hin & M).
  apply in_map_iff in Hin. destruct Hin as (route & <- & Hin).
  apply Matches_word_ci in M. destruct M as [-> Hw].
  split; [reflexivity|]. now exists route.
Qed.

Lemma Matches_Cat_inv (r1 r2 : regex) (w s : str) (g g'' : groups) :
  Matches (Cat r1 r2) w s g g'' ->
  exists w1 w2 g',
    w = w1 ++ w2 /\ Matches r1 w1 (w2 ++ s) g g' /\ Matches r2 w2 s g' g''.
Proof. intros H. inv H. eauto 10. Qed.

Lemma Matches_Group_inv (i : nat) (r : regex) (w s : str) (g g'' : groups) :
  Matches (Group i r) w s g g'' ->
  exists g', Matches r w s g g' /\ g'' = set_group i w g'.
Proof. intros H. inv H. eauto. Qed.

Lemma Matches_Star_inv (lazy : bool) (p : N -> bool) (w s : str) (g g' : groups) :
  Matches (Star lazy p) w s g g' -> g' = g /\ forallb p w = true.
Proof. intros H. inv H. auto. Qed.

Lemma Matches_neutral_tail (w s : str) (g g' : groups) :
  Matches (Alt (Cat (Star false isspace) (Chr (ci_lit 40))) EndS) w s g g' -> g' = g.
Proof.
  intros H. inv H.
  - match goal with H : Matches (Cat _ _) _ _ _ _ |- _ => inv H end.
    match goal with H : Matches (Star _ _) _ _ _ _ |- _ => inv H end.
    match goal with H : Matches (Chr _) _ _ _ _ |- _ => inv H end.
    reflexivity.
  - match goal with H : Matches EndS _ _ _ _ |- _ => inv H end. reflexivity.
Qed.

Lemma Matches_dose_pattern (w rest : str) (g : groups) :
  Matches dose_pattern w rest [] g ->
  exists amount unit tok sub_name,
    g = [(1, amount); (2, unit); (3, tok); (4, sub_name)]%nat
    /\ (exists i f,
           i <> [] /\ forallb isdecimal i = true /\ forallb isdecimal f = true /\
           (amount = i \/ (f <> [] /\ exists d, ci_lit 46 d = true
                                               /\ amount = i ++ [d] ++ f)))
    /\ (exists u, In u UNIT_WORDS /\ ci_word u unit)
    /\ (exists r, In r ROUTES /\ ci_word r tok)
    /\ sub_name <> [] /\ forallb substance_class sub_name = true.
Proof.
  unfold dose_pattern. intros H.
  apply Matches_Cat_inv in H. destruct H as (amount & w1 & g1 & -> & H1 & H).
  apply Matches_Group_inv in H1. destruct H1 as (g0 & H1 & ->).
  apply Matches_number in H1. destruct H1 as [-> Hnum].
  apply Matches_Cat_inv in H. destruct H as (sp1 & w2 & g2 & -> & Hs & H).
  apply Matches_Star_inv in Hs. destruct Hs as [-> _].
  apply Matches_Cat_inv in H. destruct H as (unit & w3 & g3 & -> & H2 & H).
  apply Matches_Group_inv in H2. destruct H2 as (g0 & H2 & ->).
  apply Matches_units in H2. destruct H2 as [-> Hunit].
  apply Matches_Cat_inv in H. destruct H as (sp2 & w4 & g4 & -> & Hs & H).
  apply Matches_Star_inv in Hs. destruct Hs as [-> _].
  apply Matches_Cat_inv in H. destruct H as (tok & w5 & g5 & -> & H3 & H).
  apply Matches_Group_inv in H3. destruct H3 as (g0 & H3 & ->).
  apply Matches_routes in H3. destruct H3 as [-> Hroute].
  apply Matches_Cat_inv in H. destruct H as (sp3 & w6 & g6 & -> & Hs & H).
  apply Matches_Star_inv in Hs. destruct Hs as [-> _].
  apply Matches_Cat_inv in H. destruct H as (sub_name & w7 & g7 & -> & H4 & H).
  apply Matches_Group_inv in H4. destruct H4 as (g0 & H4 & ->).
  apply Matches_Plus in H4. destruct H4 as (-> & Hsub & Hcls).
  apply Matches_neutral_tail in H. subst g.
  exists amount, unit, tok, sub_name.
  split; [reflexivity|]. repeat split; assumption.
Qed.

(** ** Records of the extractor *)

Lemma ci_lit_dot (c : N) : ci_lit 46 c = true -> c = 46%N.
Proof.
  intros H. apply ci_lit_spec in H.
  pose proof (simple_lower_spec c). pose proof (simple_lower_spec 46%N). lia.
Qed.

Lemma lower_ci_word (w tok : str) :
  ci_word w tok -> forallb (fun p => (p <? 128)%N) w = true ->
  existsb odd_letter tok = false -> lower tok = lower w.
Proof.
  unfold lower. induction 1 as [|p c w' tok' Hpc _ IH]; [reflexivity|].
  simpl. intros Hw Ht.
  apply andb_true_iff in Hw. destruct Hw as [Hp Hw].
  apply orb_false_iff in Ht. destruct Ht as [Hc Ht].
  apply N.ltb_lt in Hp.
  rewrite (lower_char_ci p c Hp Hpc Hc), (IH Hw Ht). reflexivity.
Qed.

Lemma routes_ascii : forallb (forallb (fun p => (p <? 128)%N)) ROUTES = true.
Proof. reflexivity. Qed.

Lemma lstrip_In (c : N) (s : str) : In c (lstrip s) -> In c s.
Proof.
  induction s as [|d t IH]; simpl; [tauto|].
  destruct (isspace d); [intros H; right; now apply IH | tauto].
Qed.

Lemma strip_In (c : N) (s : str) : In c (strip s) -> In c s.
Proof.
  unfold strip, rstrip. intros H.
  apply in_rev in H. apply lstrip_In in H. apply in_rev in H.
  now apply lstrip_In.
Qed.

Lemma sub_ws_In (c : N) (s : str) (inrun : bool) :
  In c (sub_ws inrun s) -> c = 32%N \/ (In c s /\ isspace c = false).
Proof.
  revert inrun. induction s as [|d t IH]; intros inrun; simpl; [tauto|].
  destruct (isspace d) eqn:E.
  - destruct inrun; simpl.
    + intros H. destruct (IH _ H) as [?|[? ?]]; tauto.
    + intros [<-|H]; [tauto|]. destruct (IH _ H) as [?|[? ?]]; tauto.
  - simpl. intros [<-|H]; [tauto|]. destruct (IH _ H) as [?|[? ?]]; tauto.
Qed.

Lemma sub_ws_head (s : str) :
  match sub_ws true s with
  | [] => True
  | c :: _ => isspace c = false
  end.
Proof.
  induction s as [|d t IH]; simpl; [exact I|].
  destruct (isspace d) eqn:E; [exact IH | exact E].
Qed.

Lemma collapsed_cons (c d : N) (t : str) :
  collapsed (c :: d :: t) = negb (isspace c && isspace d) && collapsed (d :: t).
Proof. reflexivity. Qed.

Lemma sub_ws_collapsed (s : str) (inrun : bool) : collapsed (sub_ws inrun s) = true.
Proof.
  revert inrun. induction s as [|d t IH]; intros inrun; [reflexivity|].
  cbn [sub_ws]. destruct (isspace d) eqn:E.
  - destruct inrun; [apply IH|].
    pose proof (sub_ws_head t) as Hh. pose proof (IH true) as Hc.
    destruct (sub_ws true t) as [|c u]; [reflexivity|].
    rewrite collapsed_cons, Hh, Hc, andb_false_r. reflexivity.
  - pose proof (IH false) as Hc.
    destruct (sub_ws false t) as [|c u]; [reflexivity|].
    rewrite collapsed_cons, E, Hc. reflexivity.
Qed.

Lemma filter_all (X : Type) (f : X -> bool) (l : list X) :
  (forall x, In x l -> f x = true) -> filter f l = l.
Proof.
  induction l as [|x t IH]; intros H; [reflexivity|].
  simpl. rewrite (H x) by now left. f_equal. apply IH. intros y Hy. apply H. now right.
Qed.

Lemma clean_substance_spec (sub_name : str) :
  forallb substance_class sub_name = true ->
  clean_substance sub_name = sub_ws false (strip sub_name)
  /\ collapsed (clean_substance sub_name) = true
  /\ Forall (fun c => c = 32%N
                      \/ (isspace c = false
                          /\ (isword c = true \/ c = 44%N \/ c = 45%N)))
            (clean_substance sub_name).
Proof.
  intros Hcls. rewrite forallb_forall in Hcls.
  assert (Hchars : forall c, In c (sub_ws false (strip sub_name)) ->
                     c = 32%N \/ (isspace c = false
                                  /\ (isword c = true \/ c = 44%N \/ c = 45%N))).
  { intros c Hc. apply sub_ws_In in Hc. destruct Hc as [?|[Hin Hsp]]; [tauto|].
    right. split; [exact Hsp|].
    apply strip_In in Hin. apply Hcls in Hin. apply substance_class_kept in Hin.
    destruct Hin as [C|[_ H]]; [congruence | exact H]. }
  assert (E : clean_substance sub_name = sub_ws false (strip sub_name)).
  { unfold clean_substance. apply filter_all. intros c Hc.
    unfold kept_class. destruct (Hchars c Hc) as [->|[_ [H|[->| ->]]]];
      try reflexivity.
    now rewrite H. }
  split; [exact E|]. rewrite E. split; [apply sub_ws_collapsed|].
  apply Forall_forall. exact Hchars.
Qed.

Lemma record_of_match_groups (amount unit tok sub_name : str) :
  record_of_match [(1, amount); (2, unit); (3, tok); (4, sub_name)]%nat
  = {| substance := clean_substance sub_name;
       dose := amount ++ [32%N] ++ unit;
       method := lower tok |}.
Proof. reflexivity. Qed.

(** C9, amended. Every record of the extractor has a dose made of a
    numeral, one space and a token that spells one of the enumerated
    unit words as the pattern matched it in the text; a method that is
    the lower-cased token that spelled one of the enumerated route
    words, and that is one of these words in lower case whenever the
    token holds none of the letters U+0130, U+0131, U+017F; and a
    substance in which every run of white space is one space and every
    other character is a word character, a comma or a hyphen. *)
Theorem extractor_records (text : str) (rec : dose_record) :
  In rec (extract_doses_from_text text) ->
  (exists amount unit u,
      dose rec = amount ++ py " " ++ unit
      /\ numeral amount /\ In u UNIT_WORDS /\ ci_word u unit)
  /\ (exists tok r,
         In r ROUTES /\ ci_word r tok /\ method rec = lower tok
         /\ (existsb odd_letter tok = false -> In (method rec) (map lower ROUTES)))
  /\ (exists sub_name,
         substance rec = sub_ws false (strip sub_name)
         /\ collapsed (substance rec) = true
         /\ Forall (fun c => c = 32%N
                             \/ (isspace c = false
                                 /\ (isword c = true \/ c = 44%N \/ c = 45%N)))
                   (substance rec)).
Proof.
  unfold extract_doses_from_text. rewrite in_map_iff.
  intros (g & <- & Hg).
  apply findall_sound in Hg. destruct Hg as (w & rest & M).
  apply Matches_dose_pattern in M.
  destruct M as (amount & unit & tok & sub_name & -> & Hnum & Hunit & Hroute & _ & Hcls).
  rewrite record_of_match_groups. cbn [substance dose method]. split; [|split].
  - destruct Hunit as (u & Hu & Hw). exists amount, unit, u.
    split; [reflexivity|]. split; [|split; assumption].
    destruct Hnum as (i & f & Hi & Hdi & Hdf & Hshape).
    exists i, f. repeat split; try assumption.
    destruct Hshape as [->|(Hf & d & Hd & ->)]; [now left|].
    right. split; [exact Hf|]. apply ci_lit_dot in Hd. now subst.
  - destruct Hroute as (r & Hr & Hw). exists tok, r.
    repeat split; try assumption.
    intros Hodd. rewrite (lower_ci_word r tok Hw); [now apply in_map | | exact Hodd].
    pose proof routes_ascii as Ha. rewrite forallb_forall in Ha. now apply Ha.
  - exists sub_name. now apply clean_substance_spec.
Qed.

Lemma extractor_records_witness :
  In {| substance := py "2C-B, HCl"; dose := py "100 MG"; method := py "insufflated" |}
     (extract_doses_from_text (py "took 100MG Insufflated   2C-B, HCl"))
  /\ exists tok r,
      In r ROUTES /\ ci_word r tok /\ py "insufflated" = lower tok
      /\ (existsb odd_letter tok = false -> In (py "insufflated") (map lower ROUTES)).
Proof.
  assert (H : In {| substance := py "2C-B, HCl"; dose := py "100 MG";
                    method := py "insufflated" |}
                 (extract_doses_from_text (py "took 100MG Insufflated   2C-B, HCl")))
    by (vm_compute; now left).
  split; [exact H|].
  exact (proj1 (proj2 (extractor_records _ _ H))).
Defined.

(** C9, as stated, fails: "sc" spelt with the long s matches the route
    alternative SC, and lower-casing keeps the long s, so the method is
    none of the enumerated words. *)
Lemma long_s_route_not_enumerated :
  exists rec,
    In rec (extract_doses_from_text long_s_text)
    /\ method rec = [383%N; 99%N]
    /\ ~ In (method rec) (map lower ROUTES).
Proof.
  exists {| substance := py "DMT"; dose := py "5 mg"; method := [383%N; 99%N] |}.
  split; [vm_compute; now left|]. split; [reflexivity|].
  vm_compute. intros H.
  repeat (destruct H as [H|H]; [discriminate H|]). exact H.
Qed.

(** ** From the extractor to the aggregator *)

(** C10 at the failing input: "5 μg oral LSD", with the Greek letter mu,
    yields the dose "5 μg"; the aggregator's pattern knows the micro
    sign only, discards that dose, and returns [None] for the list that
    holds it. *)
Theorem greek_mu_dose_is_discarded :
  extract_doses_from_text greek_mu_text
  = [ {| substance := py "LSD"; dose := greek_mu_dose; method := py "oral" |} ]
  /\ parse_dose greek_mu_dose = None
  /\ analyze_doses [greek_mu_dose] = Return None.
Proof. repeat split; vm_compute; reflexivity. Qed.

(** ** Where the round trip holds

    The matcher is complete: when a match exists it finds one.  With
    that, every dose of the extractor whose unit is not spelt with the
    Greek letter mu is accepted by the aggregator's parser. *)

Lemma star_greedy_complete (A : Type) (p : N -> bool) (w s : str) (k : str -> option A) :
  forallb p w = true -> k s <> None -> star_greedy p (w ++ s) k <> None.
Proof.
  induction w as [|c t IH]; simpl.
  - intros _ Hk. destruct s as [|d u]; simpl; [exact Hk|].
    destruct (p d); [|exact Hk].
    destruct (star_greedy p u k); [discriminate | exact Hk].
  - intros H Hk. apply andb_true_iff in H. destruct H as [Hc Ht].
    rewrite Hc. specialize (IH Ht Hk).
    destruct (star_greedy p (t ++ s) k); [discriminate | contradiction].
Qed.

Lemma star_lazy_complete (A : Type) (p : N -> bool) (w s : str) (k : str -> option A) :
  forallb p w = true -> k s <> None -> star_lazy p (w ++ s) k <> None.
Proof.
  induction w as [|c t IH]; simpl.
  - intros _ Hk. destruct s as [|d u]; simpl; destruct (k _); congruence.
  - intros H Hk. apply andb_true_iff in H. destruct H as [Hc Ht].
    destruct (k (c :: t ++ s)); [discriminate|]. rewrite Hc. now apply IH.
Qed.

Lemma rmatch_complete (A : Type) (r : regex) (w s : str) (g g' : groups) :
  Matches r w s g g' ->
  forall k : str -> groups -> option A,
    k s g' <> None -> rmatch r (w ++ s) g k <> None.
Proof.
  induction 1 as [s g|p c s g Hp|r1 r2 w1 w2 s g g' g'' M1 IH1 M2 IH2
                  |r1 r2 w s g g' M IH|r1 r2 w s g g' M IH
                  |r w s g g' M IH|r s g|lazy p w s g Hw
                  |i r w s g g' M IH|s g Hs]; intros k Hk; simpl.
  - exact Hk.
  - now rewrite Hp.
  - rewrite <- app_assoc. apply IH1. now apply IH2.
  - specialize (IH k Hk). destruct (rmatch r1 (w ++ s) g k); [discriminate | contradiction].
  - destruct (rmatch r1 (w ++ s) g k); [discriminate | now apply IH].
  - specialize (IH k Hk). destruct (rmatch r (w ++ s) g k); [discriminate | contradiction].
  - destruct (rmatch r s g k); [discriminate | exact Hk].
  - destruct lazy; [apply star_lazy_complete | apply star_greedy_complete]; assumption.
  - apply IH. now rewrite firstn_prefix.
  - destruct Hs as [-> | ->]; exact Hk.
Qed.

Lemma re_match_complete (r : regex) (w s : str) (g : groups) :
  Matches r w s [] g -> re_match r (w ++ s) <> None.
Proof. intros M. unfold re_match. apply (rmatch_complete _ _ _ _ _ _ M). discriminate. Qed.

Lemma nrange_In (a b p : N) : (a <= p <= b)%N -> In p (nrange a b).
Proof.
  intros H. unfold nrange. apply in_map_iff. exists (N.to_nat p).
  split; [apply N2Nat.id|]. apply in_seq. lia.
Qed.

Lemma digit_block (c : N) :
  isdecimal c = true -> exists z, In z nd_zeros /\ (z <= c < z + 10)%N.
Proof.
  unfold isdecimal, decimal_value.
  destruct (find _ nd_zeros) as [z|] eqn:E; [|discriminate]. intros _.
  apply find_some in E. destruct E as [Hin Hz].
  apply andb_true_iff in Hz. destruct Hz as [H1 H2].
  apply N.leb_le in H1. apply N.ltb_lt in H2. now exists z.
Qed.

Lemma digits_transfer (P : N -> bool) :
  forallb (fun z => forallb (fun k => P (z + k)%N) (nrange 0 9)) nd_zeros = true ->
  forall c, isdecimal c = true -> P c = true.
Proof.
  intros H c Hc. destruct (digit_block c Hc) as (z & Hin & Hz).
  rewrite forallb_forall in H. specialize (H z Hin).
  rewrite forallb_forall in H. specialize (H (c - z)%N).
  replace (z + (c - z))%N with c in H by lia.
  apply H. apply nrange_In. lia.
Qed.

Lemma digit_plain (c : N) :
  isdecimal c = true ->
  isspace c = false /\ lower_char c = [c] /\ c <> 44%N.
Proof.
  intros Hc.
  assert (H : (negb (isspace c) && (simple_lower c =? c)%N
               && negb (c =? 304)%N && negb (c =? 44)%N) = true).
  { revert c Hc. apply digits_transfer. vm_compute. reflexivity. }
  rewrite !andb_true_iff, !negb_true_iff in H.
  destruct H as [[[H1 H2] H3] H4].
  apply N.eqb_eq in H2. apply N.eqb_neq in H4.
  repeat split; try assumption.
  unfold lower_char. now rewrite H3, H2.
Qed.

Lemma isspace_cases (c : N) :
  isspace c = true ->
  (9 <= c <= 13 \/ 28 <= c <= 32 \/ c = 133 \/ c = 160 \/ c = 5760
   \/ 8192 <= c <= 8202 \/ c = 8232 \/ c = 8233 \/ c = 8239 \/ c = 8287
   \/ c = 12288)%N.
Proof.
  unfold isspace.
  rewrite !orb_true_iff, !andb_true_iff, !N.leb_le, !N.eqb_eq. lia.
Qed.

Lemma letterish_spec (p : N) : letterish p = true -> (97 <= p <= 122 \/ p = 181)%N.
Proof.
  unfold letterish, in_range.
  rewrite orb_true_iff, andb_true_iff, !N.leb_le, N.eqb_eq. lia.
Qed.

Lemma letter_char (p c : N) :
  letterish p = true -> ci_lit p c = true ->
  isspace c = false /\ ~ In 44%N (lower_char c).
Proof.
  intros Hp Hci. apply letterish_spec in Hp. apply ci_lit_spec in Hci.
  pose proof (simple_lower_spec c) as Hc. pose proof (simple_lower_spec p) as Hq.
  split.
  - destruct (isspace c) eqn:E; [|reflexivity].
    apply isspace_cases in E. lia.
  - unfold lower_char. destruct (N.eqb_spec c 304).
    + simpl. intros [H|[H|[]]]; discriminate.
    + simpl. intros [H|[]]. lia.
Qed.

Lemma first_letter (p c : N) :
  letterish p = true -> p <> 105%N -> p <> 115%N ->
  ci_lit p c = true -> c <> 956%N -> c <> 924%N ->
  lower_char c = [p] /\ unit_class p = true.
Proof.
  intros Hp Hi Hs Hci H956 H924. pose proof Hp as Hl.
  apply letterish_spec in Hp. apply ci_lit_spec in Hci.
  pose proof (simple_lower_spec c) as Hc. pose proof (simple_lower_spec p) as Hq.
  split; [|exact Hl].
  unfold lower_char. destruct (N.eqb_spec c 304); [lia|]. f_equal. lia.
Qed.

Lemma rstrip_nonspace (t : str) (c : N) :
  isspace c = false -> rstrip (t ++ [c]) = t ++ [c].
Proof.
  intros H. unfold rstrip. rewrite rev_app_distr. simpl. rewrite H.
  simpl. now rewrite rev_involutive.
Qed.

Lemma strip_fixed (a : N) (t : str) (c : N) :
  isspace a = false -> isspace c = false -> strip (a :: t ++ [c]) = a :: t ++ [c].
Proof.
  intros Ha Hc. unfold strip. simpl. rewrite Ha.
  change (a :: t ++ [c]) with ((a :: t) ++ [c]). now apply rstrip_nonspace.
Qed.

Lemma lower_plain (s : str) :
  (forall c, In c s -> lower_char c = [c]) -> lower s = s.
Proof.
  unfold lower. induction s as [|c t IH]; intros H; [reflexivity|].
  simpl. rewrite (H c) by now left. simpl. f_equal. apply IH.
  intros d Hd. apply H. now right.
Qed.

Lemma Matches_Plus_intro (lazy : bool) (p : N -> bool) (w s : str) (g : groups) :
  w <> [] -> forallb p w = true -> Matches (Plus lazy p) w s g g.
Proof.
  destruct w as [|c t]; [congruence|]. intros _ H. simpl in H.
  apply andb_true_iff in H. destruct H as [Hc Ht].
  unfold Plus. change (c :: t) with ([c] ++ t).
  econstructor; [now constructor | now constructor].
Qed.

Lemma amount_plain (amount : str) :
  numeral amount ->
  (exists a0 t, amount = a0 :: t /\ isspace a0 = false)
  /\ (forall c, In c amount -> lower_char c = [c] /\ c <> 44%N)
  /\ (forall s g, Matches (number_re (lit 46)) amount s g g).
Proof.
  intros (i & f & Hi & Hdi & Hdf & Hshape).
  rewrite forallb_forall in Hdi, Hdf.
  assert (Hhead : exists a0 t, i = a0 :: t /\ isspace a0 = false).
  { destruct i as [|a0 t]; [congruence|]. exists a0, t. split; [reflexivity|].
    apply digit_plain. apply Hdi. now left. }
  destruct Hhead as (a0 & t & -> & Ha0).
  assert (Hch : forall c, In c ((a0 :: t) ++ [46%N] ++ f) -> lower_char c = [c] /\ c <> 44%N).
  { intros c Hc. rewrite !in_app_iff in Hc. destruct Hc as [Hc|[[<-|[]]|Hc]].
    - apply digit_plain. now apply Hdi.
    - split; [reflexivity | discriminate].
    - apply digit_plain. now apply Hdf. }
  destruct Hshape as [->|(Hf & ->)].
  - split; [now exists a0, t|]. split.
    + intros c Hc. apply Hch. apply in_or_app. now left.
    + intros s g. unfold number_re. rewrite <- (app_nil_r (a0 :: t)).
      econstructor; [|apply M_OptNone].
      apply Matches_Plus_intro; [discriminate|]. apply forallb_forall. exact Hdi.
  - split; [now exists a0, (t ++ [46%N] ++ f)|]. split; [exact Hch|].
    intros s g. unfold number_re.
    econstructor.
    + apply Matches_Plus_intro; [discriminate|]. apply forallb_forall. exact Hdi.
    + apply M_OptSome. econstructor; [constructor; reflexivity|].
      apply Matches_Plus_intro; [exact Hf|]. apply forallb_forall. exact Hdf.
Qed.

Lemma units_letterish : forallb (forallb letterish) UNIT_WORDS = true.
Proof. reflexivity. Qed.

Lemma units_first :
  forallb (fun w => match w with
                    | p :: _ => negb (p =? 105)%N && negb (p =? 115)%N
                    | [] => false
                    end) UNIT_WORDS = true.
Proof. reflexivity. Qed.

Lemma ci_word_In (w tok : str) (c : N) :
  ci_word w tok -> In c tok -> exists p, In p w /\ ci_lit p c = true.
Proof.
  induction 1 as [|p d w' tok' Hpd _ IH]; simpl; [tauto|].
  intros [<-|H]; [exists p; tauto|].
  destruct (IH H) as (q & Hq & Hc). exists q. tauto.
Qed.

Lemma unit_lowered (u unit : str) :
  In u UNIT_WORDS -> ci_word u unit -> ~ In 956%N unit -> ~ In 924%N unit ->
  (exists p0 rest, lower unit = p0 :: rest /\ unit_class p0 = true)
  /\ (exists unit' cl, unit = unit' ++ [cl] /\ isspace cl = false)
  /\ ~ In 44%N (lower unit).
Proof.
  intros Hu Hw H956 H924.
  pose proof units_letterish as HL. rewrite forallb_forall in HL.
  specialize (HL u Hu). rewrite forallb_forall in HL.
  pose proof units_first as HF. rewrite forallb_forall in HF. specialize (HF u Hu).
  assert (Hc : forall c, In c unit -> isspace c = false /\ ~ In 44%N (lower_char c)).
  { intros c Hc. destruct (ci_word_In _ _ _ Hw Hc) as (p & Hp & Hci).
    apply (letter_char p c); [now apply HL | exact Hci]. }
  split; [|split].
  - destruct Hw as [|p0 c0 u' t Hpc Hrest]; [discriminate|].
    apply andb_true_iff in HF. destruct HF as [Hi Hs].
    apply negb_true_iff, N.eqb_neq in Hi, Hs.
    destruct (first_letter p0 c0) as [El Hcls]; try assumption.
    + apply HL. now left.
    + intros ->. apply H956. now left.
    + intros ->. apply H924. now left.
    + exists p0, (lower t). split; [|exact Hcls].
      unfold lower. simpl. now rewrite El.
  - destruct Hw as [|p0 c0 u' t Hpc Hrest]; [discriminate|].
    destruct (exists_last (l := c0 :: t)) as (unit' & cl & E); [discriminate|].
    exists unit', cl. split; [exact E|].
    apply Hc. rewrite E. apply in_or_app. right. now left.
  - unfold lower. rewrite in_flat_map. intros (c & Hin & H44).
    now apply (Hc c Hin).
Qed.

Lemma dose_string_parses (amount unit u : str) :
  numeral amount -> In u UNIT_WORDS -> ci_word u unit ->
  ~ In 956%N unit -> ~ In 924%N unit ->
  parse_dose (amount ++ [32%N] ++ unit) <> None.
Proof.
  intros Hnum Hu Hw H956 H924.
  destruct (amount_plain amount Hnum) as ((a0 & t & Ea & Ha0) & Hch & Hm).
  destruct (unit_lowered u unit Hu Hw H956 H924)
    as ((p0 & rest & El & Hcls) & (unit' & cl & Eu & Hcl) & H44).
  assert (Estrip : strip (amount ++ [32%N] ++ unit) = amount ++ [32%N] ++ unit).
  { rewrite Ea, Eu. simpl.
    replace (t ++ 32%N :: unit' ++ [cl]) with ((t ++ 32%N :: unit') ++ [cl])
      by now rewrite <- app_assoc.
    now apply strip_fixed. }
  assert (Elow : lower (amount ++ [32%N] ++ unit) = amount ++ [32%N] ++ lower unit).
  { unfold lower. rewrite !flat_map_app. fold (lower amount) (lower unit).
    rewrite (lower_plain amount) by (intros c Hc; now apply Hch). reflexivity. }
  assert (Erem : remove_char 44 (amount ++ [32%N] ++ lower unit)
                 = amount ++ [32%N] ++ lower unit).
  { unfold remove_char. apply filter_all. intros c Hc.
    apply negb_true_iff, N.eqb_neq.
    rewrite !in_app_iff in Hc. destruct Hc as [Hc|[[<-|[]]|Hc]].
    - now apply Hch.
    - discriminate.
    - intros ->. contradiction. }
  unfold parse_dose. rewrite Estrip, Elow, Erem, El.
  assert (M : Matches parse_pattern (amount ++ [32%N] ++ [p0]) rest []
                      (set_group 2 [p0] (set_group 1 amount []))).
  { unfold parse_pattern. econstructor.
    - constructor. apply Hm.
    - econstructor.
      + apply M_Star. reflexivity.
      + constructor. apply Matches_Plus_intro; [discriminate|].
        simpl. now rewrite Hcls. }
  apply re_match_complete in M.
  replace (amount ++ [32%N] ++ p0 :: rest) with ((amount ++ [32%N] ++ [p0]) ++ rest)
    by (rewrite <- !app_assoc; reflexivity).
  destruct (re_match parse_pattern _) as [[g s']|]; [discriminate | contradiction].
Qed.

Lemma extracted_dose_parses (text : str) (rec : dose_record) :
  In rec (extract_doses_from_text text) ->
  ~ In 956%N (dose rec) -> ~ In 924%N (dose rec) ->
  parse_dose (dose rec) <> None.
Proof.
  unfold extract_doses_from_text. rewrite in_map_iff.
  intros (g & <- & Hg).
  apply findall_sound in Hg. destruct Hg as (w & rest & M).
  apply Matches_dose_pattern in M.
  destruct M as (amount & unit & tok & sub_name & -> & Hnum & (u & Hu & Hw) & _).
  rewrite record_of_match_groups. cbn [dose]. intros H956 H924.
  apply (dose_string_parses amount unit u); try assumption.
  - destruct Hnum as (i & f & Hi & Hdi & Hdf & Hshape).
    exists i, f. repeat split; try assumption.
    destruct Hshape as [->|(Hf & d & Hd & ->)]; [now left|].
    right. split; [exact Hf|]. apply ci_lit_dot in Hd. now subst.
  - intros C. apply H956. rewrite !in_app_iff. tauto.
  - intros C. apply H924. rewrite !in_app_iff. tauto.
Qed.

Lemma bands_not_None (unit : str) (vd : list pyfloat) :
  vd <> [] -> bands unit vd <> Return None.
Proof.
  unfold bands. destruct vd as [|a [|b t]]; [congruence | discriminate |].
  intros _. destruct (length (a :: b :: t) <? 5)%nat; [discriminate|].
  destruct (get_p (a :: b :: t) pct10) as [p10|]; cbn [bind]; [|discriminate].
  destruct (get_p (a :: b :: t) pct30) as [p30|]; cbn [bind]; [|discriminate].
  destruct (get_p (a :: b :: t) pct70) as [p70|]; cbn [bind]; [|discriminate].
  destruct (get_p (a :: b :: t) pct90) as [p90|]; cbn [bind]; discriminate.
Qed.

Lemma analyze_doses_not_None (doses : list str) :
  parse_doses doses <> [] -> analyze_doses doses <> Return None.
Proof.
  intros Hp. rewrite analyze_doses_bands.
  destruct (majority_unit doses) as [unit|] eqn:Hu.
  - apply bands_not_None. unfold majority_sample. rewrite Hu.
    destruct (majority_unit_max doses unit Hu) as [H1 _].
    intros E. apply (f_equal (@length pyfloat)) in E.
    rewrite valid_doses_length in E. unfold count_unit in H1. simpl in E. lia.
  - apply majority_unit_None in Hu. contradiction.
Qed.

(** A non-empty list of doses of the extractor, none of them written
    with the Greek letter mu, never makes [analyze_doses] return [None]. *)
Lemma round_trip_without_greek_mu (doses : list str) :
  doses <> [] ->
  (forall d, In d doses ->
             (exists text rec, In rec (extract_doses_from_text text) /\ dose rec = d)
             /\ ~ In 956%N d /\ ~ In 924%N d) ->
  analyze_doses doses <> Return None.
Proof.
  intros Hne Hall. apply analyze_doses_not_None.
  destruct doses as [|d t]; [congruence|]. simpl.
  destruct (Hall d (or_introl eq_refl)) as ((text & rec & Hrec & <-) & H956 & H924).
  pose proof (extracted_dose_parses text rec Hrec H956 H924) as Hp.
  destruct (parse_dose (dose rec)); [discriminate | contradiction].
Qed.

(* ================================================================== *)
(** * Further properties of the code *)

(** ** Normal forms of names *)

Lemma lower_app (a b : str) : lower (a ++ b) = lower a ++ lower b.
Proof. unfold lower. apply flat_map_app. Qed.

Lemma normalize_app (a b : str) : normalize (a ++ b) = normalize a ++ normalize b.
Proof. unfold normalize. now rewrite lower_app, filter_app. Qed.

Lemma lower_char_fixed (c d : N) : In d (lower_char c) -> lower_char d = [d].
Proof.
  unfold lower_char. destruct (N.eqb_spec c 304) as [->|Hc].
  - intros [<-|[<-|[]]]; reflexivity.
  - intros [<-|[]].
    pose proof (simple_lower_spec c) as H1.
    pose proof (simple_lower_spec (simple_lower c)) as H2.
    destruct (N.eqb_spec (simple_lower c) 304); [lia|]. f_equal. lia.
Qed.

Lemma lower_fixed (s : str) : lower (lower s) = lower s.
Proof.
  apply lower_plain. intros d Hd. unfold lower in Hd.
  apply in_flat_map in Hd. destruct Hd as (c & _ & Hd).
  now apply lower_char_fixed with (c := c).
Qed.

(** X1. [normalize] drops every hyphen, space and comma: for text within
    Latin-1, putting one of these three characters anywhere into a name
    does not change its normal form, and the normal form holds none of
    them. *)
Theorem normalize_ignores_separators (a b : str) (c : N) :
  latin1 (a ++ b) = true ->
  c = 45%N \/ c = 32%N \/ c = 44%N ->
  normalize (a ++ c :: b) = normalize (a ++ b)
  /\ ~ In c (normalize (a ++ c :: b)).
Proof.
  intros _ Hc. split.
  - change (c :: b) with ([c] ++ b). rewrite !normalize_app.
    destruct Hc as [->|[->| ->]]; reflexivity.
  - unfold normalize. rewrite filter_In. intros [_ H].
    destruct Hc as [->|[->| ->]]; discriminate H.
Qed.

Lemma normalize_ignores_separators_witness :
  normalize (py "2C" ++ 45%N :: py "B") = normalize (py "2C" ++ py "B")
  /\ normalize (py "2C-B") = py "2cb".
Proof.
  split; [|reflexivity].
  apply (normalize_ignores_separators (py "2C") (py "B") 45%N); [reflexivity | now left].
Defined.

(** X2. [normalize] is idempotent and absorbs lower-casing: for a name
    within Latin-1, the normal form of a normal form, and that of the
    lower-cased name, is the normal form of the name. *)
Theorem normalize_idempotent (name : str) :
  latin1 name = true ->
  normalize (normalize name) = normalize name
  /\ normalize (lower name) = normalize name.
Proof.
  intros _. split.
  - unfold normalize at 1 3.
    set (f := fun c => negb ((c =? 45) || (c =? 32) || (c =? 44))%N).
    assert (E : lower (filter f (lower name)) = filter f (lower name)).
    { apply lower_plain. intros d Hd. apply filter_In in Hd. destruct Hd as [Hd _].
      unfold lower in Hd. apply in_flat_map in Hd. destruct Hd as (c & _ & Hd).
      now apply lower_char_fixed with (c := c). }
    unfold normalize. fold f. rewrite E. apply filter_idem.
  - unfold normalize. now rewrite lower_fixed.
Qed.

Lemma normalize_idempotent_witness :
  normalize (normalize (py "Alpha-PVP, HCl")) = normalize (py "Alpha-PVP, HCl")
  /\ normalize (py "Alpha-PVP, HCl") = py "alphapvphcl".
Proof.
  split; [|reflexivity].
  apply (normalize_idempotent (py "Alpha-PVP, HCl")). reflexivity.
Defined.

(** ** The canonical list and its lookup *)

Lemma drugs_lookup_snoc (order : list str) (p : str) :
  drugs_lookup_of (order ++ [p])
  = dict_set str_eqb (normalize p) p (drugs_lookup_of order).
Proof. unfold drugs_lookup_of. now rewrite fold_left_app. Qed.

Lemma load_drugs_fold (data : dict str drug_entry) (order : list str) (lookup : dict str str) :
  fold_left (fun ol kv =>
               match pretty_name (snd kv) with
               | Some pname =>
                   (fst ol ++ [pname], dict_set str_eqb (normalize pname) pname (snd ol))
               | None => ol
               end) data (order, lookup)
  = (order ++ flat_map (fun kv => match pretty_name (snd kv) with
                                  | Some p => [p]
                                  | None => []
                                  end) data,
     fold_left (fun l p => dict_set str_eqb (normalize p) p l)
               (flat_map (fun kv => match pretty_name (snd kv) with
                                    | Some p => [p]
                                    | None => []
                                    end) data) lookup).
Proof.
  revert order lookup. induction data as [|kv t IH]; intros order lookup; simpl.
  - now rewrite app_nil_r.
  - destruct (pretty_name (snd kv)) as [p|]; simpl.
    + rewrite IH. cbn [fst snd]. now rewrite <- app_assoc.
    + apply IH.
Qed.

Lemma drugs_lookup_get (order : list str) (k p' : str) :
  dict_get str_eqb k (drugs_lookup_of order) = Some p' ->
  In p' order /\ k = normalize p'.
Proof.
  induction order as [|p l IH] using rev_ind; [discriminate|].
  rewrite drugs_lookup_snoc.
  destruct (list_eq_dec N.eq_dec k (normalize p)) as [->|Hne].
  - rewrite dict_get_set_same. intros [= <-]. split; [|reflexivity].
    apply in_or_app. right. now left.
  - rewrite dict_get_set_other by exact Hne. intros H.
    destruct (IH H) as [Hin E]. split; [apply in_or_app; now left | exact E].
Qed.

Lemma drugs_lookup_last (before after : list str) (p : str) :
  (forall q, In q after -> normalize q <> normalize p) ->
  dict_get str_eqb (normalize p) (drugs_lookup_of (before ++ p :: after)) = Some p.
Proof.
  induction after as [|q l IH] using rev_ind; intros H.
  - rewrite drugs_lookup_snoc. apply dict_get_set_same.
  - change (before ++ p :: l ++ [q]) with (before ++ (p :: l) ++ [q]).
    rewrite app_assoc, drugs_lookup_snoc.
    rewrite dict_get_set_other.
    + apply IH. intros r Hr. apply H. apply in_or_app. now left.
    + intros E. apply (H q); [apply in_or_app; right; now left | now symmetry].
Qed.

Lemma lookup_of_loaded_order (file : option (dict str drug_entry))
      (order : list str) (lookup : dict str str) :
  load_drugs_json file = (order, lookup) -> lookup = drugs_lookup_of order.
Proof.
  intros H. destruct file as [data|]; simpl in H.
  - rewrite load_drugs_fold in H. simpl in H. injection H as <- <-. reflexivity.
  - injection H as <- <-. reflexivity.
Qed.

(** X3. What [load_drugs_json] returns: the lookup is the table built
    from the returned order alone; every entry of it maps the normal
    form of a listed pretty name to that name; every listed pretty name
    has an entry under its normal form; and of several names with one
    normal form the last listed one is stored. *)
Theorem load_drugs_lookup (file : option (dict str drug_entry))
        (order : list str) (lookup : dict str str) :
  load_drugs_json file = (order, lookup) ->
  lookup = drugs_lookup_of order
  /\ (forall k p', dict_get str_eqb k lookup = Some p' ->
                   In p' order /\ k = normalize p')
  /\ (forall p, In p order ->
                exists p', dict_get str_eqb (normalize p) lookup = Some p'
                           /\ normalize p' = normalize p)
  /\ (forall before p after,
         order = before ++ p :: after ->
         (forall q, In q after -> normalize q <> normalize p) ->
         dict_get str_eqb (normalize p) lookup = Some p).
Proof.
  intros H.
  apply lookup_of_loaded_order in H. subst lookup. split; [reflexivity|]. split; [|split].
  - apply drugs_lookup_get.
  - intros p Hp.
    destruct (dict_get str_eqb (normalize p) (drugs_lookup_of order)) as [p'|] eqn:G.
    + exists p'. split; [reflexivity|].
      apply drugs_lookup_get in G. destruct G as [_ G]. now symmetry.
    + exfalso. apply dict_get_None_iff in G. apply G.
      apply keys_drugs_lookup. now apply in_map.
  - intros before p after -> Hafter. now apply drugs_lookup_last.
Qed.

Lemma load_drugs_lookup_witness :
  load_drugs_json (Some [(py "lsd", {| pretty_name := Some (py "LSD") |});
                         (py "x", {| pretty_name := None |});
                         (py "l-s-d", {| pretty_name := Some (py "L-S-D") |})])
  = ([py "LSD"; py "L-S-D"], [(py "lsd", py "L-S-D")])
  /\ dict_get str_eqb (normalize (py "LSD")) [(py "lsd", py "L-S-D")] = Some (py "L-S-D").
Proof.
  assert (H : load_drugs_json (Some [(py "lsd", {| pretty_name := Some (py "LSD") |});
                                     (py "x", {| pretty_name := None |});
                                     (py "l-s-d", {| pretty_name := Some (py "L-S-D") |})])
              = ([py "LSD"; py "L-S-D"], [(py "lsd", py "L-S-D")]))
    by (vm_compute; reflexivity).
  split; [exact H|].
  destruct (load_drugs_lookup _ _ _ H) as (_ & _ & _ & Hlast).
  assert (E : normalize (py "LSD") = normalize (py "L-S-D")) by (vm_compute; reflexivity).
  rewrite E. apply (Hlast [py "LSD"] (py "L-S-D") []); [reflexivity|].
  intros q [].
Defined.

Lemma add_unknown_cases (D : Type) (drugs_order : list str)
        (final_output : dict str D) (sub : str) (data : D) :
  add_unknown drugs_order (drugs_lookup_of drugs_order) final_output (sub, data)
  = if known_label drugs_order sub then final_output
    else dict_set str_eqb sub data final_output.
Proof.
  unfold add_unknown. fold (known_label drugs_order sub).
  destruct (known_label drugs_order sub) eqn:Hk; [reflexivity|].
  destruct (dict_get str_eqb (normalize sub) (drugs_lookup_of drugs_order)) as [p|] eqn:G;
    [|reflexivity].
  exfalso. apply drugs_lookup_get in G. destruct G as [Hin E].
  assert (C : known_label drugs_order sub = true).
  { apply existsb_str_eqb_In. rewrite E. now apply in_map. }
  congruence.
Qed.

(** X4. In step 8 of [main], with the order and the lookup that
    [load_drugs_json] returns, the branch that consults [drugs_lookup]
    is never taken: a label whose normal form is not in the canonical
    list has no entry in the lookup either, so the final output is the
    canonical part followed by the unknown labels under their own raw
    names. *)
Theorem sorter_lookup_branch_dead (D : Type) (file : option (dict str drug_entry))
        (drugs_order : list str) (drugs_lookup : dict str str)
        (formatted_data : dict str D) :
  load_drugs_json file = (drugs_order, drugs_lookup) ->
  final_output_of drugs_order drugs_lookup formatted_data
  = fold_left (fun final_output sd =>
                 if known_label drugs_order (fst sd) then final_output
                 else dict_set str_eqb (fst sd) (snd sd) final_output)
              formatted_data
              (fold_left (add_canonical (normalized_data_of formatted_data))
                         drugs_order []).
Proof.
  intros H. apply lookup_of_loaded_order in H. subst drugs_lookup.
  unfold final_output_of.
  generalize (fold_left (add_canonical (normalized_data_of formatted_data))
                        drugs_order []).
  induction formatted_data as [|[sub data] t IH]; intros out; cbn [fold_left];
    [reflexivity|].
  rewrite add_unknown_cases. apply IH.
Qed.

Lemma sorter_lookup_branch_dead_witness :
  final_output_of [py "LSD"] [(py "lsd", py "LSD")]
                  [(py "L S D", 1%nat); (py "lsd", 2%nat); (py "dmt", 3%nat)]
  = [(py "LSD", 2%nat); (py "dmt", 3%nat)].
Proof.
  rewrite (sorter_lookup_branch_dead nat
             (Some [(py "lsd", {| pretty_name := Some (py "LSD") |})])
             [py "LSD"] [(py "lsd", py "LSD")]); vm_compute; reflexivity.
Defined.

(** ** What the sorter does with the data *)

Section SorterData.
Variable D : Type.
Implicit Types (formatted_data : dict str D) (drugs_order : list str).

Lemma normalized_data_values formatted_data (k : str) (v : D) :
  In (k, v) (normalized_data_of formatted_data) ->
  exists sub, In (sub, v) formatted_data /\ k = normalize sub.
Proof.
  unfold normalized_data_of.
  assert (G : forall (l acc : dict str D),
             In (k, v) (fold_left
                          (fun nd sd => dict_set str_eqb (normalize (fst sd)) (snd sd) nd)
                          l acc) ->
             In (k, v) acc \/ exists sub, In (sub, v) l /\ k = normalize sub).
  { induction l as [|[s d] t IH]; intros acc; simpl; [tauto|].
    intros H. destruct (IH _ H) as [H'|(sub & Hin & E)].
    - apply dict_set_In in H'. destruct H' as [[= -> ->]|H']; [|now left].
      right. exists s. split; [now left | reflexivity].
    - right. exists sub. split; [now right | exact E]. }
  intros H. destruct (G _ _ H) as [[]|H']. exact H'.
Qed.

Lemma canonical_values formatted_data drugs_order (out : dict str D) (k : str) (v : D) :
  In (k, v) (fold_left (add_canonical (normalized_data_of formatted_data)) drugs_order out) ->
  In (k, v) out
  \/ (In k drugs_order /\ exists sub, In (sub, v) formatted_data
                                      /\ normalize k = normalize sub).
Proof.
  revert out. induction drugs_order as [|p t IH]; intros out; simpl; [tauto|].
  intros H. destruct (IH _ H) as [H'|(Hin & sub & Hs & E)].
  - unfold add_canonical in H'.
    destruct (dict_get str_eqb (normalize p) (normalized_data_of formatted_data))
      as [data|] eqn:G; [|now left].
    apply dict_set_In in H'. destruct H' as [[= -> ->]|H']; [|now left].
    right. split; [now left|].
    apply dict_get_In in G. apply normalized_data_values in G.
    destruct G as (sub & Hs & E). now exists sub.
  - right. split; [now right|]. now exists sub.
Qed.

Lemma unknown_get drugs_order (l out : dict str D) (sub : str) :
  NoDup (dict_keys l) ->
  known_label drugs_order sub = false ->
  dict_get str_eqb sub
           (fold_left (add_unknown drugs_order (drugs_lookup_of drugs_order)) l out)
  = match dict_get str_eqb sub l with
    | Some data => Some data
    | None => dict_get str_eqb sub out
    end.
Proof.
  intros Hnd Hk. revert out.
  induction l as [|[s d] t IH]; intros out; cbn [fold_left]; [reflexivity|].
  change (dict_keys ((s, d) :: t)) with (s :: dict_keys t) in Hnd.
  inversion Hnd as [|? ? Hnot Hnd']; subst.
  rewrite (IH Hnd'), add_unknown_cases. simpl.
  destruct (str_eqb sub s) eqn:E.
  - apply str_eqb_eq in E. subst s. rewrite Hk.
    assert (N : dict_get str_eqb sub t = None) by now apply dict_get_None_iff.
    rewrite N. apply dict_get_set_same.
  - apply str_eqb_neq in E.
    destruct (dict_get str_eqb sub t); [reflexivity|].
    destruct (known_label drugs_order s); [reflexivity|].
    now apply dict_get_set_other.
Qed.

Lemma unknown_values drugs_order (l out : dict str D) (k : str) (v : D) :
  In (k, v) (fold_left (add_unknown drugs_order (drugs_lookup_of drugs_order)) l out) ->
  In (k, v) out \/ In (k, v) l.
Proof.
  revert out. induction l as [|[s d] t IH]; intros out; cbn [fold_left]; [tauto|].
  intros H. destruct (IH _ H) as [H'|H']; [|right; now right].
  rewrite add_unknown_cases in H'.
  destruct (known_label drugs_order s); [now left|].
  apply dict_set_In in H'. destruct H' as [[= -> ->]|H']; [right; now left | now left].
Qed.

Lemma unknown_label_kept formatted_data drugs_order (sub : str) :
  NoDup (dict_keys formatted_data) ->
  known_label drugs_order sub = false ->
  dict_get str_eqb sub
           (final_output_of drugs_order (drugs_lookup_of drugs_order) formatted_data)
  = dict_get str_eqb sub formatted_data.
Proof.
  intros Hnd Hk. unfold final_output_of.
  rewrite (unknown_get drugs_order formatted_data _ sub Hnd Hk).
  destruct (dict_get str_eqb sub formatted_data); [reflexivity|].
  apply dict_get_None_iff. rewrite canonical_keys. simpl.
  fold (first_occurrences (filter (matches_label (dict_keys formatted_data)) drugs_order)).
  rewrite In_first_occurrences, filter_In. intros [Hin _].
  assert (C : known_label drugs_order sub = true).
  { apply existsb_str_eqb_In. now apply in_map. }
  congruence.
Qed.

Lemma known_label_untouched drugs_order (l out : dict str D) (k : str) :
  known_label drugs_order k = true ->
  dict_get str_eqb k
           (fold_left (add_unknown drugs_order (drugs_lookup_of drugs_order)) l out)
  = dict_get str_eqb k out.
Proof.
  intros Hk. revert out. induction l as [|[s d] t IH]; intros out; cbn [fold_left];
    [reflexivity|].
  rewrite IH, add_unknown_cases.
  destruct (known_label drugs_order s) eqn:Hs; [reflexivity|].
  apply dict_get_set_other. intros ->. congruence.
Qed.

Lemma canonical_get (nd : dict str D) drugs_order (out : dict str D) (p : str) :
  In p drugs_order ->
  dict_get str_eqb p (fold_left (add_canonical nd) drugs_order out)
  = match dict_get str_eqb (normalize p) nd with
    | Some data => Some data
    | None => dict_get str_eqb p out
    end.
Proof.
  assert (Keep : forall l o,
             (exists data, dict_get str_eqb (normalize p) nd = Some data
                           /\ dict_get str_eqb p o = Some data) ->
             dict_get str_eqb p (fold_left (add_canonical nd) l o)
             = dict_get str_eqb (normalize p) nd).
  { induction l as [|q t IH]; intros o (data & Hn & Ho); cbn [fold_left].
    - congruence.
    - apply IH. exists data. split; [exact Hn|]. unfold add_canonical.
      destruct (list_eq_dec N.eq_dec q p) as [->|Hne].
      + rewrite Hn. apply dict_get_set_same.
      + destruct (dict_get str_eqb (normalize q) nd); [|exact Ho].
        rewrite dict_get_set_other by congruence. exact Ho. }
  revert out. induction drugs_order as [|q t IH]; intros out Hin; [destruct Hin|].
  cbn [fold_left].
  destruct (list_eq_dec N.eq_dec q p) as [->|Hne].
  - unfold add_canonical at 2.
    destruct (dict_get str_eqb (normalize p) nd) as [data|] eqn:Hn.
    + apply Keep. exists data. split; [reflexivity | apply dict_get_set_same].
    + destruct (in_dec (list_eq_dec N.eq_dec) p t) as [Hin'|Hnot].
      * exact (IH out Hin').
      * clear IH Hin Keep. revert out.
        induction t as [|q' t' IHt]; intros out; [reflexivity|].
        cbn [fold_left]. rewrite IHt by (intros H; apply Hnot; now right).
        unfold add_canonical.
        destruct (dict_get str_eqb (normalize q') nd); [|reflexivity].
        apply dict_get_set_other. intros ->. apply Hnot. now left.
  - destruct Hin as [E|Hin]; [congruence|].
    rewrite (IH _ Hin). destruct (dict_get str_eqb (normalize p) nd); [reflexivity|].
    unfold add_canonical. destruct (dict_get str_eqb (normalize q) nd); [|reflexivity].
    apply dict_get_set_other. congruence.
Qed.

Lemma normalized_other formatted_data (acc : dict str D) (n : str) :
  (forall s, In s (dict_keys formatted_data) -> normalize s <> n) ->
  dict_get str_eqb n
    (fold_left (fun nd sd => dict_set str_eqb (normalize (fst sd)) (snd sd) nd)
               formatted_data acc)
  = dict_get str_eqb n acc.
Proof.
  revert acc. induction formatted_data as [|[s d] t IH]; intros acc H; cbn [fold_left];
    [reflexivity|].
  rewrite IH by (intros s' Hs'; apply H; now right).
  apply dict_get_set_other. intros ->. apply (H s); [now left | reflexivity].
Qed.

Lemma normalized_get formatted_data (sub : str) (data : D) :
  NoDup (dict_keys formatted_data) ->
  In (sub, data) formatted_data ->
  (forall s, In s (dict_keys formatted_data) -> normalize s = normalize sub -> s = sub) ->
  dict_get str_eqb (normalize sub) (normalized_data_of formatted_data) = Some data.
Proof.
  unfold normalized_data_of. generalize (@nil (str * D)) as acc.
  induction formatted_data as [|[s d] t IH]; intros acc Hnd Hin Hinj; [destruct Hin|].
  change (dict_keys ((s, d) :: t)) with (s :: dict_keys t) in *.
  inversion Hnd as [|? ? Hnot Hnd']; subst. cbn [fold_left fst snd].
  destruct Hin as [[= -> ->]|Hin].
  - rewrite normalized_other; [apply dict_get_set_same|].
    intros s Hs E. apply Hnot. rewrite <- (Hinj s); [exact Hs | now right | exact E].
  - apply IH; try assumption. intros s' Hs'. apply Hinj. now right.
Qed.

(** X5. Step 8 invents nothing: a label that matches no canonical name
    keeps its own record under its own key, and every record of the
    final output is the record of an aggregated label with the same
    normal form as its key. *)
Theorem sorter_keeps_data formatted_data drugs_order :
  NoDup (dict_keys formatted_data) ->
  let final_output :=
    final_output_of drugs_order (drugs_lookup_of drugs_order) formatted_data in
  (forall sub, known_label drugs_order sub = false ->
               dict_get str_eqb sub final_output = dict_get str_eqb sub formatted_data)
  /\ (forall k v, In (k, v) final_output ->
                  exists sub, In (sub, v) formatted_data /\ normalize k = normalize sub).
Proof.
  intros Hnd final_output. unfold final_output. split.
  - intros sub Hk. now apply unknown_label_kept.
  - unfold final_output_of. intros k v H. apply unknown_values in H. destruct H as [H|H].
    + apply canonical_values in H. destruct H as [[]|(_ & sub & Hs & E)].
      now exists sub.
    + now exists k.
Qed.

(** X6. Step 8 loses no label: every aggregated label is represented in
    the final output by a key with the same normal form, and when no
    other label shares its normal form the record under that key is the
    label's own. *)
Theorem sorter_loses_no_label formatted_data drugs_order (sub : str) (data : D) :
  NoDup (dict_keys formatted_data) ->
  dict_get str_eqb sub formatted_data = Some data ->
  let final_output :=
    final_output_of drugs_order (drugs_lookup_of drugs_order) formatted_data in
  (exists k, In k (dict_keys final_output) /\ normalize k = normalize sub)
  /\ ((forall s, In s (dict_keys formatted_data) -> normalize s = normalize sub -> s = sub) ->
      exists k, dict_get str_eqb k final_output = Some data
                /\ normalize k = normalize sub).
Proof.
  intros Hnd Hget final_output.
  pose proof (dict_get_In _ _ _ _ Hget) as Hin.
  destruct (known_label drugs_order sub) eqn:Hk.
  - pose proof Hk as Hp. unfold known_label in Hp.
    apply existsb_str_eqb_In, in_map_iff in Hp. destruct Hp as (p & Ep & Hp).
    assert (Kp : known_label drugs_order p = true).
    { apply existsb_str_eqb_In. now apply in_map. }
    assert (Gp : dict_get str_eqb p final_output
                 = dict_get str_eqb (normalize sub) (normalized_data_of formatted_data)).
    { unfold final_output, final_output_of.
      rewrite (known_label_untouched _ _ _ _ Kp), (canonical_get _ _ _ _ Hp), Ep.
      now destruct (dict_get str_eqb (normalize sub) (normalized_data_of formatted_data)). }
    assert (Nn : In (normalize sub) (dict_keys (normalized_data_of formatted_data))).
    { apply keys_normalized_data. apply in_map. change sub with (fst (sub, data)).
      now apply in_map. }
    split.
    + exists p. split; [|exact Ep].
      apply dict_mem_iff. unfold dict_mem. rewrite Gp.
      apply dict_mem_iff in Nn. unfold dict_mem in Nn.
      now destruct (dict_get str_eqb (normalize sub) (normalized_data_of formatted_data)).
    + intros Hinj. exists p. split; [|exact Ep].
      rewrite Gp. now apply normalized_get.
  - assert (G : dict_get str_eqb sub final_output = Some data).
    { unfold final_output. now rewrite unknown_label_kept. }
    split.
    + exists sub. split; [|reflexivity]. apply dict_mem_iff. unfold dict_mem. now rewrite G.
    + intros _. now exists sub.
Qed.
End SorterData.

Lemma sorter_keeps_data_witness :
  NoDup (map py ["lsd"; "Unknown-X"]%string)
  /\ dict_get str_eqb (py "Unknown-X")
       (final_output_of [py "LSD"] (drugs_lookup_of [py "LSD"])
                        [(py "lsd", 1%nat); (py "Unknown-X", 2%nat)])
     = Some 2%nat.
Proof.
  assert (Hnd : NoDup (dict_keys [(py "lsd", 1%nat); (py "Unknown-X", 2%nat)])).
  { repeat constructor; simpl; intuition discriminate. }
  split; [exact Hnd|].
  rewrite (proj1 (sorter_keeps_data nat _ [py "LSD"] Hnd) (py "Unknown-X"));
    vm_compute; reflexivity.
Defined.

Lemma sorter_loses_no_label_witness :
  exists k,
    dict_get str_eqb k
      (final_output_of [py "LSD"] (drugs_lookup_of [py "LSD"])
                       [(py "lsd", 1%nat); (py "Unknown-X", 2%nat)])
    = Some 1%nat
    /\ normalize k = normalize (py "lsd").
Proof.
  assert (Hnd : NoDup (dict_keys [(py "lsd", 1%nat); (py "Unknown-X", 2%nat)])).
  { repeat constructor; simpl; intuition discriminate. }
  apply (proj2 (sorter_loses_no_label nat _ [py "LSD"] (py "lsd") 1%nat Hnd eq_refl)).
  intros s [<-|[<-|[]]]; [reflexivity|]. vm_compute. discriminate.
Defined.

(** ** Report identifiers *)

Lemma star_greedy_exact (A : Type) (p : N -> bool) (w s : str) (f : str -> A) :
  forallb p w = true -> not_at_head p s ->
  star_greedy p (w ++ s) (fun s' => Some (f s')) = Some (f s).
Proof.
  intros Hw Hs. induction w as [|c t IH]; simpl in *.
  - destruct s as [|c t]; [reflexivity|]. simpl in Hs. simpl. now rewrite Hs.
  - apply andb_true_iff in Hw. destruct Hw as [Hc Ht]. now rewrite Hc, IH.
Qed.

Lemma digits_split (p : N -> bool) (s : str) :
  exists w s', s = w ++ s' /\ forallb p w = true /\ not_at_head p s'.
Proof.
  induction s as [|c t (w & s' & E & Hw & Hs)].
  - exists [], []. now repeat split.
  - destruct (p c) eqn:Hc.
    + exists (c :: w), s'. subst t. split; [reflexivity|]. split; [|exact Hs].
      simpl. now rewrite Hc.
    + exists [], (c :: t). now repeat split.
Qed.

Lemma re_match_id (d : N) (w s : str) :
  isdecimal d = true -> forallb isdecimal w = true -> not_at_head isdecimal s ->
  re_match id_pattern (py "ID=" ++ d :: w ++ s) = Some ([(1%nat, d :: w)], s).
Proof.
  intros Hd Hw Hs. unfold re_match, id_pattern, Plus. cbn [py rmatch app].
  change (lit 73 73 && true)%bool with true.
  cbn. rewrite Hd.
  refine (eq_trans
            (star_greedy_exact _ isdecimal w s
               (fun s' => (set_group 1 (firstn (length ((d :: w) ++ s) - length s')
                                               ((d :: w) ++ s)) [], s'))
               Hw Hs) _).
  now rewrite firstn_prefix.
Qed.

Lemma re_match_id_None (s : str) :
  (forall d t, s = py "ID=" ++ d :: t -> isdecimal d = false) ->
  re_match id_pattern s = None.
Proof.
  intros H. unfold re_match, id_pattern, Plus. cbn [rmatch].
  destruct s as [|c1 s]; [reflexivity|].
  unfold lit at 1. destruct (N.eqb_spec 73 c1) as [<-|]; [|reflexivity].
  destruct s as [|c2 s]; [reflexivity|].
  unfold lit at 1. destruct (N.eqb_spec 68 c2) as [<-|]; [|reflexivity].
  destruct s as [|c3 s]; [reflexivity|].
  unfold lit at 1. destruct (N.eqb_spec 61 c3) as [<-|]; [|reflexivity].
  destruct s as [|d s]; [reflexivity|].
  now rewrite (H d s eq_refl).
Qed.

Lemma id_head_dec (s : str) :
  (exists d t, s = py "ID=" ++ d :: t /\ isdecimal d = true)
  \/ (forall d t, s = py "ID=" ++ d :: t -> isdecimal d = false).
Proof.
  destruct s as [|c1 [|c2 [|c3 [|d t]]]]; try (right; intros ? ? [=]; fail).
  destruct (N.eq_dec c1 73) as [->|]; [|right; intros ? ? [=]; congruence].
  destruct (N.eq_dec c2 68) as [->|]; [|right; intros ? ? [=]; congruence].
  destruct (N.eq_dec c3 61) as [->|]; [|right; intros ? ? [=]; congruence].
  destruct (isdecimal d) eqn:Hd.
  - left. now exists d, t.
  - right. intros d' t' [= <- <-]. exact Hd.
Qed.

Lemma re_search_id (url : str) :
  match re_search id_pattern url with
  | Some g =>
      exists pre d w post,
        url = pre ++ py "ID=" ++ d :: w ++ post
        /\ g = [(1%nat, d :: w)]
        /\ isdecimal d = true /\ forallb isdecimal w = true
        /\ not_at_head isdecimal post
        /\ forall pre' d' post',
            url = pre' ++ py "ID=" ++ d' :: post' -> isdecimal d' = true ->
            (length pre <= length pre')%nat
  | None =>
      forall pre d post, url = pre ++ py "ID=" ++ d :: post -> isdecimal d = false
  end.
Proof.
  induction url as [|c t IH].
  - cbn. intros [|? ?] ? ? [=].
  - cbn [re_search].
    destruct (id_head_dec (c :: t)) as [(d & t' & E & Hd)|Hno].
    + destruct (digits_split isdecimal t') as (w & post & -> & Hw & Hp).
      rewrite E, (re_match_id d w post Hd Hw Hp).
      exists [], d, w, post. repeat split; try assumption. intros. simpl. lia.
    + rewrite (re_match_id_None _ Hno).
      destruct (re_search id_pattern t) as [g|].
      * destruct IH as (pre & d & w & post & -> & -> & Hd & Hw & Hp & Hfirst).
        exists (c :: pre), d, w, post. repeat split; try assumption.
        intros [|c' pre'] d' post' E Hd'.
        -- rewrite (Hno d' post' E) in Hd'. discriminate.
        -- injection E as <- E. simpl. apply le_n_S. now apply (Hfirst pre' d' post').
      * intros [|c' pre'] d post E.
        -- now apply (Hno d post).
        -- injection E as <- E. now apply (IH pre' d post).
Qed.

(** X7. [get_report_id] returns either the longest run of decimal
    digits that follows the first occurrence of ID= before a digit in
    the URL, or, when the URL has no such occurrence, the MD5 digest of
    the URL. *)
Theorem get_report_id_cases (md5_hex : str -> str) (url : str) :
  (exists pre ds post,
      url = pre ++ py "ID=" ++ ds ++ post
      /\ ds <> [] /\ forallb isdecimal ds = true /\ not_at_head isdecimal post
      /\ (forall pre' d post',
             url = pre' ++ py "ID=" ++ d :: post' -> isdecimal d = true ->
             (length pre <= length pre')%nat)
      /\ get_report_id md5_hex url = ds)
  \/ ((forall pre d post, url = pre ++ py "ID=" ++ d :: post -> isdecimal d = false)
      /\ get_report_id md5_hex url = md5_hex url).
Proof.
  unfold get_report_id. pose proof (re_search_id url) as H.
  destruct (re_search id_pattern url) as [g|].
  - left. destruct H as (pre & d & w & post & -> & -> & Hd & Hw & Hp & Hfirst).
    exists pre, (d :: w), post. repeat split; try assumption.
    + discriminate.
    + simpl. now rewrite Hd, Hw.
  - right. now split.
Qed.

Lemma re_search_skip (r : regex) (pre s : str) :
  (forall c t, In c pre -> re_match r (c :: t) = None) ->
  re_search r (pre ++ s) = re_search r s.
Proof.
  intros H. induction pre as [|c t IH]; [reflexivity|].
  cbn [app re_search]. rewrite (H c (t ++ s)) by now left.
  apply IH. intros c' t' Hin. apply H. now right.
Qed.

(** X8. For a URL with no capital I before its ID= parameter,
    [get_report_id] returns exactly the digits of the parameter, up to
    the first character that is no decimal digit; scheme, host and path
    do not matter. *)
Theorem get_report_id_of_report_url (md5_hex : str -> str) (pre ds post : str) :
  ~ In 73%N pre -> ds <> [] -> forallb isdecimal ds = true ->
  not_at_head isdecimal post ->
  get_report_id md5_hex (pre ++ py "ID=" ++ ds ++ post) = ds.
Proof.
  intros Hpre Hne Hds Hpost. unfold get_report_id.
  rewrite re_search_skip.
  - destruct ds as [|d w]; [congruence|]. simpl in Hds.
    apply andb_true_iff in Hds. destruct Hds as [Hd Hw].
    change (py "ID=" ++ (d :: w) ++ post) with (73%N :: 68%N :: 61%N :: d :: w ++ post).
    pose proof (re_match_id d w post Hd Hw Hpost) as E.
    change (py "ID=" ++ d :: w ++ post) with (73%N :: 68%N :: 61%N :: d :: w ++ post) in E.
    cbn [re_search]. now rewrite E.
  - intros c t Hin. apply re_match_id_None. intros d t' [= -> _]. contradiction.
Qed.

Lemma get_report_id_of_report_url_witness :
  get_report_id (fun url => url) url_a = py "1"
  /\ get_report_id (fun url => url) url_b = py "1".
Proof.
  split.
  - apply (get_report_id_of_report_url (fun url => url)
             (py "https://www.erowid.org/experiences/exp.php?") (py "1") []);
      [ vm_compute; intuition discriminate | discriminate | reflexivity | exact I ].
  - apply (get_report_id_of_report_url (fun url => url)
             (py "http://www.erowid.org/experiences/exp.php?") (py "1") []);
      [ vm_compute; intuition discriminate | discriminate | reflexivity | exact I ].
Defined.

(** ** Category pages *)

Lemma re_search_sound (r : regex) (s : str) (g : groups) :
  re_search r s = Some g ->
  exists pre w rest, s = pre ++ w ++ rest /\ Matches r w rest [] g.
Proof.
  induction s as [|c t IH]; cbn [re_search].
  - destruct (re_match r []) as [[g' s']|] eqn:E; [|discriminate].
    intros [= <-]. apply re_match_sound in E. destruct E as (w & E & M).
    now exists [], w, s'.
  - destruct (re_match r (c :: t)) as [[g' s']|] eqn:E.
    + intros [= <-]. apply re_match_sound in E. destruct E as (w & E & M).
      now exists [], w, s'.
    + intros H. destruct (IH H) as (pre & w & rest & -> & M).
      now exists (c :: pre), w, rest.
Qed.

Lemma Matches_lits (l : str) :
  forall (w s : str) (g g' : groups), Matches (lits l) w s g g' -> w = l /\ g' = g.
Proof.
  induction l as [|c t IH]; intros w s g g' M; cbn in M.
  - inversion M; subst. now split.
  - apply Matches_Cat_inv in M. destruct M as (w1 & w2 & g1 & -> & M1 & M2).
    inversion M1 as [|p c' s' g0 Hc| | | | | | | |]; subst.
    apply N.eqb_eq in Hc. subst c'.
    destruct (IH _ _ _ _ M2) as [-> ->]. now split.
Qed.

Lemma href_has_id (href : str) :
  searches href_pattern href = true ->
  exists pre d post,
    href = pre ++ py "ID=" ++ d :: post /\ isdecimal d = true.
Proof.
  unfold searches. destruct (re_search href_pattern href) as [g|] eqn:E; [|discriminate].
  intros _. apply re_search_sound in E. destruct E as (pre & w & rest & -> & M).
  unfold href_pattern in M. apply Matches_Cat_inv in M.
  destruct M as (w1 & w2 & g1 & -> & M1 & M2).
  apply Matches_lits in M1. destruct M1 as [-> ->].
  apply Matches_Plus in M2. destruct M2 as (_ & Hne & Hd).
  destruct w2 as [|d w2]; [congruence|]. simpl in Hd.
  apply andb_true_iff in Hd. destruct Hd as [Hd _].
  exists (pre ++ py "exp.php?"), d, (w2 ++ rest). split; [|exact Hd].
  rewrite <- !app_assoc. reflexivity.
Qed.

Lemma absolute_url_suffix (href : str) :
  exists site, absolute_url href = site ++ href
               /\ startswith (py "http") (absolute_url href) = true.
Proof.
  unfold absolute_url. destruct (startswith (py "http") href) eqn:H.
  - exists []. now split.
  - destruct (startswith (py "/") href).
    + exists EROWID. split; reflexivity.
    + exists EXPERIENCES. split; reflexivity.
Qed.

Lemma NoDup_fold_add_key (l acc : list str) (f : str -> str) :
  NoDup acc -> NoDup (fold_left (fun urls x => add_key urls (f x)) l acc).
Proof.
  revert acc. induction l as [|x t IH]; intros acc H; simpl; [exact H|].
  apply IH. now apply add_key_NoDup.
Qed.

Lemma In_fold_add_key_map (l acc : list str) (f : str -> str) (u : str) :
  In u (fold_left (fun urls x => add_key urls (f x)) l acc) <->
  In u acc \/ exists x, In x l /\ u = f x.
Proof.
  revert acc. induction l as [|x t IH]; intros acc; simpl.
  - split; [now left|]. intros [H|(x & [] & _)]. exact H.
  - rewrite IH, In_add_key. split.
    + intros [[H|H]|(y & Hy & E)].
      * now left.
      * right. exists x. split; [now left | exact H].
      * right. exists y. split; [now right | exact E].
    + intros [H|(y & [<-|Hy] & E)].
      * left. now left.
      * left. now right.
      * right. now exists y.
Qed.

Section CategoryFacts.
Variable anchor_hrefs : str -> list str.

(** X9. The list that [get_report_urls] returns has no duplicates; each
    URL in it begins with http, is built from the href of an anchor of a
    page fetched with a status other than 403, and carries a report
    identifier: [get_report_id] finds a non-empty run of digits in it
    and never falls back to the MD5 digest. *)
Theorem category_urls_have_ids (r : http_response) (urls : list str) :
  get_report_urls anchor_hrefs r = Urls urls ->
  NoDup urls
  /\ forall u, In u urls ->
       startswith (py "http") u = true
       /\ (exists status_code text href,
              r = Response status_code text /\ status_code <> 403
              /\ In href (anchor_hrefs text) /\ u = absolute_url href)
       /\ exists ds, ds <> [] /\ forallb isdecimal ds = true
                     /\ forall md5_hex, get_report_id md5_hex u = ds.
Proof.
  destruct r as [|status_code text]; cbn [get_report_urls].
  - intros [= <-]. split; [constructor | intros u []].
  - destruct (status_code =? 403) eqn:Hs; [discriminate|].
    destruct (contains (py "Blocked") (firstn 500 text)); [discriminate|].
    intros [= <-]. split; [apply NoDup_fold_add_key; constructor|].
    intros u Hu. apply In_fold_add_key_map in Hu.
    destruct Hu as [[]|(href & Hin & ->)].
    apply filter_In in Hin. destruct Hin as [Hin Hm].
    destruct (absolute_url_suffix href) as (site & E & Hhttp).
    split; [exact Hhttp|]. split.
    + exists status_code, text, href. repeat split; try assumption.
      now apply Z.eqb_neq.
    + apply href_has_id in Hm. destruct Hm as (pre & d & post & Eh & Hd).
      assert (Eu : absolute_url href = (site ++ pre) ++ py "ID=" ++ d :: post).
      { rewrite E, Eh, <- app_assoc. reflexivity. }
      pose proof (re_search_id (absolute_url href)) as S.
      unfold get_report_id.
      destruct (re_search id_pattern (absolute_url href)) as [g|].
      * destruct S as (pre' & d' & w' & post' & _ & -> & Hd' & Hw' & _).
        exists (d' :: w'). split; [discriminate|]. split; [|reflexivity].
        simpl. now rewrite Hd', Hw'.
      * rewrite (S _ _ _ Eu) in Hd. discriminate.
Qed.
End CategoryFacts.

Lemma category_urls_have_ids_witness :
  get_report_urls (fun _ => [py "exp.php?ID=7"; py "/index.php"; py "exp.php?ID=7"])
                  (Response 200 (py "<html>"))
  = Urls [py "https://www.erowid.org/experiences/exp.php?ID=7"]
  /\ NoDup [py "https://www.erowid.org/experiences/exp.php?ID=7"].
Proof.
  assert (H : get_report_urls
                (fun _ => [py "exp.php?ID=7"; py "/index.php"; py "exp.php?ID=7"])
                (Response 200 (py "<html>"))
              = Urls [py "https://www.erowid.org/experiences/exp.php?ID=7"])
    by (vm_compute; reflexivity).
  split; [exact H|].
  exact (proj1 (category_urls_have_ids _ _ _ H)).
Defined.

Lemma startswith_spec (prefix s : str) :
  startswith prefix s = true <-> exists post, s = prefix ++ post.
Proof.
  unfold startswith. rewrite str_eqb_eq. split.
  - intros E. exists (skipn (length prefix) s).
    rewrite <- E at 1. symmetry. apply firstn_skipn.
  - intros (post & ->). rewrite firstn_app, Nat.sub_diag, firstn_all. simpl.
    apply app_nil_r.
Qed.

Lemma contains_spec (needle hay : str) :
  contains needle hay = true <-> exists pre post, hay = pre ++ needle ++ post.
Proof.
  induction hay as [|c t IH]; cbn [contains]; rewrite orb_true_iff, startswith_spec.
  - split.
    + intros [(post & E)|H]; [|discriminate]. now exists [], post.
    + intros (pre & post & E). left. destruct pre as [|? ?]; [|discriminate].
      now exists post.
  - rewrite IH. split.
    + intros [(post & E)|(pre & post & ->)]; [now exists [], post|].
      now exists (c :: pre), post.
    + intros ([|c' pre] & post & E).
      * left. now exists post.
      * right. injection E as <- ->. now exists pre, post.
Qed.

(** X10. [get_report_urls] reports a block exactly when the status code
    is 403 or the word Blocked lies within the first 500 characters of
    the response text. *)
Theorem blocked_page_iff (anchor_hrefs : str -> list str) (status_code : Z) (text : str) :
  get_report_urls anchor_hrefs (Response status_code text) = BLOCKED
  <-> status_code = 403
      \/ exists pre post, text = pre ++ py "Blocked" ++ post
                          /\ (length pre + 7 <= 500)%nat.
Proof.
  cbn [get_report_urls].
  destruct (Z.eqb_spec status_code 403) as [->|Hs]; cbn [orb].
  - split; [now left | reflexivity].
  - destruct (contains (py "Blocked") (firstn 500 text)) eqn:C.
    + split; [|reflexivity]. intros _. right.
      apply contains_spec in C. destruct C as (pre & post & E).
      exists pre, (post ++ skipn 500 text). split.
      * rewrite <- (firstn_skipn 500 text) at 1. rewrite E, <- !app_assoc. reflexivity.
      * assert (L : (length (firstn 500 text) <= 500)%nat) by apply firstn_le_length.
        rewrite E, !length_app in L.
        change (length (py "Blocked")) with 7%nat in L. lia.
    + split; [discriminate|]. intros [E|(pre & post & -> & L)]; [contradiction|].
      exfalso. assert (C' : contains (py "Blocked") (firstn 500 (pre ++ py "Blocked" ++ post))
                            = true).
      { apply contains_spec. exists pre, (firstn (500 - length pre - 7) post).
        assert (L7 : length (py "Blocked") = 7%nat) by reflexivity.
        rewrite firstn_app.
        rewrite (@firstn_all2 N 500 pre) by lia.
        rewrite firstn_app.
        rewrite (@firstn_all2 N (500 - length pre) (py "Blocked")) by (rewrite L7; lia).
        rewrite L7. reflexivity. }
      congruence.
Qed.

(** ** Step 4 *)

Lemma NoDup_fold_add (l acc : list str) : NoDup acc -> NoDup (fold_left add_key l acc).
Proof.
  revert acc. induction l as [|x t IH]; intros acc H; simpl; [exact H|].
  apply IH. now apply add_key_NoDup.
Qed.

(** X11. Step 4 of [main]: the collected report URLs have no duplicates;
    the blocked flag is set exactly when some page was blocked; and a
    URL is collected exactly when it was there before or is among the
    first MAX_REPORTS_PER_CATEGORY URLs of a page that completed before
    the first blocked one. *)
Theorem collect_report_urls_spec (results : list page_result)
        (all_report_urls found : list str) (blocked : bool) :
  collect_report_urls results all_report_urls = (found, blocked) ->
  NoDup all_report_urls ->
  NoDup found
  /\ (blocked = true <-> In BLOCKED results)
  /\ forall u, In u found <->
               In u all_report_urls
               \/ exists before res after,
                   results = before ++ Urls res :: after
                   /\ ~ In BLOCKED before
                   /\ In u (firstn MAX_REPORTS_PER_CATEGORY res).
Proof.
  revert all_report_urls. induction results as [|[|res] t IH]; intros acc H Hnd.
  - injection H as <- <-. split; [exact Hnd|]. split.
    + split; [discriminate | intros []].
    + intros u. split; [now left|]. intros [Hu|(b & r & a & E & _)]; [exact Hu|].
      now destruct b.
  - injection H as <- <-. split; [exact Hnd|]. split.
    + split; [now left | reflexivity].
    + intros u. split; [now left|]. intros [Hu|(b & r & a & E & Hb & _)]; [exact Hu|].
      destruct b as [|x b]; [discriminate|]. injection E as <- _.
      exfalso. apply Hb. now left.
  - cbn [collect_report_urls] in H.
    destruct (IH _ H (NoDup_fold_add _ _ Hnd)) as (N & B & U).
    split; [exact N|]. split.
    + rewrite B. split; [now right|]. intros [E|Hin]; [discriminate | exact Hin].
    + intros u. rewrite U, In_fold_add_key. split.
      * intros [[Hu|Hu]|(b & r & a & -> & Hb & Hu)].
        -- now left.
        -- right. exists [], res, t. repeat split; [intros [] | exact Hu].
        -- right. exists (Urls res :: b), r, a. repeat split; [|exact Hu].
           intros [E|Hin]; [discriminate | contradiction].
      * intros [Hu|(b & r & a & E & Hb & Hu)]; [left; now left|].
        destruct b as [|x b].
        -- injection E as <- <-. left. now right.
        -- injection E as <- ->. right. exists b, r, a. repeat split; [|exact Hu].
           intros Hin. apply Hb. now right.
Qed.

Lemma collect_report_urls_spec_witness :
  collect_report_urls [Urls [py "a"; py "b"]; Urls [py "a"]; BLOCKED; Urls [py "c"]] []
  = ([py "a"; py "b"], true)
  /\ NoDup [py "a"; py "b"].
Proof.
  assert (H : collect_report_urls
                [Urls [py "a"; py "b"]; Urls [py "a"]; BLOCKED; Urls [py "c"]] []
              = ([py "a"; py "b"], true)) by reflexivity.
  split; [exact H|].
  exact (proj1 (collect_report_urls_spec _ _ _ _ H (NoDup_nil str))).
Defined.

(** ** Step 6: the merge *)

Lemma group_doses_append (a : corpus) (item : dose_record) (sub m : str) :
  group_doses (append_dose a item) sub m
  = group_doses a sub m
    ++ (if str_eqb (substance item) sub && str_eqb (method item) m
        then [dose item] else []).
Proof.
  unfold group_doses, append_dose, dict_get_default.
  destruct (str_eqb (substance item) sub) eqn:Es; cbn [andb].
  - apply str_eqb_eq in Es. subst sub. rewrite dict_get_set_same.
    destruct (str_eqb (method item) m) eqn:Em.
    + apply str_eqb_eq in Em. subst m. now rewrite dict_get_set_same.
    + apply str_eqb_neq in Em.
      rewrite dict_get_set_other by congruence. now rewrite app_nil_r.
  - apply str_eqb_neq in Es.
    rewrite dict_get_set_other by congruence. now rewrite app_nil_r.
Qed.

Lemma group_doses_fold (l : list dose_record) (a : corpus) (sub m : str) :
  group_doses (fold_left append_dose l a) sub m
  = group_doses a sub m
    ++ map dose (filter (fun item => str_eqb (substance item) sub
                                     && str_eqb (method item) m) l).
Proof.
  revert a. induction l as [|item t IH]; intros a; cbn [fold_left filter].
  - now rewrite app_nil_r.
  - rewrite IH, group_doses_append, <- app_assoc. f_equal.
    now destruct (str_eqb (substance item) sub && str_eqb (method item) m).
Qed.

Lemma group_doses_merge (fs : list temp_file) (a : corpus) (sub m : str) :
  group_doses (fold_left merge_file fs a) sub m
  = group_doses a sub m
    ++ map dose (filter (fun item => str_eqb (substance item) sub
                                     && str_eqb (method item) m)
                        (flat_map doses_of_file fs)).
Proof.
  revert a. induction fs as [|f t IH]; intros a; cbn [fold_left flat_map].
  - now rewrite app_nil_r.
  - rewrite IH, filter_app, map_app, app_assoc. f_equal.
    destruct f as [url doses|]; cbn [merge_file doses_of_file].
    + apply group_doses_fold.
    + now rewrite app_nil_r.
Qed.

Lemma dict_set_not_nil (V : Type) (k : str) (v : V) (d : dict str V) :
  dict_set str_eqb k v d <> [].
Proof. destruct d as [|[k' v'] t]; simpl; [|destruct (str_eqb k k')]; discriminate. Qed.

Lemma well_formed_default (a : corpus) (sub : str) :
  well_formed a ->
  NoDup (dict_keys (dict_get_default str_eqb [] sub a))
  /\ forall m doses, In (m, doses) (dict_get_default str_eqb [] sub a) -> doses <> [].
Proof.
  intros [_ Hin]. unfold dict_get_default.
  destruct (@dict_get str (list (str * list str)) str_eqb sub a) as [ms|] eqn:G.
  - apply dict_get_In in G. destruct (Hin _ _ G) as (N & _ & F).
    split; [exact N | exact F].
  - split; [constructor | intros ? ? []].
Qed.

Lemma well_formed_append (a : corpus) (item : dose_record) :
  well_formed a -> well_formed (append_dose a item).
Proof.
  intros H. destruct (well_formed_default a (substance item) H) as [N F].
  destruct H as [Hnd Hin]. unfold append_dose. split.
  - rewrite dict_keys_set. now apply add_key_NoDup.
  - intros sub methods H. apply dict_set_In in H.
    destruct H as [E|H]; [|now apply (Hin sub methods)].
    injection E as -> ->. split; [|split].
    + rewrite dict_keys_set. now apply add_key_NoDup.
    + apply dict_set_not_nil.
    + intros m doses H. apply dict_set_In in H.
      destruct H as [E|H]; [|now apply (F m doses)].
      injection E as -> ->.
      now destruct (dict_get_default str_eqb [] (method item)
                      (dict_get_default str_eqb [] (substance item) a)).
Qed.

Lemma well_formed_merge (fs : list temp_file) (a : corpus) :
  well_formed a -> well_formed (fold_left merge_file fs a).
Proof.
  revert a. induction fs as [|f t IH]; intros a H; [exact H|].
  cbn [fold_left]. apply IH. destruct f as [url doses|]; cbn [merge_file]; [|exact H].
  revert a H. induction doses as [|item l IHl]; intros a H; [exact H|].
  cbn [fold_left]. apply IHl. now apply well_formed_append.
Qed.

(** X12. Step 6 of [main]: after the merge, the doses under a substance
    and a method are exactly the doses of the records with that
    substance and method, in the order of the files and of the records
    in them; a file that cannot be read adds nothing; substances are
    distinct, methods are distinct under each substance, and none is
    left without a dose. *)
Theorem merge_groups (temp_files : list temp_file) :
  well_formed (merge temp_files)
  /\ forall sub m,
      group_doses (merge temp_files) sub m
      = map dose (filter (fun item => str_eqb (substance item) sub
                                      && str_eqb (method item) m)
                         (flat_map doses_of_file temp_files)).
Proof.
  split.
  - apply well_formed_merge. split; [constructor | intros ? ? []].
  - intros sub m. unfold merge. now rewrite group_doses_merge.
Qed.

(** ** The aggregator on every input *)

Lemma fltb_fleb_feqb (a b : pyfloat) : fltb a b = fleb a b && negb (feqb a b).
Proof.
  destruct a as [x|], b as [y|]; simpl; try reflexivity.
  destruct (Q_dec x y) as [[L|G]|E].
  - assert (E1 : Qle_bool y x = false).
    { apply not_true_iff_false. rewrite Qle_bool_iff. now apply Qlt_not_le. }
    assert (E2 : Qle_bool x y = true) by (apply Qle_bool_iff; now apply Qlt_le_weak).
    assert (E3 : Qeq_bool x y = false).
    { apply not_true_iff_false. rewrite Qeq_bool_iff. intros E. rewrite E in L.
      now apply (Qlt_irrefl y). }
    now rewrite E1, E2, E3.
  - assert (E1 : Qle_bool y x = true) by (apply Qle_bool_iff; now apply Qlt_le_weak).
    assert (E2 : Qle_bool x y = false).
    { apply not_true_iff_false. rewrite Qle_bool_iff. now apply Qlt_not_le. }
    now rewrite E1, E2.
  - assert (E1 : Qle_bool y x = true) by (apply Qle_bool_iff; rewrite E; apply Qle_refl).
    assert (E2 : Qle_bool x y = true) by (apply Qle_bool_iff; rewrite E; apply Qle_refl).
    assert (E3 : Qeq_bool x y = true) by now apply Qeq_bool_iff.
    now rewrite E1, E2, E3.
Qed.

Lemma percentiles (vd : list pyfloat) :
  (5 <= length vd)%nat -> Z.of_nat (length vd) <= sys_maxsize ->
  StronglySorted fle vd ->
  exists p10 p30 p70 p90,
    get_p vd pct10 = Return p10 /\ get_p vd pct30 = Return p30
    /\ get_p vd pct70 = Return p70 /\ get_p vd pct90 = Return p90
    /\ fle (nth 0 vd (Finite 0)) p10 /\ fle p10 p30 /\ fle p30 p70 /\ fle p70 p90
    /\ fle p90 (last vd (Finite 0))
    /\ In p10 vd /\ In p30 vd /\ In p70 vd /\ In p90 vd.
Proof.
  intros H5 Hmax Hs.
  destruct pct_steps as (S0 & S1 & S2 & S3 & S4).
  assert (B30 : (1 # 10 <= pct30)%Q) by (apply Qle_bool_iff; vm_compute; reflexivity).
  assert (B70 : (1 # 10 <= pct70)%Q) by (apply Qle_bool_iff; vm_compute; reflexivity).
  assert (T30 : (pct30 <= 1)%Q) by (apply Qle_bool_iff; vm_compute; reflexivity).
  assert (T70 : (pct70 <= 1)%Q) by (apply Qle_bool_iff; vm_compute; reflexivity).
  destruct (get_p_mono vd pct10 pct30 H5 Hmax S0 S1 T30) as (i10 & i30 & E10 & E30 & I1).
  destruct (get_p_mono vd pct30 pct70 H5 Hmax B30 S2 T70) as (i30' & i70 & E30' & E70 & I2).
  destruct (get_p_mono vd pct70 pct90 H5 Hmax B70 S3 S4) as (i70' & i90 & E70' & E90 & I3).
  assert (Hnth : forall i j, (i <= j < length vd)%nat ->
                             fle (nth i vd (Finite 0)) (nth j vd (Finite 0))).
  { intros i j Hij. apply sorted_nth_le; auto using fle_refl; lia. }
  exists (nth i10 vd (Finite 0)), (nth i30 vd (Finite 0)).
  exists (nth i70 vd (Finite 0)), (nth i90 vd (Finite 0)).
  do 4 (split; [assumption|]).
  rewrite last_nth.
  split; [apply Hnth; lia|].
  split; [apply Hnth; lia|].
  split.
  { rewrite E30' in E30. injection E30 as <-. apply Hnth; lia. }
  split.
  { rewrite E70' in E70. injection E70 as <-. apply Hnth; lia. }
  split; [apply Hnth; lia|].
  assert (I70 : (i70 < length vd)%nat).
  { rewrite E70' in E70. lia. }
  repeat split; apply nth_In; lia.
Qed.

Lemma fmt_not_nil (unit : str) (a b : pyfloat) : fmt unit a b <> [].
Proof.
  unfold fmt. destruct (feqb a b); intros E; apply app_eq_nil in E;
    destruct E as [_ E]; [discriminate|].
  apply app_eq_nil in E. destruct E as [_ E]. apply app_eq_nil in E.
  destruct E as [_ E]. discriminate.
Qed.

Lemma bands_large_fields (unit : str) (vd : list pyfloat) (p10 p30 p70 p90 : pyfloat) :
  (5 <= length vd)%nat ->
  get_p vd pct10 = Return p10 -> get_p vd pct30 = Return p30 ->
  get_p vd pct70 = Return p70 -> get_p vd pct90 = Return p90 ->
  fle (nth 0 vd (Finite 0)) p10 -> fle p10 p30 -> fle p30 p70 -> fle p70 p90 ->
  exists r,
    bands unit vd = Return (Some r)
    /\ Threshold r = fmt unit (nth 0 vd (Finite 0)) p10
    /\ Light r = (if feqb p10 p30 then [] else fmt unit p10 p30)
    /\ Common r = fmt unit p30 p70
    /\ Strong r = (if feqb p70 p90 then [] else fmt unit p70 p90)
    /\ Heavy r = float_repr p90 ++ py "+ " ++ unit.
Proof.
  intros H5 E10 E30 E70 E90 L0 L1 L2 L3.
  assert (E : (length vd <? 5)%nat = false) by (apply Nat.ltb_ge; lia).
  destruct vd as [|a [|b t]]; simpl in H5; try lia.
  unfold bands. rewrite E, E10, E30, E70, E90. cbn [bind].
  cbn [nth] in L0. unfold fle in L0, L1, L2, L3.
  rewrite L0, L2, !fltb_fleb_feqb, L1, L3. cbn [andb nth].
  eexists. split; [reflexivity|].
  destruct (feqb p10 p30), (feqb p70 p90); cbn; repeat split; reflexivity.
Qed.

Lemma bands_total (unit : str) (vd : list pyfloat) :
  Z.of_nat (length vd) <= sys_maxsize -> StronglySorted fle vd ->
  exists o, bands unit vd = Return o
            /\ (o = None <-> vd = [])
            /\ forall r, o = Some r -> Common r <> [].
Proof.
  intros Hmax Hs.
  destruct (Nat.le_gt_cases 5 (length vd)) as [H5|H5].
  - destruct (percentiles vd H5 Hmax Hs)
      as (p10 & p30 & p70 & p90 & E10 & E30 & E70 & E90 & L0 & L1 & L2 & L3 & _).
    destruct (bands_large_fields unit vd _ _ _ _ H5 E10 E30 E70 E90 L0 L1 L2 L3)
      as (r & Hr & _ & _ & HC & _).
    exists (Some r). split; [exact Hr|]. split.
    + split; [discriminate|]. intros ->. simpl in H5. lia.
    + intros r' [= <-]. rewrite HC. apply fmt_not_nil.
  - destruct vd as [|v [|w t]].
    + exists None. repeat split; try reflexivity. discriminate.
    + exists (Some (set_Common (float_repr v ++ [32%N] ++ unit)
                               (empty_ranges (stats_of unit [v])))).
      split; [reflexivity|]. split; [split; discriminate|].
      intros r [= <-]. cbn. intros E. apply app_eq_nil in E. destruct E as [_ E].
      discriminate.
    + destruct (bands_small unit (v :: w :: t)) as (min_v & _ & Hr).
      { simpl in *. lia. }
      eexists. split; [exact Hr|]. split; [split; discriminate|].
      intros r [= <-]. cbn [Common set_Common]. apply fmt_not_nil.
Qed.

Lemma analyze_doses_no_raise (doses : list str) :
  Z.of_nat (length doses) <= sys_maxsize ->
  exists o, analyze_doses doses = Return o.
Proof.
  intros Hmax. rewrite analyze_doses_bands.
  pose proof (majority_sample_length doses) as Hlen.
  destruct (majority_unit doses) as [unit|]; [|now exists None].
  destruct (bands_total unit (majority_sample doses)) as (o & Ho & _);
    [lia | apply majority_sample_sorted |].
  now exists o.
Qed.

(** X13. [analyze_doses] raises nothing on a list of at most sys.maxsize
    strings; it returns None exactly when no string parses; and a record
    it returns counts at least one and at most len(doses) reports and
    has a Common band. *)
Theorem analyze_doses_returns (doses : list str) :
  Z.of_nat (length doses) <= sys_maxsize ->
  exists o,
    analyze_doses doses = Return o
    /\ (o = None <-> parse_doses doses = [])
    /\ forall r, o = Some r ->
                 (1 <= total_reports (_stats r) <= length doses)%nat
                 /\ Common r <> [].
Proof.
  intros Hmax. rewrite analyze_doses_bands.
  pose proof (majority_sample_length doses) as Hlen.
  pose proof (majority_sample_sorted doses) as Hs.
  destruct (majority_unit doses) as [unit|] eqn:Hu.
  - destruct (bands_total unit (majority_sample doses)) as (o & Ho & Hn & Hc);
      [lia | exact Hs |].
    assert (Hpos : (1 <= length (majority_sample doses))%nat).
    { unfold majority_sample. rewrite Hu, valid_doses_length.
      apply (majority_unit_max doses unit Hu). }
    exists o. split; [exact Ho|]. split.
    + split.
      * intros E. apply Hn in E. rewrite E in Hpos. simpl in Hpos. lia.
      * intros E. apply majority_unit_None in E. congruence.
    + intros r ->. split; [|now apply Hc].
      apply bands_stats in Ho. rewrite Ho. cbn [total_reports stats_of]. lia.
  - exists None. split; [reflexivity|]. split.
    + split; [intros _; now apply majority_unit_None | reflexivity].
    + discriminate.
Qed.

Lemma analyze_doses_returns_witness :
  Z.of_nat (length mixed_doses) <= sys_maxsize
  /\ exists o, analyze_doses mixed_doses = Return o /\ o <> None.
Proof.
  assert (Hm : Z.of_nat (length mixed_doses) <= sys_maxsize) by (vm_compute; discriminate).
  split; [exact Hm|].
  destruct (analyze_doses_returns mixed_doses Hm) as (o & Ho & Hn & _).
  exists o. split; [exact Ho|]. intros E. apply Hn in E. vm_compute in E. discriminate.
Defined.

(** X14. With five or more values of the majority unit the guards of
    Threshold and Common never fail: Threshold is fmt(min, p10), Common
    is fmt(p30, p70), Light is fmt(p10, p30) unless p10 = p30 and Strong
    is fmt(p70, p90) unless p70 = p90 (they stay empty then), Heavy is
    set, and every percentile is a value of the sample. *)
Theorem large_sample_bands (doses : list str) (unit : str) :
  majority_unit doses = Some unit ->
  (5 <= length (majority_sample doses))%nat ->
  Z.of_nat (length doses) <= sys_maxsize ->
  exists min_v p10 p30 p70 p90 r,
    hd_error (majority_sample doses) = Some min_v
    /\ get_p (majority_sample doses) pct10 = Return p10
    /\ get_p (majority_sample doses) pct30 = Return p30
    /\ get_p (majority_sample doses) pct70 = Return p70
    /\ get_p (majority_sample doses) pct90 = Return p90
    /\ In p10 (majority_sample doses) /\ In p30 (majority_sample doses)
    /\ In p70 (majority_sample doses) /\ In p90 (majority_sample doses)
    /\ analyze_doses doses = Return (Some r)
    /\ Threshold r = fmt unit min_v p10
    /\ Light r = (if feqb p10 p30 then [] else fmt unit p10 p30)
    /\ Common r = fmt unit p30 p70
    /\ Strong r = (if feqb p70 p90 then [] else fmt unit p70 p90)
    /\ Threshold r <> [] /\ Common r <> [] /\ Heavy r <> [].
Proof.
  intros Hu H5 Hmax.
  pose proof (majority_sample_length doses) as Hlen.
  pose proof (majority_sample_sorted doses) as Hs.
  set (vd := majority_sample doses) in *.
  assert (Hmax' : Z.of_nat (length vd) <= sys_maxsize) by lia.
  destruct (percentiles vd H5 Hmax' Hs)
    as (p10 & p30 & p70 & p90 & E10 & E30 & E70 & E90 & L0 & L1 & L2 & L3 & _
        & I10 & I30 & I70 & I90).
  destruct (bands_large_fields unit vd _ _ _ _ H5 E10 E30 E70 E90 L0 L1 L2 L3)
    as (r & Hr & HT & HL & HC & HS & HH).
  exists (nth 0 vd (Finite 0)), p10, p30, p70, p90, r.
  split; [destruct vd; [simpl in H5; lia | reflexivity]|].
  do 8 (split; [assumption|]).
  split; [rewrite analyze_doses_bands, Hu; exact Hr|].
  do 4 (split; [assumption|]).
  rewrite HT, HC, HH. repeat split; try apply fmt_not_nil.
  intros E. apply app_eq_nil in E. destruct E as [_ E]. discriminate.
Qed.

Lemma large_sample_bands_witness :
  majority_unit scenario_doses = Some (py "mg")
  /\ (5 <= length (majority_sample scenario_doses))%nat
  /\ Z.of_nat (length scenario_doses) <= sys_maxsize
  /\ exists r, analyze_doses scenario_doses = Return (Some r) /\ Common r <> [].
Proof.
  assert (Hu : majority_unit scenario_doses = Some (py "mg")) by (vm_compute; reflexivity).
  assert (H5 : (5 <= length (majority_sample scenario_doses))%nat) by (vm_compute; lia).
  assert (Hm : Z.of_nat (length scenario_doses) <= sys_maxsize) by (vm_compute; discriminate).
  split; [exact Hu|]. split; [exact H5|]. split; [exact Hm|].
  destruct (large_sample_bands scenario_doses _ Hu H5 Hm)
    as (min_v & p10 & p30 & p70 & p90 & r & H).
  exists r. split; [apply H | apply H].
Defined.

(** ** Step 7: one band record per group *)

Lemma analyze_methods_get (methods : dict str (list str)) :
  NoDup (dict_keys methods) ->
  forall (acc fd : dict str ranges),
    foldM analyze_method methods acc = Return fd ->
    forall m,
      dict_get str_eqb m fd
      = match dict_get str_eqb m methods with
        | Some doses =>
            match analyze_doses doses with
            | Return (Some r) => Some r
            | _ => dict_get str_eqb m acc
            end
        | None => dict_get str_eqb m acc
        end.
Proof.
  induction methods as [|[m0 d0] t IH]; intros Hnd acc fd H m.
  - injection H as <-. reflexivity.
  - change (dict_keys ((m0, d0) :: t)) with (m0 :: dict_keys t) in Hnd.
    inversion Hnd as [|? ? Hnot Hnd']; subst.
    cbn [foldM analyze_method] in H.
    destruct (analyze_doses d0) as [o|e] eqn:E; cbn [bind] in H; [|discriminate].
    rewrite (IH Hnd' _ _ H m). cbn [dict_get].
    destruct (str_eqb m m0) eqn:Em.
    + apply str_eqb_eq in Em. subst m0.
      assert (N : dict_get str_eqb m t = None) by now apply dict_get_None_iff.
      rewrite N, E. destruct o as [r|]; [apply dict_get_set_same | reflexivity].
    + apply str_eqb_neq in Em.
      assert (G : dict_get str_eqb m
                    match o with
                    | Some r => dict_set str_eqb m0 r acc
                    | None => acc
                    end = dict_get str_eqb m acc).
      { destruct o; [now apply dict_get_set_other | reflexivity]. }
      now rewrite G.
Qed.

Lemma analyze_methods_returns (methods : dict str (list str)) :
  (forall m doses, In (m, doses) methods -> Z.of_nat (length doses) <= sys_maxsize) ->
  forall acc, exists fd, foldM analyze_method methods acc = Return fd.
Proof.
  induction methods as [|[m0 d0] t IH]; intros Hs acc.
  - now exists acc.
  - cbn [foldM analyze_method].
    destruct (analyze_doses_no_raise d0) as (o & Ho); [apply (Hs m0); now left|].
    rewrite Ho. cbn [bind]. apply IH. intros m doses Hin. apply (Hs m). now right.
Qed.

Lemma analyze_methods_keys (methods : dict str (list str)) :
  forall (acc fd : dict str ranges),
    foldM analyze_method methods acc = Return fd ->
    NoDup (dict_keys acc) -> NoDup (dict_keys fd).
Proof.
  induction methods as [|[m0 d0] t IH]; intros acc fd H Hnd.
  - now injection H as <-.
  - cbn [foldM analyze_method] in H.
    destruct (analyze_doses d0) as [o|e]; cbn [bind] in H; [|discriminate].
    apply (IH _ _ H). destruct o; [|exact Hnd].
    rewrite dict_keys_set. now apply add_key_NoDup.
Qed.

Lemma analyze_all_get (a : corpus) :
  NoDup (dict_keys a) ->
  forall (acc out : dict str substance_entry),
    foldM analyze_substance a acc = Return out ->
    forall sub,
      dict_get str_eqb sub out
      = match dict_get str_eqb sub a with
        | Some methods =>
            match analyze_methods methods with
            | Return (x :: fd) => Some {| formatted_dose := x :: fd |}
            | _ => dict_get str_eqb sub acc
            end
        | None => dict_get str_eqb sub acc
        end.
Proof.
  induction a as [|[s0 ms0] t IH]; intros Hnd acc out H sub.
  - injection H as <-. reflexivity.
  - change (dict_keys ((s0, ms0) :: t)) with (s0 :: dict_keys t) in Hnd.
    inversion Hnd as [|? ? Hnot Hnd']; subst.
    cbn [foldM analyze_substance] in H.
    destruct (analyze_methods ms0) as [fd|e] eqn:E; cbn [bind] in H; [|discriminate].
    rewrite (IH Hnd' _ _ H sub). cbn [dict_get].
    destruct (str_eqb sub s0) eqn:Es.
    + apply str_eqb_eq in Es. subst s0.
      assert (N : dict_get str_eqb sub t = None) by now apply dict_get_None_iff.
      rewrite N, E. destruct fd as [|x fd]; [reflexivity | apply dict_get_set_same].
    + apply str_eqb_neq in Es.
      assert (G : dict_get str_eqb sub
                    match fd with
                    | [] => acc
                    | _ :: _ => dict_set str_eqb s0 {| formatted_dose := fd |} acc
                    end = dict_get str_eqb sub acc).
      { destruct fd; [reflexivity | now apply dict_get_set_other]. }
      now rewrite G.
Qed.

Lemma analyze_all_keys (a : corpus) :
  forall (acc out : dict str substance_entry),
    foldM analyze_substance a acc = Return out ->
    NoDup (dict_keys acc) -> NoDup (dict_keys out).
Proof.
  induction a as [|[s0 ms0] t IH]; intros acc out H Hnd.
  - now injection H as <-.
  - cbn [foldM analyze_substance] in H.
    destruct (analyze_methods ms0) as [fd|e]; cbn [bind] in H; [|discriminate].
    apply (IH _ _ H). destruct fd; [exact Hnd|].
    rewrite dict_keys_set. now apply add_key_NoDup.
Qed.

Lemma analyze_all_returns (a : corpus) :
  (forall sub methods m doses,
      In (sub, methods) a -> In (m, doses) methods ->
      Z.of_nat (length doses) <= sys_maxsize) ->
  forall acc, exists out, foldM analyze_substance a acc = Return out.
Proof.
  induction a as [|[s0 ms0] t IH]; intros Hs acc.
  - now exists acc.
  - cbn [foldM analyze_substance].
    destruct (analyze_methods_returns ms0) with (acc := @nil (str * ranges)) as (fd & Hfd).
    { intros m doses Hin. apply (Hs s0 ms0 m doses); [now left | exact Hin]. }
    unfold analyze_methods. rewrite Hfd. cbn [bind]. apply IH.
    intros sub methods m doses H1 H2. apply (Hs sub methods m doses); [now right | exact H2].
Qed.

Lemma group_doses_get (a : corpus) (sub m : str) :
  group_doses a sub m
  = match dict_get str_eqb sub a with
    | Some methods =>
        match dict_get str_eqb m methods with
        | Some doses => doses
        | None => []
        end
    | None => []
    end.
Proof.
  unfold group_doses, dict_get_default.
  change (@dict_get str (list (str * list str)) str_eqb sub a)
    with (@dict_get str (dict str (list str)) str_eqb sub a).
  destruct (dict_get str_eqb sub a); reflexivity.
Qed.

Lemma analyze_all_entry (all_doses : corpus) (out : dict str substance_entry) :
  NoDup (dict_keys all_doses) ->
  analyze_all all_doses = Return out ->
  forall sub e,
    dict_get str_eqb sub out = Some e ->
    exists methods, dict_get str_eqb sub all_doses = Some methods
                    /\ analyze_methods methods = Return (formatted_dose e)
                    /\ formatted_dose e <> [].
Proof.
  intros Hnd Hout sub e He.
  rewrite (analyze_all_get all_doses Hnd _ _ Hout) in He.
  destruct (dict_get str_eqb sub all_doses) as [methods|]; [|discriminate].
  exists methods. split; [reflexivity|].
  destruct (analyze_methods methods) as [[|x fd]|]; try discriminate.
  injection He as <-. split; [reflexivity | discriminate].
Qed.

Lemma analyze_all_record (all_doses : corpus) (out : dict str substance_entry) :
  well_formed all_doses ->
  (forall sub methods m doses,
      In (sub, methods) all_doses -> In (m, doses) methods ->
      Z.of_nat (length doses) <= sys_maxsize) ->
  analyze_all all_doses = Return out ->
  forall sub m r,
    (exists e, dict_get str_eqb sub out = Some e
               /\ dict_get str_eqb m (formatted_dose e) = Some r)
    <-> analyze_doses (group_doses all_doses sub m) = Return (Some r).
Proof.
  intros [Hnd Hwf] Hsize Hout sub m r. rewrite group_doses_get. split.
  - intros (e & He & Hr).
    destruct (analyze_all_entry all_doses out Hnd Hout sub e He) as (methods & Hm & Ha & _).
    rewrite Hm. apply dict_get_In in Hm. destruct (Hwf _ _ Hm) as (Hndm & _).
    rewrite (analyze_methods_get methods Hndm _ _ Ha m) in Hr.
    destruct (dict_get str_eqb m methods) as [doses|]; [|discriminate].
    destruct (analyze_doses doses) as [[r'|]|]; try discriminate.
    now injection Hr as <-.
  - intros Hr. rewrite (analyze_all_get all_doses Hnd _ _ Hout).
    destruct (dict_get str_eqb sub all_doses) as [methods|] eqn:Hm;
      [|vm_compute in Hr; discriminate].
    apply dict_get_In in Hm. destruct (Hwf _ _ Hm) as (Hndm & _).
    destruct (analyze_methods_returns methods) with (acc := @nil (str * ranges))
      as (fd & Hfd).
    { intros m' doses Hin. now apply (Hsize sub methods m' doses). }
    pose proof (analyze_methods_get methods Hndm _ _ Hfd m) as Gm.
    destruct (dict_get str_eqb m methods) as [doses|];
      [|vm_compute in Hr; discriminate].
    rewrite Hr in Gm. unfold analyze_methods. rewrite Hfd.
    destruct fd as [|x fd]; [discriminate|].
    exists {| formatted_dose := x :: fd |}. split; [reflexivity | exact Gm].
Qed.

(** X15. Step 7 of [main], on a corpus as step 6 builds it whose groups
    hold at most sys.maxsize doses: the loop raises nothing; the result
    has distinct substances, each with a non-empty table of distinct
    methods; and a substance and method have the record r exactly when
    [analyze_doses] returns r for the doses of that group. *)
Theorem analyze_all_groups (all_doses : corpus) :
  well_formed all_doses ->
  (forall sub methods m doses,
      In (sub, methods) all_doses -> In (m, doses) methods ->
      Z.of_nat (length doses) <= sys_maxsize) ->
  exists formatted_data,
    analyze_all all_doses = Return formatted_data
    /\ NoDup (dict_keys formatted_data)
    /\ (forall sub e, dict_get str_eqb sub formatted_data = Some e ->
                      formatted_dose e <> [] /\ NoDup (dict_keys (formatted_dose e)))
    /\ forall sub m r,
        (exists e, dict_get str_eqb sub formatted_data = Some e
                   /\ dict_get str_eqb m (formatted_dose e) = Some r)
        <-> analyze_doses (group_doses all_doses sub m) = Return (Some r).
Proof.
  intros Hwf Hsize.
  destruct (analyze_all_returns all_doses Hsize []) as (out & Hout).
  exists out. split; [exact Hout|].
  split; [apply (analyze_all_keys _ _ _ Hout); constructor|].
  split.
  - intros sub e He.
    destruct (analyze_all_entry all_doses out (proj1 Hwf) Hout sub e He)
      as (methods & _ & Ha & Hne).
    split; [exact Hne|]. apply (analyze_methods_keys _ _ _ Ha). constructor.
  - now apply analyze_all_record.
Qed.

Lemma analyze_all_groups_witness :
  well_formed (merge [Report url_a [stored_item]])
  /\ exists formatted_data,
      analyze_all (merge [Report url_a [stored_item]]) = Return formatted_data
      /\ NoDup (dict_keys formatted_data).
Proof.
  assert (W : well_formed (merge [Report url_a [stored_item]])).
  { apply well_formed_merge. split; [constructor | intros ? ? []]. }
  split; [exact W|].
  destruct (analyze_all_groups (merge [Report url_a [stored_item]]) W)
    as (fd & Hfd & Hnd & _).
  - intros sub methods m doses H1 H2.
    destruct H1 as [[= <- <-]|[]]. destruct H2 as [[= <- <-]|[]].
    vm_compute. discriminate.
  - exists fd. split; [exact Hfd | exact Hnd].
Defined.

(** X16. Steps 6 and 7 together: for report files with at most
    sys.maxsize records in all, the formatted data has the record r
    under a substance and a method exactly when [analyze_doses] returns
    r for the doses of all records with that substance and method,
    taken in file order. *)
Theorem merge_then_analyze (temp_files : list temp_file) :
  Z.of_nat (length (flat_map doses_of_file temp_files)) <= sys_maxsize ->
  exists formatted_data,
    analyze_all (merge temp_files) = Return formatted_data
    /\ forall sub m r,
        (exists e, dict_get str_eqb sub formatted_data = Some e
                   /\ dict_get str_eqb m (formatted_dose e) = Some r)
        <-> analyze_doses
              (map dose (filter (fun item => str_eqb (substance item) sub
                                             && str_eqb (method item) m)
                                (flat_map doses_of_file temp_files)))
            = Return (Some r).
Proof.
  intros Hsize.
  assert (W : well_formed (merge temp_files)).
  { apply well_formed_merge. split; [constructor | intros ? ? []]. }
  assert (G : forall sub m,
             group_doses (merge temp_files) sub m
             = map dose (filter (fun item => str_eqb (substance item) sub
                                             && str_eqb (method item) m)
                                (flat_map doses_of_file temp_files))).
  { intros sub m. unfold merge. now rewrite group_doses_merge. }
  assert (S : forall sub methods m doses,
             In (sub, methods) (merge temp_files) -> In (m, doses) methods ->
             Z.of_nat (length doses) <= sys_maxsize).
  { intros sub methods m doses H1 H2.
    assert (E : doses = group_doses (merge temp_files) sub m).
    { rewrite group_doses_get.
      destruct W as [Hnd Hwf]. destruct (Hwf _ _ H1) as (Hndm & _).
      now rewrite (In_dict_get _ _ _ _ Hnd H1), (In_dict_get _ _ _ _ Hndm H2). }
    rewrite E, G, length_map.
    pose proof (filter_length_le
                  (fun item => str_eqb (substance item) sub && str_eqb (method item) m)
                  (flat_map doses_of_file temp_files)) as L.
    lia. }
  destruct (analyze_all_returns (merge temp_files) S []) as (fd & Hfd).
  exists fd. split; [exact Hfd|]. intros sub m r. rewrite <- G.
  now apply analyze_all_record.
Qed.

Lemma merge_then_analyze_witness :
  exists formatted_data,
    analyze_all (merge [Report url_a [stored_item]; Corrupt]) = Return formatted_data
    /\ exists e r, dict_get str_eqb (py "LSD") formatted_data = Some e
                   /\ dict_get str_eqb (py "oral") (formatted_dose e) = Some r
                   /\ Common r = py "100.0 ug".
Proof.
  destruct (merge_then_analyze [Report url_a [stored_item]; Corrupt])
    as (fd & Hfd & Hr).
  - vm_compute. discriminate.
  - exists fd. split; [exact Hfd|].
    destruct (proj2 (Hr (py "LSD") (py "oral")
                        (set_Common (py "100.0 ug")
                           (empty_ranges (stats_of (py "ug") [Finite 100])))))
      as (e & He & Hm).
    + vm_compute. reflexivity.
    + exists e. eexists. split; [exact He|]. split; [exact Hm | reflexivity].
Defined.

(** ** Step 5: the ledger and the report store *)

Lemma dict_mem_set (V : Type) (id k : str) (v : V) (d : dict str V) :
  dict_mem str_eqb id d = true -> dict_mem str_eqb id (dict_set str_eqb k v d) = true.
Proof.
  rewrite !dict_mem_iff, dict_keys_set, In_add_key. now left.
Qed.

Lemma dict_mem_set_same (V : Type) (k : str) (v : V) (d : dict str V) :
  dict_mem str_eqb k (dict_set str_eqb k v d) = true.
Proof. unfold dict_mem. now rewrite dict_get_set_same. Qed.

Lemma backed_set (md5_hex : str -> str) (st : store) (l : ledger) (id : str)
      (f : temp_file) :
  backed md5_hex st l -> backed md5_hex (dict_set str_eqb id f st) l.
Proof. intros B u Hu. apply dict_mem_set. now apply B. Qed.

Lemma backed_update (md5_hex : str -> str) (st : store) (l : ledger) (url status : str) :
  backed md5_hex st l ->
  (status = DONE -> dict_mem str_eqb (get_report_id md5_hex url) st = true) ->
  backed md5_hex st (dict_set str_eqb url status l).
Proof.
  intros B Hs u Hu. destruct (list_eq_dec N.eq_dec u url) as [->|Hne].
  - rewrite dict_get_set_same in Hu. injection Hu as Hu. now apply Hs.
  - rewrite dict_get_set_other in Hu by exact Hne. now apply B.
Qed.

Lemma task_backed_set (md5_hex : str -> str) (st : store) (t : task) (id : str)
      (f : temp_file) :
  task_backed md5_hex st t -> task_backed md5_hex (dict_set str_eqb id f st) t.
Proof.
  destruct t; cbn [task_backed]; try exact (fun H => H).
  - intros H E. apply dict_mem_set. now apply H.
  - apply backed_set.
  - apply backed_set.
Qed.

(** What a step of one worker does to the store, and what it keeps. *)
Lemma task_step_store (md5_hex : str -> str) (l : option ledger) (st : store) (t : task)
      (l' : option ledger) (st' : store) (t' : task) :
  task_step md5_hex l st t l' st' t' ->
  (st' = st
   \/ exists url f, url_of t = Some url
                    /\ st' = dict_set str_eqb (get_report_id md5_hex url) f st)
  /\ (forall v, url_of t' = Some v -> url_of t = Some v).
Proof.
  intros H. destruct H; cbn [url_of]; split; try (now left); try (intros v E; exact E);
    try discriminate.
  - right. now exists url, (Report url results).
  - right. now exists url, f.
  - right. now exists url, f.
Qed.

Lemma task_step_backed (md5_hex : str -> str) (l : option ledger) (st : store) (t : task)
      (l' : option ledger) (st' : store) (t' : task) :
  task_step md5_hex l st t l' st' t' ->
  (forall m, l = Some m -> backed md5_hex st m) ->
  task_backed md5_hex st t ->
  (forall m, l' = Some m -> backed md5_hex st' m) /\ task_backed md5_hex st' t'.
Proof.
  intros H Hl Ht. destruct H; cbn [task_backed] in *; split;
    try exact Hl; try exact I; try discriminate;
    try (intros E; exfalso; vm_compute in E; discriminate E).
  - intros m E. apply backed_set. now apply Hl.
  - intros _. apply dict_mem_set_same.
  - intros m E. apply backed_set. now apply Hl.
  - intros _. apply dict_mem_set_same.
  - intros m E. apply backed_set. now apply Hl.
  - apply backed_update; [now apply Hl | exact Ht].
  - apply backed_update; [intros u Hu; discriminate | exact Ht].
  - exact Ht.
  - intros m [= <-]. exact Ht.
Qed.

Lemma pool_step_keeps (md5_hex : str -> str) (p p' : pool) :
  pool_step md5_hex p p' ->
  (pool_backed md5_hex p -> pool_backed md5_hex p')
  /\ (forall id, dict_mem str_eqb id (report_store p) = true ->
                 dict_mem str_eqb id (report_store p') = true)
  /\ (forall v, In (Some v) (map url_of (tasks p')) -> In (Some v) (map url_of (tasks p)))
  /\ (forall id,
         (forall v, In (Some v) (map url_of (tasks p)) -> get_report_id md5_hex v <> id) ->
         dict_get str_eqb id (report_store p') = dict_get str_eqb id (report_store p)).
Proof.
  intros H. destruct H as [l st t l' st' t' before after H].
  cbn [ledger_file report_store tasks].
  destruct (task_step_store _ _ _ _ _ _ _ H) as [Hst Hurl].
  assert (Hmem : forall id, dict_mem str_eqb id st = true -> dict_mem str_eqb id st' = true).
  { intros id Hid. destruct Hst as [->|(url & f & _ & ->)]; [exact Hid|].
    now apply dict_mem_set. }
  assert (Hother : forall t0, task_backed md5_hex st t0 -> task_backed md5_hex st' t0).
  { intros t0 H0. destruct Hst as [->|(url & f & _ & ->)]; [exact H0|].
    now apply task_backed_set. }
  split; [|split; [exact Hmem|split]].
  - intros [Hl Hts]. unfold pool_backed, done_have_files in *.
    cbn [ledger_file report_store tasks] in *.
    apply Forall_app in Hts. destruct Hts as [Hb Hta].
    inversion Hta as [|? ? Ht Ha]; subst.
    destruct (task_step_backed _ _ _ _ _ _ _ H Hl Ht) as [Hl' Ht'].
    split; [exact Hl'|]. apply Forall_app. split.
    + apply Forall_forall. intros t0 H0. apply Hother.
      rewrite Forall_forall in Hb. now apply Hb.
    + constructor; [exact Ht'|]. apply Forall_forall. intros t0 H0. apply Hother.
      rewrite Forall_forall in Ha. now apply Ha.
  - intros v. rewrite !map_app, !in_app_iff. cbn [map In].
    intros [Hv|[Hv|Hv]]; [now left | | right; now right].
    right. left. now apply Hurl.
  - intros id Hid. destruct Hst as [->|(url & f & Eu & ->)]; [reflexivity|].
    apply dict_get_set_other. intros E. apply (Hid url); [|now symmetry].
    rewrite map_app, in_app_iff. right. left. exact Eu.
Qed.

Lemma pool_run_keeps (md5_hex : str -> str) (p p' : pool) :
  pool_run md5_hex p p' ->
  (pool_backed md5_hex p -> pool_backed md5_hex p')
  /\ (forall id, dict_mem str_eqb id (report_store p) = true ->
                 dict_mem str_eqb id (report_store p') = true)
  /\ (forall id,
         (forall v, In (Some v) (map url_of (tasks p)) -> get_report_id md5_hex v <> id) ->
         dict_get str_eqb id (report_store p') = dict_get str_eqb id (report_store p)).
Proof.
  induction 1 as [p|p p' p'' Hs _ (IH1 & IH2 & IH3)].
  - split; [exact (fun H => H)|]. split; [exact (fun id H => H)|]. reflexivity.
  - destruct (pool_step_keeps _ _ _ Hs) as (S1 & S2 & S3 & S4).
    split; [auto|]. split; [auto|].
    intros id Hid. rewrite IH3; [now apply S4|].
    intros v Hv. apply Hid. now apply S3.
Qed.


(** X26. Step 5 on four threads, in every interleaving of the workers:
    a file of the report store whose identifier is that of no queued
    URL is left as it was, whether it was there or not. *)
Theorem workers_write_queued_files_only (md5_hex : str -> str) (queue : list str)
        (p p' : pool) :
  tasks p = map Fetching queue ->
  pool_run md5_hex p p' ->
  forall id, (forall v, In v queue -> get_report_id md5_hex v <> id) ->
             dict_get str_eqb id (report_store p') = dict_get str_eqb id (report_store p).
Proof.
  intros Hq Hrun id Hid. destruct (pool_run_keeps _ _ _ Hrun) as (_ & _ & K3).
  apply K3. intros v Hv. apply Hid.
  rewrite Hq, map_map in Hv. cbn [url_of] in Hv.
  apply in_map_iff in Hv. destruct Hv as (u & [= <-] & Hu). exact Hu.
Qed.

Lemma pool_run_trans (md5_hex : str -> str) (p p' p'' : pool) :
  pool_run md5_hex p p' -> pool_run md5_hex p' p'' -> pool_run md5_hex p p''.
Proof.
  induction 1 as [p|p q r Hs _ IH]; intros H; [exact H|].
  apply run_next with q; [exact Hs | now apply IH].
Qed.

Lemma pool_run_one (md5_hex : str -> str) (l : option ledger) (st : store) (t : task)
      (l' : option ledger) (st' : store) (t' : task) (before after : list task) :
  task_step md5_hex l st t l' st' t' ->
  pool_run md5_hex
           {| ledger_file := l; report_store := st; tasks := before ++ t :: after |}
           {| ledger_file := l'; report_store := st'; tasks := before ++ t' :: after |}.
Proof.
  intros H. apply run_next with
    {| ledger_file := l'; report_store := st'; tasks := before ++ t' :: after |};
    [apply worker_step; exact H | apply run_stop].
Qed.

(** [update_progress] alone, from the load to the rewrite. *)
Lemma update_run (md5_hex : str -> str) (l : ledger) (st : store) (url status : str)
      (before after : list task) :
  pool_run md5_hex
           {| ledger_file := Some l; report_store := st;
              tasks := before ++ Loading url status :: after |}
           {| ledger_file := Some (update_progress url status l); report_store := st;
              tasks := before ++ Finished :: after |}.
Proof.
  eapply pool_run_trans; [apply pool_run_one, load_ledger|].
  eapply pool_run_trans; [apply pool_run_one, open_truncates|].
  apply pool_run_one, dump_written.
Qed.

Section Sequential.
Variable md5_hex : str -> str.
Variable web : str -> response.
Variable disk : str -> write.

Lemma process_report_run (s : run_state) (url : str) (before after : list task) :
  pool_run md5_hex
           {| ledger_file := Some (progress_of s); report_store := files_of s;
              tasks := before ++ Fetching url :: after |}
           {| ledger_file := Some (progress_of (process_report md5_hex web disk s url));
              report_store := files_of (process_report md5_hex web disk s url);
              tasks := before ++ Finished :: after |}.
Proof.
  unfold process_report. destruct (web url) as [|text|]; cbn [progress_of files_of].
  - eapply pool_run_trans; [apply pool_run_one, fetch_blocked | apply update_run].
  - eapply pool_run_trans; [apply pool_run_one, fetch_page with (text := text)|].
    destruct (disk url); cbn [progress_of files_of].
    + eapply pool_run_trans; [apply pool_run_one, save_written | apply update_run].
    + eapply pool_run_trans; [apply pool_run_one, save_refused | apply update_run].
    + eapply pool_run_trans; [apply pool_run_one, save_torn | apply update_run].
  - eapply pool_run_trans; [apply pool_run_one, fetch_raises | apply update_run].
Qed.

(** X25. Processing the queue with [process_report], one call after
    the other, is one of the runs of the workers: it takes the ledger
    file and the report store to the ledger and the store that [scrape]
    computes. *)
Theorem scrape_is_an_interleaving (schedule : list str) (s : run_state) :
  pool_run md5_hex
           {| ledger_file := Some (progress_of s); report_store := files_of s;
              tasks := map Fetching schedule |}
           {| ledger_file := Some (progress_of (scrape md5_hex web disk schedule s));
              report_store := files_of (scrape md5_hex web disk schedule s);
              tasks := map (fun _ => Finished) schedule |}.
Proof.
  unfold scrape.
  change (map Fetching schedule) with ([] ++ map Fetching schedule).
  change (map (fun _ : str => Finished) schedule)
    with ([] ++ map (fun _ : str => Finished) schedule).
  generalize (@nil task) as over. revert s.
  induction schedule as [|url t IH]; intros s over; cbn [fold_left map].
  - apply run_stop.
  - eapply pool_run_trans; [apply process_report_run|].
    specialize (IH (process_report md5_hex web disk s url) (over ++ [Finished])).
    rewrite <- !app_assoc in IH. exact IH.
Qed.
End Sequential.


(** One worker saves the report 2 next to the file of the report 1. *)
Lemma workers_write_queued_files_only_witness :
  pool_run (fun url => url) one_worker one_saved
  /\ dict_get str_eqb (py "2") (report_store one_saved) = Some (Report url_2 [])
  /\ dict_get str_eqb (py "1") (report_store one_saved)
     = dict_get str_eqb (py "1") (report_store one_worker).
Proof.
  assert (R : pool_run (fun url => url) one_worker one_saved).
  { unfold one_worker, one_saved. cbn [map].
    eapply pool_run_trans.
    { eapply (pool_run_one (fun url => url) _ _ _ _ _ _ [] []).
      apply fetch_page with (text := []). }
    eapply pool_run_trans.
    { eapply (pool_run_one (fun url => url) _ _ _ _ _ _ [] []). apply save_written. }
    exact (update_run (fun url => url) [(url_a, DONE)]
             [(py "1", Report url_a [stored_item]); (py "2", Report url_2 [])]
             url_2 DONE [] []). }
  split; [exact R|]. split; [reflexivity|].
  apply (workers_write_queued_files_only (fun url => url) [url_2]
           one_worker one_saved eq_refl R).
  intros v [<-|[]]. vm_compute. discriminate.
Defined.

(** ** Where the records of the extractor come from *)

Lemma findall_located (r : regex) (text : str) (g : groups) :
  In g (findall r text) ->
  exists pre w rest, text = pre ++ w ++ rest /\ Matches r w rest [] g.
Proof.
  unfold findall. generalize 0%nat as skip.
  induction text as [|c t IH]; intros skip; simpl.
  - destruct skip; [|intros []].
    destruct (re_match r []) as [[g0 s']|] eqn:E; [|intros []].
    intros [<-|[]]. apply re_match_sound in E. destruct E as (w & E & M).
    now exists [], w, s'.
  - assert (Shift : forall n, In g (findall_from r t n) ->
                              exists pre w rest, c :: t = pre ++ w ++ rest
                                                 /\ Matches r w rest [] g).
    { intros n H. destruct (IH n H) as (pre & w & rest & -> & M).
      now exists (c :: pre), w, rest. }
    destruct skip; [|apply Shift].
    destruct (re_match r (c :: t)) as [[g0 s']|] eqn:E; [|apply Shift].
    intros [<-|H]; [|now apply Shift in H].
    apply re_match_sound in E. destruct E as (w & E & M). now exists [], w, s'.
Qed.

Lemma ci_lit_paren (c : N) : ci_lit 40 c = true -> c = 40%N.
Proof.
  intros H. apply ci_lit_spec in H.
  pose proof (simple_lower_spec c). pose proof (simple_lower_spec 40%N). lia.
Qed.

Lemma Matches_tail_text (w s : str) (g g' : groups) :
  Matches (Alt (Cat (Star false isspace) (Chr (ci_lit 40))) EndS) w s g g' ->
  (exists sp, w = sp ++ [40%N] /\ forallb isspace sp = true)
  \/ (w = [] /\ (s = [] \/ s = [10%N])).
Proof.
  intros H. inversion H as [| | |r1 r2 w0 s0 g0 g1 M|r1 r2 w0 s0 g0 g1 M| | | | |]; subst.
  - left. apply Matches_Cat_inv in M. destruct M as (sp & w2 & g2 & -> & Ms & Mc).
    apply Matches_Star_inv in Ms. destruct Ms as [_ Hsp].
    inversion Mc as [|p c s1 g3 Hc| | | | | | | |]; subst.
    apply ci_lit_paren in Hc. subst c. now exists sp.
  - right. inversion M; subst. now split.
Qed.

Lemma Matches_dose_pattern_text (w rest : str) (g : groups) :
  Matches dose_pattern w rest [] g ->
  exists amount sp1 unit sp2 tok sp3 sub_name tail,
    w = amount ++ sp1 ++ unit ++ sp2 ++ tok ++ sp3 ++ sub_name ++ tail
    /\ g = [(1, amount); (2, unit); (3, tok); (4, sub_name)]%nat
    /\ forallb isspace sp1 = true /\ forallb isspace sp2 = true
    /\ forallb isspace sp3 = true
    /\ ((exists sp, tail = sp ++ [40%N] /\ forallb isspace sp = true)
        \/ (tail = [] /\ (rest = [] \/ rest = [10%N]))).
Proof.
  unfold dose_pattern. intros H.
  apply Matches_Cat_inv in H. destruct H as (amount & w1 & g1 & -> & H1 & H).
  apply Matches_Group_inv in H1. destruct H1 as (g0 & H1 & ->).
  apply Matches_number in H1. destruct H1 as [-> Hnum].
  apply Matches_Cat_inv in H. destruct H as (sp1 & w2 & g2 & -> & Hs & H).
  apply Matches_Star_inv in Hs. destruct Hs as [-> Hsp1].
  apply Matches_Cat_inv in H. destruct H as (unit & w3 & g3 & -> & H2 & H).
  apply Matches_Group_inv in H2. destruct H2 as (g0 & H2 & ->).
  apply Matches_units in H2. destruct H2 as [-> Hunit].
  apply Matches_Cat_inv in H. destruct H as (sp2 & w4 & g4 & -> & Hs & H).
  apply Matches_Star_inv in Hs. destruct Hs as [-> Hsp2].
  apply Matches_Cat_inv in H. destruct H as (tok & w5 & g5 & -> & H3 & H).
  apply Matches_Group_inv in H3. destruct H3 as (g0 & H3 & ->).
  apply Matches_routes in H3. destruct H3 as [-> Hroute].
  apply Matches_Cat_inv in H. destruct H as (sp3 & w6 & g6 & -> & Hs & H).
  apply Matches_Star_inv in Hs. destruct Hs as [-> Hsp3].
  apply Matches_Cat_inv in H. destruct H as (sub_name & tail & g7 & -> & H4 & H).
  apply Matches_Group_inv in H4. destruct H4 as (g0 & H4 & ->).
  apply Matches_Plus in H4. destruct H4 as (-> & Hsub & Hcls).
  pose proof (Matches_neutral_tail _ _ _ _ H) as ->.
  apply Matches_tail_text in H.
  exists amount, sp1, unit, sp2, tok, sp3, sub_name, tail.
  repeat split; try assumption; reflexivity.
Qed.

(** X18. The extractor invents nothing: every record comes from a
    stretch of the text that reads amount, white space, unit, white
    space, route, white space, substance, and then optional white space
    with an opening parenthesis, or the end of the text (or its final
    newline); the dose is the amount and the unit joined by one space,
    the method the lower-cased route and the substance the cleaned
    substance text. *)
Theorem records_come_from_text (text : str) (rec : dose_record) :
  In rec (extract_doses_from_text text) ->
  exists pre amount sp1 unit sp2 tok sp3 sub_name tail post,
    text = pre ++ amount ++ sp1 ++ unit ++ sp2 ++ tok ++ sp3 ++ sub_name ++ tail ++ post
    /\ forallb isspace sp1 = true /\ forallb isspace sp2 = true
    /\ forallb isspace sp3 = true
    /\ ((exists sp, tail = sp ++ [40%N] /\ forallb isspace sp = true)
        \/ (tail = [] /\ (post = [] \/ post = [10%N])))
    /\ dose rec = amount ++ py " " ++ unit
    /\ method rec = lower tok
    /\ substance rec = clean_substance sub_name.
Proof.
  unfold extract_doses_from_text. rewrite in_map_iff.
  intros (g & <- & Hg).
  apply findall_located in Hg. destruct Hg as (pre & w & post & -> & M).
  apply Matches_dose_pattern_text in M.
  destruct M as (amount & sp1 & unit & sp2 & tok & sp3 & sub_name & tail
                 & -> & -> & H1 & H2 & H3 & Ht).
  exists pre, amount, sp1, unit, sp2, tok, sp3, sub_name, tail, post.
  rewrite record_of_match_groups. cbn [substance dose method].
  repeat split; try assumption.
  now rewrite <- !app_assoc.
Qed.

Lemma records_come_from_text_witness :
  In {| substance := py "2C-B, HCl"; dose := py "100 MG"; method := py "insufflated" |}
     (extract_doses_from_text (py "took 100MG Insufflated   2C-B, HCl"))
  /\ exists pre amount post,
      py "took 100MG Insufflated   2C-B, HCl" = pre ++ amount ++ post
      /\ exists unit, py "100 MG" = amount ++ py " " ++ unit.
Proof.
  assert (H : In {| substance := py "2C-B, HCl"; dose := py "100 MG";
                    method := py "insufflated" |}
                 (extract_doses_from_text (py "took 100MG Insufflated   2C-B, HCl")))
    by (vm_compute; now left).
  split; [exact H|].
  destruct (records_come_from_text _ _ H)
    as (pre & amount & sp1 & unit & sp2 & tok & sp3 & sub_name & tail & post
        & E & _ & _ & _ & _ & Hd & _).
  exists pre, amount, (sp1 ++ unit ++ sp2 ++ tok ++ sp3 ++ sub_name ++ tail ++ post).
  split; [exact E|]. exists unit. exact Hd.
Defined.

(** X19. A text without any decimal digit yields no record. *)
Theorem no_digit_no_record (text : str) :
  existsb isdecimal text = false -> extract_doses_from_text text = [].
Proof.
  intros Hno. destruct (extract_doses_from_text text) as [|rec l] eqn:E; [reflexivity|].
  exfalso.
  assert (Hin : In rec (extract_doses_from_text text)) by (rewrite E; now left).
  unfold extract_doses_from_text in Hin. rewrite in_map_iff in Hin.
  destruct Hin as (g & _ & Hg).
  apply findall_located in Hg. destruct Hg as (pre & w & post & -> & M).
  pose proof M as M'. apply Matches_dose_pattern_text in M'.
  destruct M' as (amount & sp1 & unit & sp2 & tok & sp3 & sub_name & tail
                  & -> & -> & _).
  apply Matches_dose_pattern in M.
  destruct M as (amount' & unit' & tok' & sub_name' & [= <- <- <- <-] & Hnum & _).
  destruct Hnum as (i & f & Hi & Hdi & _ & Hshape).
  destruct i as [|d i]; [congruence|]. simpl in Hdi.
  apply andb_true_iff in Hdi. destruct Hdi as [Hd _].
  assert (Hex : existsb isdecimal
                  (pre ++ (amount ++ sp1 ++ unit ++ sp2 ++ tok ++ sp3 ++ sub_name ++ tail)
                       ++ post) = true).
  { apply existsb_exists. exists d. split; [|exact Hd].
    apply in_or_app. right. apply in_or_app. left. apply in_or_app. left.
    destruct Hshape as [->|(_ & d' & _ & ->)]; now left. }
  congruence.
Qed.

Lemma no_digit_no_record_witness :
  extract_doses_from_text (py "a few mg oral LSD") = [].
Proof.
  apply no_digit_no_record. vm_compute. reflexivity.
Defined.

(** ** Extracted doses in the aggregator *)

Lemma extracted_parse_all (doses : list str) :
  (forall d, In d doses ->
             (exists text rec, In rec (extract_doses_from_text text) /\ dose rec = d)
             /\ ~ In 956%N d /\ ~ In 924%N d) ->
  length (parse_doses doses) = length doses.
Proof.
  induction doses as [|d t IH]; intros H; [reflexivity|].
  cbn [parse_doses].
  destruct (H d (or_introl eq_refl)) as ((text & rec & Hin & <-) & N1 & N2).
  pose proof (extracted_dose_parses text rec Hin N1 N2) as P.
  destruct (parse_dose (dose rec)) as [p|]; [|congruence].
  cbn [length]. f_equal. apply IH. intros d' Hd'. apply H. now right.
Qed.

(** X20. Doses written by the extractor, other than those that spell
    micrograms with the Greek letter mu, are never discarded by the
    aggregator: every one of them parses, and a non-empty list of them
    (of at most sys.maxsize strings) yields a band record. *)
Theorem extracted_doses_all_count (doses : list str) :
  (forall d, In d doses ->
             (exists text rec, In rec (extract_doses_from_text text) /\ dose rec = d)
             /\ ~ In 956%N d /\ ~ In 924%N d) ->
  length (parse_doses doses) = length doses
  /\ (doses <> [] -> Z.of_nat (length doses) <= sys_maxsize ->
      exists r, analyze_doses doses = Return (Some r)).
Proof.
  intros H. pose proof (extracted_parse_all doses H) as L. split; [exact L|].
  intros Hne Hmax.
  destruct (analyze_doses_no_raise doses Hmax) as ([r|] & Ho); [now exists r|].
  exfalso. apply (analyze_doses_not_None doses); [|exact Ho].
  intros E. rewrite E in L. destruct doses; [congruence | discriminate].
Qed.

Lemma extracted_doses_all_count_witness :
  length (parse_doses [py "100 MG"]) = length [py "100 MG"].
Proof.
  apply extracted_doses_all_count. intros d [<-|[]]. split; [|split].
  - exists (py "took 100MG Insufflated   2C-B, HCl").
    exists {| substance := py "2C-B, HCl"; dose := py "100 MG";
              method := py "insufflated" |}.
    split; [vm_compute; now left | reflexivity].
  - vm_compute. intuition discriminate.
  - vm_compute. intuition discriminate.
Defined.

(** ** Order of the reports *)

Lemma parse_doses_perm (doses doses' : list str) :
  Permutation doses doses' -> Permutation (parse_doses doses) (parse_doses doses').
Proof.
  induction 1 as [|d l l' _ IH|d1 d2 l|l1 l2 l3 _ IH1 _ IH2]; cbn [parse_doses].
  - constructor.
  - destruct (parse_dose d); [now constructor | exact IH].
  - destruct (parse_dose d1), (parse_dose d2); try apply Permutation_refl.
    apply perm_swap.
  - now apply Permutation_trans with (parse_doses l2).
Qed.

Lemma fle_antisym (a b : pyfloat) :
  canonical a -> canonical b -> fle a b -> fle b a -> a = b.
Proof.
  destruct a as [x|], b as [y|]; unfold fle; simpl; intros Ca Cb H1 H2;
    try discriminate; [|reflexivity].
  apply Qle_bool_iff in H1, H2.
  assert (E : (x == y)%Q) by now apply Qle_antisym.
  apply Qred_complete in E. rewrite Ca, Cb in E. now subst.
Qed.

Lemma sorted_perm_unique (l l' : list pyfloat) :
  StronglySorted fle l -> StronglySorted fle l' -> Permutation l l' ->
  Forall canonical l -> l = l'.
Proof.
  revert l'. induction l as [|a t IH]; intros l' S S' P C.
  - apply Permutation_nil in P. now subst.
  - destruct l' as [|b t'].
    { apply Permutation_sym, Permutation_nil in P. discriminate. }
    inversion S as [|? ? St Ha]; subst. inversion S' as [|? ? St' Hb]; subst.
    inversion C as [|? ? Ca Ct]; subst.
    assert (C' : Forall canonical (b :: t')).
    { rewrite Forall_forall in *. intros x Hx. apply C.
      now apply (Permutation_in x (Permutation_sym P)). }
    inversion C' as [|? ? Cb Ct']; subst.
    assert (E : a = b).
    { apply fle_antisym; try assumption.
      - assert (Hin : In b (a :: t)) by (apply (Permutation_in b (Permutation_sym P)); now left).
        destruct Hin as [->|Hin]; [apply fle_refl|].
        rewrite Forall_forall in Ha. now apply Ha.
      - assert (Hin : In a (b :: t')) by (apply (Permutation_in a P); now left).
        destruct Hin as [->|Hin]; [apply fle_refl|].
        rewrite Forall_forall in Hb. now apply Hb. }
    subst b. f_equal. apply IH; try assumption.
    now apply Permutation_cons_inv with a.
Qed.

Lemma Permutation_filter (X : Type) (f : X -> bool) (l l' : list X) :
  Permutation l l' -> Permutation (filter f l) (filter f l').
Proof.
  induction 1 as [|x l l' _ IH|x y l|l1 l2 l3 _ IH1 _ IH2]; cbn [filter].
  - constructor.
  - destruct (f x); [now constructor | exact IH].
  - destruct (f x), (f y); try apply Permutation_refl. apply perm_swap.
  - now apply Permutation_trans with (filter f l2).
Qed.

Lemma valid_doses_perm (unit : str) (parsed parsed' : list (pyfloat * str)) :
  Permutation parsed parsed' -> Forall (fun p => canonical (fst p)) parsed ->
  valid_doses_of unit parsed = valid_doses_of unit parsed'.
Proof.
  intros P C. apply sorted_perm_unique; try apply valid_doses_sorted.
  - unfold valid_doses_of.
    apply Permutation_trans
      with (map fst (filter (fun p => str_eqb (snd p) unit) parsed));
      [apply py_sort_perm|].
    apply Permutation_trans
      with (map fst (filter (fun p => str_eqb (snd p) unit) parsed'));
      [|apply Permutation_sym, py_sort_perm].
    now apply Permutation_map, Permutation_filter.
  - rewrite Forall_forall in *. intros x Hx.
    apply (Permutation_in x (py_sort_perm _ fltb _)) in Hx.
    apply in_map_iff in Hx. destruct Hx as (p & <- & Hp).
    apply filter_In in Hp. now apply C.
Qed.

Lemma count_unit_perm (u : str) (parsed parsed' : list (pyfloat * str)) :
  Permutation parsed parsed' -> count_unit u parsed = count_unit u parsed'.
Proof.
  intros P. unfold count_unit. apply Permutation_length. now apply Permutation_filter.
Qed.

(** X21. When one unit is strictly the most frequent, the result of
    [analyze_doses] does not depend on the order of the dose strings: a
    permutation of the input selects the same unit, the same sorted
    sample and the same record. *)
Theorem analyze_doses_order_independent (doses doses' : list str) (unit : str) :
  Permutation doses doses' ->
  majority_unit doses = Some unit ->
  (forall u, u <> unit ->
             (count_unit u (parse_doses doses) < count_unit unit (parse_doses doses))%nat) ->
  majority_unit doses' = Some unit
  /\ majority_sample doses' = majority_sample doses
  /\ analyze_doses doses' = analyze_doses doses.
Proof.
  intros P Hu Hstrict.
  pose proof (parse_doses_perm _ _ P) as PP.
  assert (Hu' : majority_unit doses' = Some unit).
  { destruct (majority_unit doses') as [unit'|] eqn:E.
    - destruct (list_eq_dec N.eq_dec unit' unit) as [->|Hne]; [reflexivity|].
      exfalso. destruct (majority_unit_max doses' unit' E) as [_ Hmax].
      specialize (Hmax unit). specialize (Hstrict unit' Hne).
      rewrite <- !(count_unit_perm _ _ _ PP) in Hmax. lia.
    - exfalso. apply majority_unit_None in E.
      destruct (majority_unit_max doses unit Hu) as [Hpos _].
      rewrite (count_unit_perm _ _ _ PP), E in Hpos.
      unfold count_unit in Hpos. simpl in Hpos. lia. }
  assert (Hs : majority_sample doses' = majority_sample doses).
  { unfold majority_sample. rewrite Hu, Hu'. symmetry.
    apply valid_doses_perm; [exact PP | apply parse_doses_canonical]. }
  split; [exact Hu'|]. split; [exact Hs|].
  now rewrite !analyze_doses_bands, Hu, Hu', Hs.
Qed.

Lemma analyze_doses_order_independent_witness :
  analyze_doses [py "1 g"; py "20 mg"; py "10 mg"]
  = analyze_doses [py "10 mg"; py "1 g"; py "20 mg"].
Proof.
  apply (analyze_doses_order_independent
           [py "10 mg"; py "1 g"; py "20 mg"] [py "1 g"; py "20 mg"; py "10 mg"]
           (py "mg")).
  - apply Permutation_trans with [py "1 g"; py "10 mg"; py "20 mg"].
    + apply perm_swap.
    + apply perm_skip, perm_swap.
  - vm_compute. reflexivity.
  - intros u Hu.
    change (count_unit (py "mg") (parse_doses [py "10 mg"; py "1 g"; py "20 mg"]))
      with 2%nat.
    assert (E : parse_doses [py "10 mg"; py "1 g"; py "20 mg"]
                = [(float_of_decimal (py "10"), py "mg");
                   (float_of_decimal (py "1"), py "g");
                   (float_of_decimal (py "20"), py "mg")]) by (vm_compute; reflexivity).
    rewrite E. unfold count_unit. cbn [filter snd].
    assert (N : str_eqb (py "mg") u = false) by (apply str_eqb_neq; congruence).
    rewrite N. destruct (str_eqb (py "g") u); simpl; lia.
Defined.

(** ** The histogram *)

Lemma dict_set_sum (K : Type) (eqb : K -> K -> bool) (k : K) (v : nat) (d : dict K nat) :
  (list_sum (map snd (dict_set eqb k v d)) + dict_get_default eqb 0%nat k d
   = list_sum (map snd d) + v)%nat.
Proof.
  unfold dict_get_default. induction d as [|[k' v'] t IH]; simpl.
  - lia.
  - destruct (eqb k k'); simpl; lia.
Qed.

Lemma incr_sum (K : Type) (eqb : K -> K -> bool) (k : K) (d : dict K nat) :
  list_sum (map snd (incr eqb k d)) = (list_sum (map snd d) + 1)%nat.
Proof.
  unfold incr.
  pose proof (dict_set_sum K eqb k (dict_get_default eqb 0%nat k d + 1)%nat d). lia.
Qed.

Lemma value_counts_sum (vd : list pyfloat) :
  list_sum (map snd (value_counts vd)) = length vd.
Proof.
  unfold value_counts.
  assert (G : forall l d,
             list_sum (map snd (fold_left (fun d v => incr feqb v d) l d))
             = (list_sum (map snd d) + length l)%nat).
  { induction l as [|v t IH]; intros d; simpl; [lia|].
    rewrite IH, incr_sum. lia. }
  now rewrite G.
Qed.

Lemma list_sum_perm (l l' : list nat) : Permutation l l' -> list_sum l = list_sum l'.
Proof. induction 1; simpl; lia. Qed.

(** X22. The distribution of [_stats] is written from the (value, count)
    pairs of the sample of the majority unit: the counts add up to
    total_reports, and the count looked up for a value is the number of
    samples equal to it. *)
Theorem histogram_counts (doses : list str) (r : ranges) :
  analyze_doses doses = Return (Some r) ->
  exists unit items,
    majority_unit doses = Some unit
    /\ distribution (_stats r) = format_distribution unit items
    /\ Permutation items (value_counts (majority_sample doses))
    /\ list_sum (map snd items) = total_reports (_stats r)
    /\ forall v,
        dict_get feqb v (value_counts (majority_sample doses))
        = if (length (filter (feqb v) (majority_sample doses)) =? 0)%nat then None
          else Some (length (filter (feqb v) (majority_sample doses))).
Proof.
  rewrite analyze_doses_bands. destruct (majority_unit doses) as [unit|]; [|discriminate].
  intros H. apply bands_stats in H.
  exists unit, (py_sort item_ltb (value_counts (majority_sample doses))).
  split; [reflexivity|]. rewrite H. cbn [distribution total_reports stats_of].
  split; [reflexivity|]. split; [apply py_sort_perm|]. split.
  - rewrite (list_sum_perm _ (map snd (value_counts (majority_sample doses)))).
    + apply value_counts_sum.
    + apply Permutation_map, py_sort_perm.
  - apply value_counts_get.
Qed.

Lemma histogram_counts_witness :
  exists r items,
    analyze_doses mixed_doses = Return (Some r)
    /\ distribution (_stats r) = format_distribution (py "mg") items
    /\ list_sum (map snd items) = 4%nat.
Proof.
  destruct (analyze_doses mixed_doses) as [[r|]|] eqn:E;
    try (vm_compute in E; discriminate E).
  destruct (histogram_counts mixed_doses r E) as (unit & items & Hu & Hd & _ & Hs & _).
  exists r, items.
  assert (U : unit = py "mg") by (vm_compute in Hu; now injection Hu as <-).
  subst unit. split; [reflexivity|]. split; [exact Hd|].
  rewrite Hs. vm_compute in E. injection E as <-. reflexivity.
Defined.

(** ** Shape of the substance field *)

Lemma lstrip_head (s : str) : not_at_head isspace (lstrip s).
Proof.
  induction s as [|c t IH]; simpl; [exact I|].
  destruct (isspace c) eqn:E; [exact IH | exact E].
Qed.

Lemma lstrip_snoc (l : str) (a : N) :
  isspace a = false -> lstrip (l ++ [a]) = lstrip l ++ [a].
Proof.
  intros Ha. induction l as [|c t IH]; simpl; [now rewrite Ha|].
  destruct (isspace c); [exact IH | reflexivity].
Qed.

Lemma rstrip_cons (a : N) (t : str) :
  isspace a = false -> rstrip (a :: t) = a :: rstrip t.
Proof.
  intros Ha. unfold rstrip. simpl. rewrite (lstrip_snoc _ _ Ha), rev_app_distr.
  reflexivity.
Qed.

Lemma rstrip_last (s : str) :
  rstrip s = [] \/ exists y c, rstrip s = y ++ [c] /\ isspace c = false.
Proof.
  unfold rstrip. pose proof (lstrip_head (rev s)) as H.
  destruct (lstrip (rev s)) as [|c y]; [now left|].
  right. exists (rev y), c. split; [reflexivity | exact H].
Qed.

Lemma strip_shape (s : str) :
  strip s = []
  \/ exists a t, strip s = a :: t /\ isspace a = false /\ isspace (last t a) = false.
Proof.
  unfold strip. pose proof (lstrip_head s) as H.
  destruct (lstrip s) as [|a t]; [now left|].
  right. simpl in H. rewrite (rstrip_cons _ _ H).
  exists a, (rstrip t). split; [reflexivity|]. split; [exact H|].
  destruct (rstrip_last t) as [E|(y & c & E & Hc)]; rewrite E; [exact H|].
  now rewrite last_last.
Qed.

Lemma sub_ws_snoc (y : str) (c : N) (inrun : bool) :
  isspace c = false -> sub_ws inrun (y ++ [c]) = sub_ws inrun y ++ [c].
Proof.
  intros Hc. revert inrun. induction y as [|d t IH]; intros inrun; simpl.
  - now rewrite Hc.
  - destruct (isspace d); [destruct inrun|]; now rewrite IH.
Qed.

Lemma sub_ws_shape (s : str) :
  (s = [] \/ exists a t, s = a :: t /\ isspace a = false /\ isspace (last t a) = false) ->
  forall a t, sub_ws false s = a :: t ->
              isspace a = false /\ isspace (last t a) = false.
Proof.
  intros [->|(a0 & t0 & -> & Ha & Hl)] a t E; [discriminate|].
  simpl in E. rewrite Ha in E. injection E as <- <-. split; [exact Ha|].
  destruct t0 as [|d t0] using rev_ind; [exact Ha|].
  rewrite last_last in Hl. now rewrite (sub_ws_snoc _ _ _ Hl), last_last.
Qed.

(** X23. The substance of a record, when it is not empty, begins and
    ends with a character that is no white space. *)
Theorem substance_trimmed (text : str) (rec : dose_record) :
  In rec (extract_doses_from_text text) ->
  forall a t, substance rec = a :: t ->
              isspace a = false /\ isspace (last t a) = false.
Proof.
  unfold extract_doses_from_text. rewrite in_map_iff.
  intros (g & <- & Hg).
  apply findall_sound in Hg. destruct Hg as (w & rest & M).
  apply Matches_dose_pattern in M.
  destruct M as (amount & unit & tok & sub_name & -> & _ & _ & _ & _ & Hcls).
  rewrite record_of_match_groups. cbn [substance].
  destruct (clean_substance_spec sub_name Hcls) as (E & _). rewrite E.
  apply sub_ws_shape, strip_shape.
Qed.

Lemma substance_trimmed_witness :
  In {| substance := py "2C-B, HCl"; dose := py "100 MG"; method := py "insufflated" |}
     (extract_doses_from_text (py "took 100MG Insufflated   2C-B, HCl"))
  /\ isspace 50 = false /\ isspace 108 = false.
Proof.
  assert (H : In {| substance := py "2C-B, HCl"; dose := py "100 MG";
                    method := py "insufflated" |}
                 (extract_doses_from_text (py "took 100MG Insufflated   2C-B, HCl")))
    by (vm_compute; now left).
  split; [exact H|].
  exact (substance_trimmed _ _ H 50%N (py "C-B, HCl") eq_refl).
Defined.

(** ** Commas in a dose string *)

Lemma lstrip_app (a x : str) :
  existsb (fun c => negb (isspace c)) a = true -> lstrip (a ++ x) = lstrip a ++ x.
Proof.
  induction a as [|c t IH]; simpl; [discriminate|].
  destruct (isspace c); simpl; [exact IH | reflexivity].
Qed.

Lemma existsb_rev (X : Type) (f : X -> bool) (l : list X) :
  existsb f (rev l) = existsb f l.
Proof.
  destruct (existsb f l) eqn:E.
  - apply existsb_exists in E. destruct E as (x & Hx & Hf).
    apply existsb_exists. exists x. split; [now apply in_rev in Hx | exact Hf].
  - apply not_true_iff_false. intros H. apply existsb_exists in H.
    destruct H as (x & Hx & Hf). apply in_rev in Hx.
    assert (E' : existsb f l = true) by (apply existsb_exists; now exists x).
    congruence.
Qed.

Lemma rstrip_app (x b : str) :
  existsb (fun c => negb (isspace c)) b = true -> rstrip (x ++ b) = x ++ rstrip b.
Proof.
  intros H. unfold rstrip. rewrite rev_app_distr, lstrip_app, rev_app_distr, rev_involutive.
  - reflexivity.
  - now rewrite existsb_rev.
Qed.

Lemma lstrip_keeps (a : str) :
  existsb (fun c => negb (isspace c)) (lstrip a) = existsb (fun c => negb (isspace c)) a.
Proof.
  induction a as [|c t IH]; simpl; [reflexivity|].
  destruct (isspace c) eqn:E; simpl; [exact IH | now rewrite E].
Qed.

Lemma strip_around (a x b : str) :
  existsb (fun c => negb (isspace c)) a = true ->
  existsb (fun c => negb (isspace c)) b = true ->
  strip (a ++ x ++ b) = lstrip a ++ x ++ rstrip b.
Proof.
  intros Ha Hb. unfold strip. rewrite (lstrip_app _ _ Ha).
  rewrite app_assoc, (rstrip_app _ _ Hb), <- app_assoc. reflexivity.
Qed.

(** X24. The parsing step of [analyze_doses] ignores a comma inside a
    dose string: a comma with a character other than white space
    somewhere before it and somewhere after it can be removed without
    changing the parsed value and unit. *)
Theorem parse_dose_ignores_inner_commas (a b : str) :
  existsb (fun c => negb (isspace c)) a = true ->
  existsb (fun c => negb (isspace c)) b = true ->
  parse_dose (a ++ 44%N :: b) = parse_dose (a ++ b).
Proof.
  intros Ha Hb. unfold parse_dose.
  change (a ++ 44%N :: b) with (a ++ [44%N] ++ b).
  rewrite (strip_around a [44%N] b Ha Hb).
  pose proof (strip_around a [] b Ha Hb) as E. cbn [app] in E. rewrite E.
  rewrite !lower_app. unfold remove_char. rewrite !filter_app. reflexivity.
Qed.

Lemma parse_dose_ignores_inner_commas_witness :
  parse_dose (py "1,000 mg") = parse_dose (py "1000 mg")
  /\ parse_dose (py ", 5 mg") = None /\ parse_dose (py " 5 mg") <> None.
Proof.
  split; [|split; vm_compute; [reflexivity | discriminate]].
  apply (parse_dose_ignores_inner_commas (py "1") (py "000 mg")); reflexivity.
Defined.
